(** * Data pipeline of the stock GRU demo: CSV -> pivot -> normalise -> windows

    Shallow embedding of the two loaders of the repository,
    [DataLoader] (src/data-loader.js) and [StockDataLoader]
    (src/unnamed/part_000), and of the label readers of the two models,
    [GRUModel.accuracyByStock] (src/unnamed/part_002) and
    [GRUStockPredictor.calculateStockAccuracies] (src/unnamed/part_003).

    Conventions of the embedding:
    - a JS number is an IEEE-754 binary64 value, [spec_float] with
      [prec = 53] and [emax = 1024]; arithmetic is the correctly rounded
      arithmetic of the Standard Library's [SpecFloat];
    - a JS string is a [string] of 8-bit code units;
    - a JS array is a [list]; [a[i]] is the lookup [a !! i], [None] being
      [undefined];
    - a JS object used as a dictionary is a [gmap string _] of its own
      properties; where the program reads or writes such an object under
      a key taken from the file, the members of [Object.prototype] and
      the accessor [__proto__] are modelled (module [Obj]);
    - a [throw] is the [Throw] result;
    - a tensor is represented by the nested array handed to [tf.tensor],
      [tf.tensor3d] or [tf.tensor2d], which throw on an array whose
      inferred shape has too few dimensions (module [tf]); what
      TensorFlow.js does with the numbers is outside the embedding. *)

From Stdlib Require Import ZArith Bool Ascii String List Lia.
From Stdlib Require Import Floats.SpecFloat.
From stdpp Require Import base option list gmap strings.

Local Open Scope string_scope.
Local Open Scope list_scope.
Local Open Scope Z_scope.

(** ** JavaScript values used by the loaders *)

Module JS.

(** *** Numbers *)

Definition prec : Z := 53.
Definition emax : Z := 1024.

Abbreviation number := spec_float.

Definition NaN : number := S754_nan.
Definition Infinity : number := S754_infinity false.
Definition negInfinity : number := S754_infinity true.

(** [of_Z z] is the number denoted by the integer literal [z]. *)
Definition of_Z (z : Z) : number := binary_normalize prec emax z 0 false.

Definition num_0 : number := S754_zero false.
Definition num_1 : number := Eval cbv in of_Z 1.
(** [0.5 = 2^52 * 2^-53] *)
Definition num_half : number := S754_finite false 4503599627370496 (-53).

Definition sub (a b : number) : number := SFsub prec emax a b.
Definition mul (a b : number) : number := SFmul prec emax a b.
Definition div (a b : number) : number := SFdiv prec emax a b.

(** [a > b], [a >= b] and [a === b] on numbers. *)
Definition gt (a b : number) : bool := SFltb b a.
Definition ge (a b : number) : bool := SFleb b a.
Definition strict_eq (a b : number) : bool := SFeqb a b.

Definition isNaN (a : number) : bool :=
  match a with S754_nan => true | _ => false end.

Definition is_pos_zero (a : number) : bool :=
  match a with S754_zero false => true | _ => false end.
Definition is_neg_zero (a : number) : bool :=
  match a with S754_zero true => true | _ => false end.

(** [Boolean(x)] for a number: false exactly on [NaN], [+0] and [-0]. *)
Definition truthy (a : number) : bool :=
  match a with S754_nan | S754_zero _ => false | _ => true end.

(** [Math.min(...l)]: the loop of ECMAScript 21.3.2.25, which starts from
    [+Infinity], returns [NaN] as soon as an argument is [NaN] and orders
    [-0] below [+0]. *)
Fixpoint min_loop (lowest : number) (l : list number) : number :=
  match l with
  | [] => lowest
  | n :: l' =>
      if isNaN n then NaN
      else if is_neg_zero n && is_pos_zero lowest then min_loop n l'
      else if SFltb n lowest then min_loop n l'
      else min_loop lowest l'
  end.

Definition Math_min (l : list number) : number := min_loop Infinity l.

(** [Math.max(...l)], ECMAScript 21.3.2.24. *)
Fixpoint max_loop (highest : number) (l : list number) : number :=
  match l with
  | [] => highest
  | n :: l' =>
      if isNaN n then NaN
      else if is_pos_zero n && is_neg_zero highest then max_loop n l'
      else if SFltb highest n then max_loop n l'
      else max_loop highest l'
  end.

Definition Math_max (l : list number) : number := max_loop negInfinity l.

(** [Math.floor] followed by the conversion of an array index
    ([ToIntegerOrInfinity]): a finite number gives its floor, [NaN] gives
    [0]; the infinities are kept apart. *)
Inductive int_or_inf := Int (z : Z) | PosInf | NegInf.

Definition floor_index (a : number) : int_or_inf :=
  match a with
  | S754_nan | S754_zero _ => Int 0
  | S754_infinity false => PosInf
  | S754_infinity true => NegInf
  | S754_finite s m e =>
      Int (Z.shiftl (if s then Z.neg m else Z.pos m) e)
  end.

(** *** Arrays *)

(** [a[i]] for an index that may be negative. *)
Definition at_Z {A} (a : list A) (i : Z) : option A :=
  if i <? 0 then None else a !! Z.to_nat i.

(** [a.slice(start, end)] on relative indices already converted by
    [ToIntegerOrInfinity]. *)
Definition rel_index (len : nat) (i : int_or_inf) : nat :=
  match i with
  | NegInf => 0%nat
  | PosInf => len
  | Int z => if z <? 0 then Z.to_nat (Z.max (Z.of_nat len + z) 0)
             else Z.to_nat (Z.min z (Z.of_nat len))
  end.

Definition slice {A} (a : list A) (start stop : int_or_inf) : list A :=
  let k := rel_index (length a) start in
  let final := rel_index (length a) stop in
  take (final - k) (drop k a).

Definition slice_from {A} (a : list A) (start : int_or_inf) : list A :=
  drop (rel_index (length a) start) a.

(** [a.indexOf(x)]: [None] stands for [-1]. *)
Fixpoint indexOf (a : list string) (x : string) : option nat :=
  match a with
  | [] => None
  | y :: a' => if String.eqb y x then Some 0%nat
               else S <$> indexOf a' x
  end.

Definition includes (a : list string) (x : string) : bool :=
  bool_decide (is_Some (indexOf a x)).

(** *** Strings *)

(** White space and line terminators removed by [String.prototype.trim],
    among the 8-bit code units. *)
Definition is_ws (c : ascii) : bool :=
  let n := nat_of_ascii c in
  ((9 <=? n) && (n <=? 13) || (n =? 32) || (n =? 160))%nat.

Fixpoint trim_start (s : string) : string :=
  match s with
  | String c s' => if is_ws c then trim_start s' else s
  | EmptyString => EmptyString
  end.

Fixpoint trim_end (s : string) : string :=
  match s with
  | EmptyString => EmptyString
  | String c s' =>
      match trim_end s' with
      | EmptyString => if is_ws c then EmptyString else String c EmptyString
      | r => String c r
      end
  end.

Definition trim (s : string) : string := trim_end (trim_start s).

(** [s.split(sep)] for a one-character separator. *)
Fixpoint split (sep : ascii) (s : string) : list string :=
  match s with
  | EmptyString => [EmptyString]
  | String c s' =>
      if Ascii.eqb c sep then EmptyString :: split sep s'
      else match split sep s' with
           | h :: t => String c h :: t
           | [] => [String c EmptyString]
           end
  end.

Definition newline : ascii := Ascii.ascii_of_nat 10.
Definition comma : ascii := ","%char.

(** A value that is [undefined] or a string is falsy when it is
    [undefined] or empty. *)
Definition falsy_str (v : option string) : bool :=
  match v with
  | None | Some EmptyString => true
  | Some _ => false
  end.

(** *** Sets and sorting *)

(** A [Set] keeps its elements in insertion order. *)
Definition set_add {A} `{EqDecision A} (s : list A) (x : A) : list A :=
  if bool_decide (x ∈ s) then s else s ++ [x].

Definition set_of {A} `{EqDecision A} (l : list A) : list A :=
  fold_left set_add l [].

(** [Array.prototype.sort()] without a comparator orders strings by code
    units and puts [undefined] last. On the duplicate-free arrays it is
    applied to, every sorting algorithm gives the list computed here. *)
Definition sort_le (x y : option string) : bool :=
  match x, y with
  | _, None => true
  | None, Some _ => false
  | Some a, Some b => String.leb a b
  end.

Fixpoint sort_insert (x : option string) (l : list (option string)) :=
  match l with
  | [] => [x]
  | y :: l' => if sort_le x y then x :: l else y :: sort_insert x l'
  end.

Definition sort_opt (l : list (option string)) : list (option string) :=
  foldr sort_insert [] l.

Fixpoint str_insert (x : string) (l : list string) : list string :=
  match l with
  | [] => [x]
  | y :: l' => if String.leb x y then x :: l else y :: str_insert x l'
  end.

Definition sort (l : list string) : list string := foldr str_insert [] l.

(** *** Objects *)

(** [Object.fromEntries(l)], and the object left by a loop of assignments
    [o[k] = v] over the pairs of [l]: a later pair overwrites an earlier
    one with the same key. *)
Definition fromEntries {V} (l : list (string * V)) : gmap string V :=
  fold_left (λ (m : gmap string V) (kv : string * V), <[kv.1 := kv.2]> m) l ∅.

(** *** Exceptions *)

Inductive error :=
| Error (msg : string)
| TypeError (msg : string).

Inductive result (A : Type) :=
| Ok (a : A)
| Throw (e : error).
Arguments Ok {A} a.
Arguments Throw {A} e.

Definition bind {A B} (r : result A) (k : A -> result B) : result B :=
  match r with
  | Ok a => k a
  | Throw e => Throw e
  end.

Definition of_option {A} (o : option A) (e : error) : result A :=
  match o with Some a => Ok a | None => Throw e end.

(** A loop whose body may throw. *)
Fixpoint mapM {A B} (f : A -> result B) (l : list A) : result (list B) :=
  match l with
  | [] => Ok []
  | x :: l' => bind (f x) (fun y => bind (mapM f l') (fun ys => Ok (y :: ys)))
  end.

Fixpoint foldM {A B} (f : B -> A -> result B) (l : list A) (b : B) : result B :=
  match l with
  | [] => Ok b
  | x :: l' => bind (f b x) (foldM f l')
  end.

End JS.

Notation "'let!' x ':=' c 'in' k" := (JS.bind c (fun x => k))
  (at level 10, x name, c at level 100, k at level 200).

Import JS.

(** ** [DataLoader] (src/data-loader.js) *)

Module DataLoader.

(** A parsed CSV record, [{date, symbol, open, close}]. *)
Record Row := {
  date : string;
  symbol : string;
  row_open : number;
  row_close : number
}.

(** A matrix cell or a statistics entry, [{open, close}]. *)
Record OC := { open : number; close : number }.

Abbreviation matrix := (list (list OC)).

(** The fields of the loader object; [dataMatrix = None] is [null]. *)
Record t := {
  symbols : list string;
  symbolIndex : gmap string nat;
  dates : list string;
  dataMatrix : option matrix;
  min : gmap string OC;
  max : gmap string OC;
  ready : bool
}.

Definition constructor : t :=
  {| symbols := []; symbolIndex := ∅; dates := []; dataMatrix := None;
     min := ∅; max := ∅; ready := false |}.

Definition required : list string := ["Date"; "Symbol"; "Open"; "Close"].

Definition missing_msg : string :=
  "CSV columns missing. Required: Date,Symbol,Open,Close".

(** [_scale(val, min, max)] *)
Definition _scale (val mn mx : number) : number :=
  if isNaN val then num_half
  else if strict_eq mx mn then num_half
  else div (sub val mn) (sub mx mn).

Section WithNumber.

(** [Number(s)] on a string is the built-in conversion [StringToNumber];
    [Number(undefined)] is [NaN]. *)
Variable StringToNumber : string -> number.

Definition Number (v : option string) : number :=
  match v with
  | Some s => StringToNumber s
  | None => NaN
  end.

(** [r[idx]] where [idx] comes from [indexOf]: [r[-1]] is [undefined]. *)
Definition field (r : list string) (idx : option nat) : option string :=
  idx ≫= λ i, r !! i.

(** The body of the parsing loop, for one line [r] of the file. *)
Definition parse_row (dateIdx symbolIdx openIdx closeIdx : option nat)
    (acc : list Row * list string * list string) (r : list string)
    : list Row * list string * list string :=
  let '(data, symbolSet, dateSet) := acc in
  if falsy_str (field r dateIdx) || falsy_str (field r symbolIdx) then acc
  else
    match field r dateIdx, field r symbolIdx with
    | Some d, Some s =>
        (data ++ [ {| date := d; symbol := s;
                      row_open := Number (field r openIdx);
                      row_close := Number (field r closeIdx) |} ],
         set_add symbolSet s, set_add dateSet d)
    | _, _ => acc
    end.

Definition parse_rows (headers : list string) (body : list (list string))
    : list Row * list string * list string :=
  fold_left (parse_row (indexOf headers "Date") (indexOf headers "Symbol")
                       (indexOf headers "Open") (indexOf headers "Close"))
            body ([], [], []).

End WithNumber.

(** [Object.fromEntries(symbols.map((s,i) => [s,i]))] *)
Definition index_object (syms : list string) : gmap string nat :=
  fromEntries (imap (λ i s, (s, i)) syms).

Definition missing_cell : OC := {| open := NaN; close := NaN |}.

(** [Array(dateN).fill(null).map(() => Array(symbolN).fill(null).map(...))] *)
Definition blank (dateN symbolN : nat) : matrix :=
  replicate dateN (replicate symbolN missing_cell).

(** One iteration of the pivot loop,
    [this.dataMatrix[dIdx][sIdx] = {open: row.open, close: row.close}].
    [dIdx = -1] makes [this.dataMatrix[dIdx]] undefined, a [TypeError];
    an undefined [sIdx] writes the property ["undefined"] of the day array
    and leaves its cells as they are. The values of [symbolIndex] are
    indices of [symbols] (lemma [index_object_Some]), so the write is
    never beyond the end of the day array. *)
Definition pivot_step (ds : list string) (sidx : gmap string nat)
    (M : matrix) (row : Row) : result matrix :=
  match indexOf ds (date row) with
  | None => Throw (TypeError "this.dataMatrix[dIdx] is undefined")
  | Some dIdx =>
      match M !! dIdx with
      | None => Throw (TypeError "this.dataMatrix[dIdx] is undefined")
      | Some day =>
          match sidx !! symbol row with
          | None => Ok M
          | Some sIdx =>
              Ok (<[dIdx := <[sIdx := {| open := row_open row;
                                         close := row_close row |}]> day]> M)
          end
      end
  end.

(** The pivot loop; on a throw the matrix keeps the writes made so far. *)
Fixpoint pivot_loop (ds : list string) (sidx : gmap string nat)
    (M : matrix) (data : list Row) : result unit * matrix :=
  match data with
  | [] => (Ok tt, M)
  | row :: rest =>
      match pivot_step ds sidx M row with
      | Ok M' => pivot_loop ds sidx M' rest
      | Throw e => (Throw e, M)
      end
  end.

Definition pivot (ds syms : list string) (sidx : gmap string nat)
    (data : list Row) : result unit * matrix :=
  pivot_loop ds sidx (blank (length ds) (length syms)) data.

(** [_normalize()]. It is called by [loadCSV] only, on the dense
    [dateN x symbolN] matrix built by the pivot, where [openArrs[s]] and
    [closeArrs[s]] are the columns of symbol [s]. *)
Definition column (f : OC -> number) (M : matrix) (s : nat) : list number :=
  omap (λ day : list OC, f <$> day !! s) M.

(** The loop [this.min[this.symbols[i]] = {open: agg(...openArrs[i]),
    close: agg(...closeArrs[i])}], with [agg] one of [Math.min] and
    [Math.max]. *)
Definition stats (agg : list number -> number) (syms : list string)
    (M : matrix) : gmap string OC :=
  fromEntries (imap (λ i s, (s, {| open := agg (column open M i);
                                   close := agg (column close M i) |})) syms).

Definition normalize_cell (syms : list string) (mn mx : gmap string OC)
    (s : nat) (c : OC) : OC :=
  match syms !! s with
  | Some sym =>
      match mn !! sym, mx !! sym with
      | Some lo, Some hi =>
          {| open := _scale (open c) (open lo) (open hi);
             close := _scale (close c) (close lo) (close hi) |}
      | _, _ => c
      end
  | None => c
  end.

Definition normalize_matrix (syms : list string) (mn mx : gmap string OC)
    (M : matrix) : matrix :=
  map (imap (normalize_cell syms mn mx)) M.

Definition _normalize (this : t) : t :=
  let M := default [] (dataMatrix this) in
  let mn := stats Math_min (symbols this) M in
  let mx := stats Math_max (symbols this) M in
  {| symbols := symbols this; symbolIndex := symbolIndex this;
     dates := dates this;
     dataMatrix := Some (normalize_matrix (symbols this) mn mx M);
     min := mn; max := mx; ready := ready this |}.

(** The end of a call: it returned, or it threw the error [e]; [this'] is
    the loader object at that point. *)
Inductive outcome :=
| Done (this' : t)
| Failed (e : error) (this' : t).

Section LoadCSV.

Variable StringToNumber : string -> number.

(** The state after the pivot loop, before [_normalize]. *)
Definition pivoted (this : t) (ds syms : list string) (M : matrix) : t :=
  {| symbols := syms; symbolIndex := index_object syms; dates := ds;
     dataMatrix := Some M; min := min this; max := max this;
     ready := ready this |}.

Definition set_ready (this : t) : t :=
  {| symbols := symbols this; symbolIndex := symbolIndex this;
     dates := dates this; dataMatrix := dataMatrix this;
     min := min this; max := max this; ready := true |}.

(** [loadCSV(file)], from the text of the file. *)
Definition loadCSV (this : t) (csvText : string) : outcome :=
  let rows := map (split comma) (split newline (trim csvText)) in
  match rows with
  | [] => Failed (TypeError "headers is undefined") this
  | headers :: body =>
      if negb (forallb (includes headers) required)
      then Failed (Error missing_msg) this
      else
        let '(data, symbolSet, dateSet) :=
          parse_rows StringToNumber headers body in
        let syms := sort symbolSet in
        let ds := sort dateSet in
        match pivot ds syms (index_object syms) data with
        | (Throw e, M) => Failed e (pivoted this ds syms M)
        | (Ok _, M) => Done (set_ready (_normalize (pivoted this ds syms M)))
        end
  end.

End LoadCSV.

(** *** [buildDataset(windowLen, ahead, testSplit)] *)

Record Dataset := {
  X_train : list (list (list number));
  y_train : list (list number);
  X_test : list (list (list number));
  y_test : list (list number);
  symbolNames : list string
}.

(** [this.dataMatrix[w][s]]; an undefined row or cell is a [TypeError]
    at the property read that follows. *)
Definition cell (M : matrix) (w : Z) (s : nat) : result OC :=
  match at_Z M w with
  | None => Throw (TypeError "this.dataMatrix[w] is undefined")
  | Some day => of_option (day !! s) (TypeError "this.dataMatrix[w][s] is undefined")
  end.

Definition dayVec (M : matrix) (symbolN : nat) (w : Z) : result (list number) :=
  let! cells := mapM (cell M w) (seq 0 symbolN) in
  Ok (flat_map (λ c, [open c; close c]) cells).

Definition xSeq (M : matrix) (symbolN : nat) (windowLen d : Z)
    : result (list (list number)) :=
  mapM (dayVec M symbolN) (seqZ (d - windowLen) windowLen).

(** The label of one future day [t] of one symbol [s]. *)
Definition label_entry (closeF closeD : number) : number :=
  if gt closeF closeD then num_1 else num_0.

Definition label_of (M : matrix) (ahead d : Z) (s : nat) : result (list number) :=
  let! cD := cell M (d - 1) s in
  mapM (λ t, let! cF := cell M (d - 1 + t) s in
             Ok (label_entry (close cF) (close cD)))
       (seqZ 1 ahead).

Definition label (M : matrix) (symbolN : nat) (ahead d : Z) : result (list number) :=
  let! per_symbol := mapM (label_of M ahead d) (seq 0 symbolN) in
  Ok (concat per_symbol).

Definition sample (M : matrix) (symbolN : nat) (windowLen ahead d : Z)
    : result (list (list number) * list number) :=
  let! x := xSeq M symbolN windowLen d in
  let! y := label M symbolN ahead d in
  Ok (x, y).

(** The anchors of the sample loop,
    [for (d = windowLen; d < datesLen - ahead; d++)]. *)
Definition anchors (datesLen : nat) (windowLen ahead : Z) : list Z :=
  seqZ windowLen (Z.of_nat datesLen - ahead - windowLen).

(** The arrays [X] and [y] at the end of the sample loop. *)
Definition samples (this : t) (windowLen ahead : Z)
    : result (list (list (list number) * list number)) :=
  mapM (sample (default [] (dataMatrix this)) (length (symbols this))
               windowLen ahead)
       (anchors (length (dates this)) windowLen ahead).

Definition buildDataset (this : t) (windowLen ahead : Z) (testSplit : number)
    : result Dataset :=
  if negb (ready this) then Throw (Error "Data not loaded")
  else
    let! Xy := samples this windowLen ahead in
    let X := Xy.*1 in
    let y := Xy.*2 in
    let total := length X in
    let splitIdx :=
      floor_index (mul (of_Z (Z.of_nat total)) (sub num_1 testSplit)) in
    Ok {| X_train := slice X (Int 0) splitIdx;
          y_train := slice y (Int 0) splitIdx;
          X_test := slice_from X splitIdx;
          y_test := slice_from y splitIdx;
          symbolNames := symbols this |}.

(** The default arguments, [buildDataset()]. *)
Definition default_windowLen : Z := 12.
Definition default_ahead : Z := 3.
Definition default_testSplit : number :=
  Eval cbv in div (of_Z 2) (of_Z 10).

End DataLoader.

(** ** A number parser for the examples

    On a non-empty string of decimal digits below [2^53], [Number] and
    [parseFloat] both return the integer written; [digits_to_number]
    computes it, and is [NaN] on every other string. It instantiates the
    built-in conversions in the examples, whose cells are such strings. *)

Fixpoint digits_value (acc : Z) (s : string) : option Z :=
  match s with
  | EmptyString => Some acc
  | String c s' =>
      let n := Z.of_nat (nat_of_ascii c) in
      if (48 <=? n) && (n <=? 57) then digits_value (10 * acc + (n - 48)) s'
      else None
  end.

Definition digits_to_number (s : string) : number :=
  match s with
  | EmptyString => NaN
  | _ => match digits_value 0 s with
         | Some z => of_Z z
         | None => NaN
         end
  end.

(** ** Objects created by [{}]

    An object literal [{}] has the prototype [Object.prototype]. A read
    [o[k]] gives the own property [k] when there is one, and otherwise
    what the prototype chain has under [k]. An assignment [o[k] = v]
    creates or overwrites the own property [k], except for the key
    [__proto__], an accessor of [Object.prototype]: assigning an object
    to it replaces the prototype of [o] and creates no property, and
    assigning a number, a string or [undefined] does nothing; reading it
    gives the prototype. *)

Module Obj.

(** The data properties that every object inherits from
    [Object.prototype]; each holds a function. *)
Definition prototype_names : list string :=
  ["constructor"; "hasOwnProperty"; "isPrototypeOf"; "propertyIsEnumerable";
   "toLocaleString"; "toString"; "valueOf"; "__defineGetter__";
   "__defineSetter__"; "__lookupGetter__"; "__lookupSetter__"].

(** What a read [o[k]] gives, for an object whose assigned values have
    the type [V]. *)
Inductive got (V : Type) : Type :=
  | Stored (v : V)
      (** a value that the program has assigned *)
  | Inherited_number (n : number)
      (** a number: a property of the object that replaced the
          prototype *)
  | Builtin
      (** a function of [Object.prototype], or [Object.prototype]
          itself: an object without any of the properties that the
          program reads *)
  | Undefined.
Arguments Stored {V} v.
Arguments Inherited_number {V} n.
Arguments Builtin {V}.
Arguments Undefined {V}.

(** [Boolean(x)] for the result of a read; an object is truthy. *)
Definition truthy_got {V} (g : got V) : bool :=
  match g with
  | Stored _ => true
  | Inherited_number n => truthy n
  | Builtin => true
  | Undefined => false
  end.

(** The assigned value, when the read gave one. *)
Definition stored {V} (g : got V) : option V :=
  match g with
  | Stored v => Some v
  | _ => None
  end.

(** [x.f] as an operand of an arithmetic operation, for a property [f]
    of the assigned objects: a number, a function and [Object.prototype]
    have no such property, and [undefined] converts to [NaN]. *)
Definition operand {V} (f : V -> number) (g : got V) : number :=
  match g with
  | Stored v => f v
  | _ => NaN
  end.

(** The own properties of an assigned object, which are numbers:
    [{Open, Close}] and the like. *)
Class Members (V : Type) := members : V -> list (string * number).

Fixpoint member {A} (l : list (string * A)) (k : string) : option A :=
  match l with
  | [] => None
  | (k', a) :: l' => if decide (k' = k) then Some a else member l' k
  end.

(** An object to which the program assigns objects of type [V]: its own
    properties, and the object that an assignment to [__proto__] has put
    in the place of [Object.prototype], if any. *)
Record object (V : Type) := Object {
  own : gmap string V;
  proto : option V
}.
Arguments Object {V} own proto.
Arguments own {V} o.
Arguments proto {V} o.

(** [{}] *)
Definition empty {V} : object V := {| own := ∅; proto := None |}.

(** [o[k] = v], for an object [v]. *)
Definition set {V} (o : object V) (k : string) (v : V) : object V :=
  if decide (k = "__proto__") then {| own := own o; proto := Some v |}
  else {| own := <[k := v]> (own o); proto := proto o |}.

(** The object that the program has assigned to [o[k]], which a read
    [o[k]] gives back, also for [k = __proto__]. *)
Definition assigned {V} (o : object V) (k : string) : option V :=
  if decide (k = "__proto__") then proto o else own o !! k.

(** [o[k]] *)
Definition get {V} `{Members V} (o : object V) (k : string) : got V :=
  match assigned o k with
  | Some v => Stored v
  | None =>
      if decide (k = "__proto__") then Builtin
      else match proto o ≫= λ p, member (members p) k with
           | Some n => Inherited_number n
           | None => if bool_decide (k ∈ prototype_names) then Builtin
                     else Undefined
           end
  end.

(** An object to which the program assigns only numbers, strings and
    [undefined] keeps the prototype [Object.prototype]; it is the [gmap]
    of its own properties. [o[k] = v]: *)
Definition set_primitive {V} (o : gmap string V) (k : string) (v : V)
    : gmap string V :=
  if decide (k = "__proto__") then o else <[k := v]> o.

(** [o[k]] for such an object. *)
Definition get_primitive {V} (o : gmap string V) (k : string) : got V :=
  if decide (k = "__proto__") then Builtin
  else match o !! k with
       | Some v => Stored v
       | None => if bool_decide (k ∈ prototype_names) then Builtin
                 else Undefined
       end.

End Obj.

(** ** The tensor constructors of TensorFlow.js

    [tf.tensor3d(values)] and [tf.tensor2d(values)], called without a
    shape, infer the shape from the first elements of the nested array
    and throw an [Error] when the array is empty or not deep enough. *)

Module tf.

Definition tensor3d {A} (values : list (list (list A)))
    : result (list (list (list A))) :=
  match values with
  | [] =>
      Throw (Error "tensor3d() requires shape to be provided when `values` are a flat array")
  | [] :: _ =>
      Throw (Error "tensor3d() requires values to be number[][][] or flat/TypedArray")
  | _ => Ok values
  end.

Definition tensor2d {A} (values : list (list A)) : result (list (list A)) :=
  match values with
  | [] =>
      Throw (Error "tensor2d() requires shape to be provided when `values` are a flat array")
  | _ => Ok values
  end.

End tf.

(** ** [StockDataLoader] (src/unnamed/part_000) *)

Module StockDataLoader.

(** The members of a record that the program reads: [d.Date],
    [d.Symbol], [record.Open] and [record.Close]. *)
Module Column.

Inductive t := Date | Symbol | Open | Close.

Definition name (c : t) : string :=
  match c with
  | Date => "Date"
  | Symbol => "Symbol"
  | Open => "Open"
  | Close => "Close"
  end.

End Column.

(** A record of [rawData]: the object filled by [entry[header] = values[idx]];
    a value may be [undefined]. *)
Abbreviation entry := (gmap string (option string)).

(** [d.Date], [d.Symbol], [record.Open], [record.Close]: the own
    property, and [undefined] without one, since [Object.prototype] has
    no member of these names. *)
Definition prop (d : entry) (c : Column.t) : option string :=
  d !! Column.name c ≫= id.

(** The property key of a date or of a symbol: [undefined] becomes the
    string ["undefined"]. *)
Definition key (v : option string) : string := default "undefined" v.

(** [{Open, Close}] *)
Record OC := { Open : number; Close : number }.

Record Stats := {
  openMin : number; openMax : number;
  closeMin : number; closeMax : number
}.

#[global] Instance OC_members : Obj.Members OC :=
  λ c, [("Open", Open c); ("Close", Close c)].

#[global] Instance Stats_members : Obj.Members Stats :=
  λ s, [("openMin", openMin s); ("openMax", openMax s);
        ("closeMin", closeMin s); ("closeMax", closeMax s)].

(** [pivoted[date]] and [this.normalizedData[date]]: symbol to cell. *)
Abbreviation row := (Obj.object OC).

(** [pivoted] and [this.normalizedData]: date to row. *)
Abbreviation table := (Obj.object row).

(** [tbl[date]?.[symbol]]. The program reads [tbl[date]] at the dates of
    [this.dates] only, after its loop has assigned a row to each of
    them; a date without an assigned row reads as [undefined]. *)
Definition at2 (tbl : table) (date symbol : option string) : Obj.got OC :=
  match Obj.assigned tbl (key date) with
  | Some r => Obj.get r (key symbol)
  | None => Obj.Undefined
  end.

(** An element of a feature vector: a number, or [undefined]. *)
Abbreviation feature := (option number).

(** The fields of the loader. [X] and [y] hold the arrays [sequences] and
    [targets] that [tf.tensor3d] and [tf.tensor2d] have accepted, the
    four parts hold the samples that the slices of [splitData] select;
    [None] is [null] or [undefined]. *)
Record t := {
  rawData : list entry;
  normalizedData : table;
  symbols : list (option string);
  dates : list (option string);
  X : option (list (list (list feature)));
  y : option (list (list number));
  X_train : option (list (list (list feature)));
  y_train : option (list (list number));
  X_test : option (list (list (list feature)));
  y_test : option (list (list number))
}.

Definition constructor : t :=
  {| rawData := []; normalizedData := Obj.empty; symbols := []; dates := [];
     X := None; y := None;
     X_train := None; y_train := None; X_test := None; y_test := None |}.

(** How a call leaves the loader: it returns, or it throws. *)
Inductive outcome :=
  | Done (this : t)
  | Failed (e : error) (this : t).

Definition trainTestSplit : number := Eval cbv in div (of_Z 8) (of_Z 10).

Definition sequenceLength : nat := 12.
Definition predictionHorizon : nat := 3.

Definition make_entry (headers : list string) (values : list string) : entry :=
  fold_left (λ (e : entry) (p : nat * string),
               Obj.set_primitive e p.2 (values !! p.1))
            (imap (λ i h, (i, h)) headers) ∅.

(** The records of [parseCSV], before [prepareData] is called. *)
Definition parse_records (csvText : string) : list entry :=
  let lines := split newline (trim csvText) in
  let headers := map trim (split comma (default "" (head lines))) in
  map (λ line, make_entry headers (map trim (split comma line))) (tail lines).

Section WithParseFloat.

(** [parseFloat(s)] on a string is the built-in; [parseFloat(undefined)]
    is [NaN]. *)
Variable parseFloat_str : string -> number.

Definition parseFloat (v : option string) : number :=
  match v with
  | Some s => parseFloat_str s
  | None => NaN
  end.

(** [this.rawData.find(d => d.Date === date && d.Symbol === symbol)] *)
Definition find_record (raw : list entry) (date symbol : option string)
    : option entry :=
  snd <$> list_find (λ d, prop d Column.Date = date
                          ∧ prop d Column.Symbol = symbol) raw.

Definition pivot_symbol (raw : list entry) (date : option string)
    (r : row) (symbol : option string) : row :=
  match find_record raw date symbol with
  | Some record =>
      Obj.set r (key symbol)
        {| Open := parseFloat (prop record Column.Open);
           Close := parseFloat (prop record Column.Close) |}
  | None => r
  end.

(** [pivoted[date] = {}], and the loop over the symbols that fills the
    row [pivoted[date]]. *)
Definition pivot_date (raw : list entry) (syms : list (option string))
    (pivoted : table) (date : option string) : table :=
  Obj.set pivoted (key date) (fold_left (pivot_symbol raw date) syms Obj.empty).

(** The object [pivoted] of [prepareData]. *)
Definition pivot (raw : list entry) (syms ds : list (option string)) : table :=
  fold_left (pivot_date raw syms) ds Obj.empty.

End WithParseFloat.

(** [dates.map(d => pivoted[d]?.[symbol]?.F).filter(Boolean)] *)
Definition observed (f : OC -> number) (pivoted : table)
    (ds : list (option string)) (symbol : option string) : list number :=
  omap (λ d, Obj.stored (at2 pivoted d symbol) ≫= λ c,
             if truthy (f c) then Some (f c) else None) ds.

Definition stats_symbol (pivoted : table) (ds : list (option string))
    (stockStats : Obj.object Stats) (symbol : option string)
    : Obj.object Stats :=
  let opens := observed Open pivoted ds symbol in
  let closes := observed Close pivoted ds symbol in
  if bool_decide (0 < length opens)%nat && bool_decide (0 < length closes)%nat
  then Obj.set stockStats (key symbol)
         {| openMin := Math_min opens; openMax := Math_max opens;
            closeMin := Math_min closes; closeMax := Math_max closes |}
  else stockStats.

Definition stockStats_of (pivoted : table) (syms ds : list (option string))
    : Obj.object Stats :=
  fold_left (stats_symbol pivoted ds) syms Obj.empty.

(** The cell [{Open: (data.Open - stats.openMin) / (stats.openMax -
    stats.openMin), Close: ...}]. *)
Definition normalized_cell (data : Obj.got OC) (stats : Obj.got Stats) : OC :=
  {| Open := div (sub (Obj.operand Open data) (Obj.operand openMin stats))
                 (sub (Obj.operand openMax stats) (Obj.operand openMin stats));
     Close := div (sub (Obj.operand Close data) (Obj.operand closeMin stats))
                  (sub (Obj.operand closeMax stats)
                       (Obj.operand closeMin stats)) |}.

(** [const data = pivoted[date]?.[symbol];
     if (data && stockStats[symbol]) { ... }] *)
Definition normalize_symbol (pivoted : table) (stockStats : Obj.object Stats)
    (date : option string) (r : row) (symbol : option string) : row :=
  let data := at2 pivoted date symbol in
  let stats := Obj.get stockStats (key symbol) in
  if Obj.truthy_got data && Obj.truthy_got stats
  then Obj.set r (key symbol) (normalized_cell data stats)
  else r.

Definition normalize_date (pivoted : table) (stockStats : Obj.object Stats)
    (syms : list (option string)) (nd : table) (date : option string) : table :=
  Obj.set nd (key date)
    (fold_left (normalize_symbol pivoted stockStats date) syms Obj.empty).

(** [normalizeData(pivoted)]: the new value of [this.normalizedData]. *)
Definition normalizeData (pivoted : table) (syms ds : list (option string))
    : table :=
  fold_left (normalize_date pivoted (stockStats_of pivoted syms ds) syms) ds
            Obj.empty.

(** [this.dates[n]]: an index out of range and an [undefined] date read
    the same. *)
Definition date_at (ds : list (option string)) (n : nat) : option string :=
  ds !! n ≫= id.

(** [if (stockData) featureVector.push(stockData.Open, stockData.Close)
     else featureVector.push(0, 0)] *)
Definition features (stockData : Obj.got OC) : list feature :=
  match stockData with
  | Obj.Stored c => [Some (Open c); Some (Close c)]
  | _ => if Obj.truthy_got stockData then [None; None]
         else [Some num_0; Some num_0]
  end.

Definition featureVector (nd : table) (syms : list (option string))
    (date : option string) : list feature :=
  flat_map (λ symbol, features (at2 nd date symbol)) syms.

Definition sequence (nd : table) (syms ds : list (option string)) (i : nat)
    : list (list feature) :=
  map (λ j, featureVector nd syms (date_at ds (i + j))) (seq 0 sequenceLength).

(** [normalizedData[currentDate]?.[symbol]?.Close || 0] *)
Definition close_or_0 (nd : table) (date symbol : option string) : number :=
  match at2 nd date symbol with
  | Obj.Stored c => if truthy (Close c) then Close c else num_0
  | _ => num_0
  end.

Definition currentClosePrices (nd : table) (syms : list (option string))
    (currentDate : option string) : gmap string number :=
  fold_left (λ (m : gmap string number) symbol,
               Obj.set_primitive m (key symbol)
                 (close_or_0 nd currentDate symbol)) syms ∅.

(** One entry of [target], for the date [futureDate] and one symbol:
    [futureClose] is [undefined] unless the read gives a cell, and a
    [currentClose] that is an object compares as [NaN]. *)
Definition target_entry (nd : table) (current : gmap string number)
    (futureDate symbol : option string) : number :=
  match at2 nd futureDate symbol with
  | Obj.Stored c =>
      match Obj.get_primitive current (key symbol) with
      | Obj.Stored currentClose | Obj.Inherited_number currentClose =>
          if gt (Close c) currentClose then num_1 else num_0
      | Obj.Builtin => num_0
      | Obj.Undefined => num_0
      end
  | _ => num_0
  end.

Definition target (nd : table) (syms ds : list (option string)) (i : nat)
    : list number :=
  let currentDate := date_at ds (i + sequenceLength - 1) in
  let current := currentClosePrices nd syms currentDate in
  flat_map (λ offset,
              let futureDate := date_at ds (i + sequenceLength - 1 + offset) in
              map (target_entry nd current futureDate) syms)
           (seq 1 predictionHorizon).

(** The loop bound of [createSequences],
    [i < this.dates.length - sequenceLength - predictionHorizon]. *)
Definition starts (ds : list (option string)) : list nat :=
  seq 0 (length ds - sequenceLength - predictionHorizon).

Definition sequences (nd : table) (syms ds : list (option string))
    : list (list (list feature)) :=
  map (sequence nd syms ds) (starts ds).

Definition targets (nd : table) (syms ds : list (option string))
    : list (list number) :=
  map (target nd syms ds) (starts ds).

(** [Math.floor(this.X.shape[0] * this.trainTestSplit)] *)
Definition splitIndex (n : nat) : nat :=
  match floor_index (mul (of_Z (Z.of_nat n)) trainTestSplit) with
  | Int z => Z.to_nat z
  | _ => 0%nat
  end.

(** [splitData()]: the slices of [tf] take [splitIndex] samples and the
    rest. Reading a property of a tensor that is [null] throws a
    [TypeError]; the two parts of [X] are assigned before [this.y] is
    read. *)
Definition splitData (this : t) : outcome :=
  match X this with
  | None => Failed (TypeError "Cannot read properties of null") this
  | Some Xs =>
      let k := splitIndex (length Xs) in
      match y this with
      | None =>
          Failed (TypeError "Cannot read properties of null")
            {| rawData := rawData this; normalizedData := normalizedData this;
               symbols := symbols this; dates := dates this;
               X := X this; y := y this;
               X_train := Some (take k Xs); y_train := y_train this;
               X_test := Some (drop k Xs); y_test := y_test this |}
      | Some ys =>
          Done {| rawData := rawData this;
                  normalizedData := normalizedData this;
                  symbols := symbols this; dates := dates this;
                  X := X this; y := y this;
                  X_train := Some (take k Xs); y_train := Some (take k ys);
                  X_test := Some (drop k Xs); y_test := Some (drop k ys) |}
      end
  end.

Definition set_X (this : t) (v : list (list (list feature))) : t :=
  {| rawData := rawData this; normalizedData := normalizedData this;
     symbols := symbols this; dates := dates this;
     X := Some v; y := y this;
     X_train := X_train this; y_train := y_train this;
     X_test := X_test this; y_test := y_test this |}.

Definition set_y (this : t) (v : list (list number)) : t :=
  {| rawData := rawData this; normalizedData := normalizedData this;
     symbols := symbols this; dates := dates this;
     X := X this; y := Some v;
     X_train := X_train this; y_train := y_train this;
     X_test := X_test this; y_test := y_test this |}.

(** [createSequences()]: the two arrays, the two tensors, [splitData]. *)
Definition createSequences (this : t) : outcome :=
  let Xs := sequences (normalizedData this) (symbols this) (dates this) in
  let ys := targets (normalizedData this) (symbols this) (dates this) in
  match tf.tensor3d Xs with
  | Throw e => Failed e this
  | Ok tX =>
      match tf.tensor2d ys with
      | Throw e => Failed e (set_X this tX)
      | Ok ty => splitData (set_y (set_X this tX) ty)
      end
  end.

Section Pipeline.

Variable parseFloat_str : string -> number.

(** [prepareData()], which calls [normalizeData] and [createSequences]. *)
Definition prepareData (this : t) : outcome :=
  let raw := rawData this in
  let syms := sort_opt (set_of (map (λ d, prop d Column.Symbol) raw)) in
  let ds := sort_opt (set_of (map (λ d, prop d Column.Date) raw)) in
  let pivoted := pivot parseFloat_str raw syms ds in
  createSequences
    {| rawData := raw; normalizedData := normalizeData pivoted syms ds;
       symbols := syms; dates := ds;
       X := X this; y := y this;
       X_train := X_train this; y_train := y_train this;
       X_test := X_test this; y_test := y_test this |}.

(** [parseCSV(csvText)] *)
Definition parseCSV (this : t) (csvText : string) : outcome :=
  prepareData
    {| rawData := parse_records csvText;
       normalizedData := normalizedData this;
       symbols := symbols this; dates := dates this;
       X := X this; y := y this;
       X_train := X_train this; y_train := y_train this;
       X_test := X_test this; y_test := y_test this |}.

End Pipeline.

End StockDataLoader.

(** ** The readers of the label tensor *)

(** [GRUStockPredictor.calculateStockAccuracies] (src/unnamed/part_003),
    the reader of the labels of [StockDataLoader]. *)
Module GRUStockPredictor.

Definition daysAhead : nat := 3.

(** [const predIdx = stockIdx + (day * stocksCount)] *)
Definition predIdx (stockIdx day stocksCount : nat) : nat :=
  stockIdx + day * stocksCount.

(** [predArray[sampleIdx][predIdx] > 0.5 ? 1 : 0]; an undefined entry
    compares false. *)
Definition prediction (predRow : list number) (idx : nat) : number :=
  match predRow !! idx with
  | Some p => if gt p num_half then num_1 else num_0
  | None => num_0
  end.

(** [prediction === trueVal] *)
Definition is_correct (predRow trueRow : list number) (idx : nat) : bool :=
  match trueRow !! idx with
  | Some trueVal => strict_eq (prediction predRow idx) trueVal
  | None => false
  end.

(** The counters [correct] and [total] of one stock after the two loops. *)
Definition count_sample (stocksCount stockIdx : nat)
    (predRow trueRow : list number) (acc : nat * nat) : nat * nat :=
  fold_left (λ (a : nat * nat) day,
               ((if is_correct predRow trueRow (predIdx stockIdx day stocksCount)
                 then S a.1 else a.1), S a.2))
            (seq 0 daysAhead) acc.

Definition count_stock (predArray trueArray : list (list number))
    (stocksCount stockIdx : nat) : result (nat * nat) :=
  foldM (λ acc (p : nat * list number),
           match trueArray !! p.1 with
           | None => Throw (TypeError "trueArray[sampleIdx] is undefined")
           | Some trueRow => Ok (count_sample stocksCount stockIdx p.2 trueRow acc)
           end)
        (imap (λ i r, (i, r)) predArray) (0%nat, 0%nat).

Definition accuracy (c : nat * nat) : number :=
  if (0 <? c.2)%nat then div (of_Z (Z.of_nat c.1)) (of_Z (Z.of_nat c.2))
  else num_0.

Definition calculateStockAccuracies (predArray trueArray : list (list number))
    (symbols : list (option string)) : result (gmap string number) :=
  foldM (λ (accuracies : gmap string number) (p : nat * option string),
           let! c := count_stock predArray trueArray (length symbols) p.1 in
           Ok (Obj.set_primitive accuracies (StockDataLoader.key p.2)
                 (accuracy c)))
        (imap (λ i s, (i, s)) symbols) ∅.

End GRUStockPredictor.

(** [GRUModel.accuracyByStock] (src/unnamed/part_002, gru.js), the reader
    of the labels of [DataLoader]. *)
Module GRUModel.

Definition nSteps : nat := 3.

(** [const idx = s*nSteps + t] *)
Definition idx (s t : nat) : nat := s * nSteps + t.

(** [y_pred[i][idx] >= 0.5 ? 1 : 0] *)
Definition pr (predRow : list number) (k : nat) : number :=
  match predRow !! k with
  | Some p => if ge p num_half then num_1 else num_0
  | None => num_0
  end.

(** [gt === pr] *)
Definition is_correct (predRow trueRow : list number) (k : nat) : bool :=
  match trueRow !! k with
  | Some g => strict_eq g (pr predRow k)
  | None => false
  end.

Definition count_sample (s : nat) (predRow trueRow : list number)
    (acc : nat * nat) : nat * nat :=
  fold_left (λ (a : nat * nat) t,
               ((if is_correct predRow trueRow (idx s t) then S a.1 else a.1),
                S a.2))
            (seq 0 nSteps) acc.

Definition count_stock (y_pred y_true : list (list number)) (s : nat)
    : result (nat * nat) :=
  foldM (λ acc (p : nat * list number),
           match y_true !! p.1 with
           | None => Throw (TypeError "y_true[i] is undefined")
           | Some trueRow => Ok (count_sample s p.2 trueRow acc)
           end)
        (imap (λ i r, (i, r)) y_pred) (0%nat, 0%nat).

(** [{symbol, acc}] *)
Record StockAcc := { symbol : string; acc : number }.

(** [byStock] before it is sorted; [acc] is [correct/total]. *)
Definition byStock (y_pred y_true : list (list number))
    (symbolNames : list string) : result (list StockAcc) :=
  mapM (λ p : nat * string,
          let! c := count_stock y_pred y_true p.1 in
          Ok {| symbol := p.2;
                acc := div (of_Z (Z.of_nat c.1)) (of_Z (Z.of_nat c.2)) |})
       (imap (λ i s, (i, s)) symbolNames).

(** [byStock.sort((a,b) => b.acc - a.acc)], a stable sort; a [NaN]
    difference counts as [0]. *)
Fixpoint insert_acc (x : StockAcc) (l : list StockAcc) : list StockAcc :=
  match l with
  | [] => [x]
  | z :: l' => if gt (sub (acc z) (acc x)) num_0 then z :: insert_acc x l'
               else x :: l
  end.

Definition accuracyByStock (y_pred y_true : list (list number))
    (symbolNames : list string) : result (list StockAcc) :=
  let! l := byStock y_pred y_true symbolNames in
  Ok (foldr insert_acc [] l).

End GRUModel.


(** ** Notions used to state the properties *)

(** A matrix with [n] rows of [m] cells. *)
Definition shaped {A} (n m : nat) (M : list (list A)) : Prop :=
  length M = n /\ Forall (λ day, length day = m) M.

(** [M[dIdx][sIdx]] *)
Definition cell_at {A} (M : list (list A)) (dIdx sIdx : nat) : option A :=
  M !! dIdx ≫= λ day, day !! sIdx.

(** The cell written for a record. *)
Definition cell_of (r : DataLoader.Row) : DataLoader.OC :=
  {| DataLoader.open := DataLoader.row_open r;
     DataLoader.close := DataLoader.row_close r |}.

Definition is_record (d s : string) (r : DataLoader.Row) : bool :=
  bool_decide (DataLoader.date r = d /\ DataLoader.symbol r = s).

(** The last record of [data], in input order, for the date [d] and the
    symbol [s]. *)
Fixpoint last_record (d s : string) (data : list DataLoader.Row)
    : option DataLoader.Row :=
  match data with
  | [] => None
  | r :: rest =>
      match last_record d s rest with
      | Some r' => Some r'
      | None => if is_record d s r then Some r else None
      end
  end.

(** The state in which a call left the loader. *)
Definition state_of (o : DataLoader.outcome) : DataLoader.t :=
  match o with
  | DataLoader.Done this' => this'
  | DataLoader.Failed _ this' => this'
  end.

(** The two axes computed from the records. *)
Definition date_axis (data : list DataLoader.Row) : list string :=
  sort (set_of (map DataLoader.date data)).

Definition symbol_axis (data : list DataLoader.Row) : list string :=
  sort (set_of (map DataLoader.symbol data)).

(** The array [data] that [loadCSV] fills from the text of the file. *)
Definition records (StringToNumber : string -> number) (csvText : string)
    : list DataLoader.Row :=
  match map (split comma) (split newline (trim csvText)) with
  | headers :: body => (DataLoader.parse_rows StringToNumber headers body).1.1
  | [] => []
  end.

(** The header row read by [loadCSV]. *)
Definition header_row (csvText : string) : list string :=
  split comma (default "" (head (split newline (trim csvText)))).

(** The value left under [key] by a loop of conditional assignments
    [o[k x] = v] over the elements [x] of [l] for which [step x] is
    [Some v]: the last assignment to that key. *)
Fixpoint last_write {A V} (k : A -> string) (step : A -> option V)
    (l : list A) (key : string) : option V :=
  match l with
  | [] => None
  | x :: l' =>
      match last_write k step l' key with
      | Some v => Some v
      | None => if decide (k x = key) then step x else None
      end
  end.

(** The cell that [prepareData] writes for a record found by [find]. *)
Definition found_cell (parseFloat_str : string -> number)
    (record : StockDataLoader.entry) : StockDataLoader.OC :=
  {| StockDataLoader.Open :=
       StockDataLoader.parseFloat parseFloat_str
         (StockDataLoader.prop record StockDataLoader.Column.Open);
     StockDataLoader.Close :=
       StockDataLoader.parseFloat parseFloat_str
         (StockDataLoader.prop record StockDataLoader.Column.Close) |}.

(** The state in which a call left the [StockDataLoader]. *)
Definition loader_of (o : StockDataLoader.outcome) : StockDataLoader.t :=
  match o with
  | StockDataLoader.Done this' => this'
  | StockDataLoader.Failed _ this' => this'
  end.

(** No other element of the axis [l] has the property key of [x]: a
    missing field and the text ["undefined"] are the only two values
    with the same key. *)
Definition own_key (l : list (option string)) (x : option string) : Prop :=
  forall z, z ∈ l -> StockDataLoader.key z = StockDataLoader.key x -> z = x.

(** The names under which an object of [StockDataLoader] can inherit a
    value: the members of [Object.prototype], and the properties of the
    cells and of the statistics, which an assignment to [__proto__] puts
    into the prototype chain. *)
Definition inherited_names : list string :=
  "__proto__" :: Obj.prototype_names
    ++ ["Open"; "Close"; "openMin"; "openMax"; "closeMin"; "closeMax"].

(** A name under which nothing is inherited. *)
Definition ordinary (k : string) : Prop := k ∉ inherited_names.

(** What the loop of [normalizeData] assigns to [stockStats[symbol]], if
    anything. *)
Definition stats_step (pivoted : StockDataLoader.table)
    (ds : list (option string)) (symbol : option string)
    : option StockDataLoader.Stats :=
  let opens := StockDataLoader.observed StockDataLoader.Open pivoted ds symbol in
  let closes :=
    StockDataLoader.observed StockDataLoader.Close pivoted ds symbol in
  if bool_decide (0 < length opens)%nat && bool_decide (0 < length closes)%nat
  then Some {| StockDataLoader.openMin := Math_min opens;
               StockDataLoader.openMax := Math_max opens;
               StockDataLoader.closeMin := Math_min closes;
               StockDataLoader.closeMax := Math_max closes |}
  else None.

(** What the loop of [normalizeData] assigns to
    [this.normalizedData[date][symbol]], if anything. *)
Definition normalize_step (pivoted : StockDataLoader.table)
    (stockStats : Obj.object StockDataLoader.Stats)
    (date symbol : option string) : option StockDataLoader.OC :=
  let data := StockDataLoader.at2 pivoted date symbol in
  let stats := Obj.get stockStats (StockDataLoader.key symbol) in
  if Obj.truthy_got data && Obj.truthy_got stats
  then Some (StockDataLoader.normalized_cell data stats) else None.

(** ** Inputs of the examples *)

Module Inputs.

Definition csv_of (lines : list string) : string :=
  String.concat (String newline "") lines.

Definition two_digits (n : nat) : string :=
  String (ascii_of_nat (48 + n / 10))
         (String (ascii_of_nat (48 + n mod 10)) "").

Definition header : string := "Date,Symbol,Open,Close".

(** The two lines of the day [i]: symbols [A] and [B], dates [d01],
    [d02], ... *)
Definition line_A (i : nat) : string :=
  "d" +:+ two_digits i +:+ ",A," +:+ two_digits (10 + i) +:+ ","
      +:+ two_digits (20 + (i * 7) mod 11).

Definition line_B (i : nat) : string :=
  "d" +:+ two_digits i +:+ ",B," +:+ two_digits (30 + i) +:+ ","
      +:+ two_digits (40 + (i * 5) mod 13).

(** Two symbols on [n] consecutive trading days. *)
Definition csv_days (n : nat) : string :=
  csv_of (header :: flat_map (λ i, [line_A i; line_B i]) (seq 1 n)).

Definition csv20 : string := csv_days 20.
Definition csv10 : string := csv_days 10.

(** As [csv20], without the line of [B] on the day [d12]. *)
Definition csv20_gap : string :=
  csv_of (header :: flat_map (λ i, if (i =? 12)%nat then [line_A i]
                                   else [line_A i; line_B i]) (seq 1 20)).

(** As [csv20], with the close of [B] constant. *)
Definition csv20_flat : string :=
  csv_of (header :: flat_map (λ i, [line_A i;
                                    "d" +:+ two_digits i +:+ ",B,"
                                        +:+ two_digits (30 + i) +:+ ",45"])
                             (seq 1 20)).

(** [B] has no record on [d2]. *)
Definition csv_gap : string :=
  csv_of [header; "d1,A,10,15"; "d1,B,5,7"; "d2,A,20,10"; "d3,A,30,20";
          "d3,B,6,9"].

(** A close of [0] among the observations of [A]. *)
Definition csv_zero : string :=
  csv_of [header; "d1,A,10,0"; "d2,A,11,5"; "d3,A,12,7"].

(** The close of [A] is constant. *)
Definition csv_const : string :=
  csv_of [header; "d1,A,10,5"; "d2,A,11,5"; "d3,A,12,5"].

(** No [Close] column. *)
Definition csv_noclose : string :=
  csv_of ["Date,Symbol,Open"; "d1,A,10"; "d2,A,11"].

(** Two records for the date [d1] and the symbol [A]. *)
Definition csv_dup : string :=
  csv_of [header; "d1,A,10,20"; "d2,A,11,21"; "d1,A,30,40"].

End Inputs.

(** The dataset returned by a call of [buildDataset]; the empty dataset
    when the call threw. *)
Definition dataset_of (r : result DataLoader.Dataset) : DataLoader.Dataset :=
  match r with
  | Ok ds => ds
  | Throw _ =>
      {| DataLoader.X_train := []; DataLoader.y_train := [];
         DataLoader.X_test := []; DataLoader.y_test := [];
         DataLoader.symbolNames := [] |}
  end.

(** The state of [DataLoader] after loading a text with the parser of the
    examples, from a fresh object. *)
Definition loaded (csvText : string) : DataLoader.t :=
  state_of (DataLoader.loadCSV digits_to_number DataLoader.constructor csvText).

(** The state of [StockDataLoader] after parsing a text with the parser
    of the examples, from a fresh object. *)
Definition parsed (csvText : string) : StockDataLoader.t :=
  loader_of (StockDataLoader.parseCSV digits_to_number
               StockDataLoader.constructor csvText).

(** A feature sequence of [rows] vectors of [cols] elements. *)
Definition seq_shape {A} (rows cols : nat) (x : list (list A)) : Prop :=
  length x = rows /\ Forall (λ v, length v = cols) x.

(** The array of samples built by a call of the sample loop; empty when
    the loop threw. *)
Definition samples_of {A} (r : result (list A)) : list A :=
  match r with
  | Ok l => l
  | Throw _ => []
  end.

(** ** Notions used by the further properties *)

(** [l] is ascending for the strict order [lt]: an element at a smaller
    index is below every element at a larger index. *)
Definition ascending {A} (lt : A -> A -> bool) (l : list A) : Prop :=
  forall (i j : nat) a b,
    (i < j)%nat -> l !! i = Some a -> l !! j = Some b -> lt a b = true.

(** The strict order of the default [sort()] on strings and [undefined]:
    strings by code units, [undefined] after every string. *)
Definition sort_lt (x y : option string) : bool :=
  match x, y with
  | Some a, Some b => String.ltb a b
  | Some _, None => true
  | None, _ => false
  end.

(** The loader that a successful [loadCSV] leaves, as a function of the
    text alone. *)
Definition loaded_state (StringToNumber : string -> number)
    (csvText : string) : DataLoader.t :=
  let data := records StringToNumber csvText in
  let ds := date_axis data in
  let syms := symbol_axis data in
  DataLoader.set_ready
    (DataLoader._normalize
       (DataLoader.pivoted DataLoader.constructor ds syms
          (DataLoader.pivot ds syms (DataLoader.index_object syms) data).2)).

(** The loader after a file without any kept row. *)
Definition empty_loader : DataLoader.t :=
  {| DataLoader.symbols := []; DataLoader.symbolIndex := ∅;
     DataLoader.dates := []; DataLoader.dataMatrix := Some [];
     DataLoader.min := ∅; DataLoader.max := ∅; DataLoader.ready := true |}.

Definition empty_dataset (names : list string) : DataLoader.Dataset :=
  {| DataLoader.X_train := []; DataLoader.y_train := [];
     DataLoader.X_test := []; DataLoader.y_test := [];
     DataLoader.symbolNames := names |}.

(** A label entry is one of the numbers 0 and 1. *)
Definition binary (v : number) : Prop := v = num_0 \/ v = num_1.

(** The split index of the two loaders for [n] samples, next to the
    integer [4n/5]. *)
Definition split_ok (n : Z) : bool :=
  match floor_index (mul (of_Z n) (sub num_1 DataLoader.default_testSplit)),
        floor_index (mul (of_Z n) StockDataLoader.trainTestSplit) with
  | Int z, Int z' => (z =? 4 * n / 5) && (z' =? 4 * n / 5)
  | _, _ => false
  end.

Module MoreInputs.

(** A complete header, and two rows that are not kept. *)
Definition csv_no_record : string :=
  Inputs.csv_of [Inputs.header; ",A,10,11"; "d1,,3,4"].

(** The header [Open] occurs twice, and the second line is short. *)
Definition csv_dup_header : string :=
  Inputs.csv_of ["Date,Symbol,Open,Close,Open"; "d1,A,10,11,12"; "d2,A"].

(** Every close of [B] is 0. *)
Definition csv_zero_close : string :=
  Inputs.csv_of [Inputs.header; "d1,A,10,15"; "d1,B,5,0"; "d2,A,20,10";
                 "d2,B,6,0"].

(** One test sample of two symbols: the three predictions of [A] are
    wrong, those of [B] are right. *)
Definition y_true_1 : list (list number) :=
  [[num_1; num_0; num_1; num_0; num_0; num_0]].
Definition y_pred_1 : list (list number) :=
  [[num_0; num_half; num_0; num_0; num_0; num_0]].

End MoreInputs.

(** A list of [{symbol, acc}] is in the order of the comparator
    [(a,b) => b.acc - a.acc]: for no two neighbours the comparator asks to
    put the second before the first. *)
Definition by_accuracy (l : list GRUModel.StockAcc) : Prop :=
  forall (i : nat) a b,
    l !! i = Some a -> l !! S i = Some b ->
    gt (sub (GRUModel.acc b) (GRUModel.acc a)) num_0 = false.

(** The sign of a number is [s], unless it is [NaN]. *)
Definition sign_or_NaN (s : bool) (v : number) : Prop :=
  match v with
  | S754_zero s' | S754_infinity s' | S754_finite s' _ _ => s' = s
  | S754_nan => True
  end.

(** * Properties *)

Example split_example : split comma "a,b,,c" = ["a"; "b"; ""; "c"].
Proof. reflexivity. Qed.

Example trim_example : trim "  a b  " = "a b".
Proof. reflexivity. Qed.

Example half_example : div (of_Z 5) (of_Z 10) = num_half.
Proof. reflexivity. Qed.

(** ** Loops that may throw *)

Section MapM.
Context {A B : Type} (f : A -> result B).

Lemma mapM_Ok_Forall2 l ys :
  mapM f l = Ok ys <-> Forall2 (λ x y, f x = Ok y) l ys.
Proof.
  revert ys. induction l as [|x l IH]; intros ys; simpl.
  - split.
    + intros [= <-]. constructor.
    + intros H. inversion H. reflexivity.
  - destruct (f x) as [b|e] eqn:Hx; simpl.
    + destruct (mapM f l) as [bs|e] eqn:Hl; simpl.
      * split.
        -- intros [= <-]. constructor; [done|]. by apply IH.
        -- intros H. inversion H as [|? y ? ys' Hy Hr]; subst.
           apply IH in Hr. congruence.
      * split; [done|]. intros H.
        inversion H as [|? y ? ys' Hy Hr]; subst.
        apply IH in Hr. congruence.
    + split; [done|]. intros H. inversion H; subst. congruence.
Qed.

Lemma mapM_Ok_length l ys : mapM f l = Ok ys -> length ys = length l.
Proof. intros H%mapM_Ok_Forall2. symmetry. by eapply Forall2_length. Qed.

Lemma mapM_Ok_lookup l ys i y :
  mapM f l = Ok ys -> ys !! i = Some y ->
  exists x, l !! i = Some x /\ f x = Ok y.
Proof.
  intros H%mapM_Ok_Forall2 Hy.
  destruct (Forall2_lookup_r _ _ _ _ _ H Hy) as (x & Hx & Hf). eauto.
Qed.

Lemma mapM_total l :
  Forall (λ x, exists y, f x = Ok y) l -> exists ys, mapM f l = Ok ys.
Proof.
  induction 1 as [|x l [y Hy] _ [ys Hys]]; simpl.
  - eauto.
  - rewrite Hy, Hys. simpl. eauto.
Qed.

End MapM.

(** ** Arrays, sets and sorting *)

Lemma split_nonempty sep s : split sep s <> [].
Proof.
  destruct s as [|c s]; simpl; [done|].
  destruct (Ascii.eqb c sep); [done|]. by destruct (split sep s).
Qed.

Lemma indexOf_Some a x i : indexOf a x = Some i -> a !! i = Some x.
Proof.
  revert i. induction a as [|y a IH]; intros i; simpl; [done|].
  destruct (String.eqb_spec y x) as [->|Hne].
  - by intros [= <-].
  - destruct (indexOf a x) as [j|]; simpl; [|done].
    intros [= <-]. simpl. by apply IH.
Qed.

Lemma indexOf_elem a x : x ∈ a -> is_Some (indexOf a x).
Proof.
  induction 1 as [x a|x y a _ IH]; simpl.
  - rewrite String.eqb_refl. eauto.
  - destruct (String.eqb y x); [eauto|].
    destruct IH as [j ->]. simpl. eauto.
Qed.

Lemma indexOf_lt a x i : indexOf a x = Some i -> (i < length a)%nat.
Proof. intros H%indexOf_Some. by eapply lookup_lt_Some. Qed.

Lemma includes_elem a x : includes a x = true <-> x ∈ a.
Proof.
  unfold includes. rewrite bool_decide_eq_true. split.
  - intros [i Hi%indexOf_Some]. by eapply list_elem_of_lookup_2.
  - apply indexOf_elem.
Qed.

Section SetOf.
Context {A : Type} `{EqDecision A}.

Lemma set_add_elem (s : list A) x z : z ∈ set_add s x <-> z ∈ s \/ z = x.
Proof.
  unfold set_add. case_bool_decide as Hx.
  - split; [eauto|]. intros [?| ->]; done.
  - rewrite elem_of_app, list_elem_of_singleton. done.
Qed.

Lemma set_add_NoDup (s : list A) x : NoDup s -> NoDup (set_add s x).
Proof.
  intros Hs. unfold set_add. case_bool_decide as Hx; [done|].
  apply NoDup_app. split_and!; [done| |apply NoDup_singleton].
  intros z Hz ->%list_elem_of_singleton. done.
Qed.

Lemma fold_set_add_elem (l s : list A) z :
  z ∈ fold_left set_add l s <-> z ∈ s \/ z ∈ l.
Proof.
  revert s. induction l as [|x l IH]; intros s; simpl.
  - rewrite elem_of_nil. tauto.
  - rewrite IH, set_add_elem, elem_of_cons. tauto.
Qed.

Lemma fold_set_add_NoDup (l s : list A) :
  NoDup s -> NoDup (fold_left set_add l s).
Proof.
  revert s. induction l as [|x l IH]; intros s Hs; simpl; [done|].
  apply IH. by apply set_add_NoDup.
Qed.

Lemma set_of_elem (l : list A) z : z ∈ set_of l <-> z ∈ l.
Proof. unfold set_of. rewrite fold_set_add_elem, elem_of_nil. tauto. Qed.

Lemma set_of_NoDup (l : list A) : NoDup (set_of l).
Proof. apply fold_set_add_NoDup. constructor. Qed.

End SetOf.

Lemma str_insert_Permutation x l : str_insert x l ≡ₚ x :: l.
Proof.
  induction l as [|y l IH]; simpl; [done|].
  destruct (String.leb x y); [done|].
  rewrite IH. apply Permutation_swap.
Qed.

Lemma sort_Permutation l : sort l ≡ₚ l.
Proof.
  induction l as [|x l IH]; simpl; [done|].
  rewrite str_insert_Permutation. by rewrite IH.
Qed.

Lemma sort_elem l x : x ∈ sort l <-> x ∈ l.
Proof. by rewrite sort_Permutation. Qed.

Lemma sort_NoDup l : NoDup l -> NoDup (sort l).
Proof. by rewrite sort_Permutation. Qed.

Lemma sort_insert_Permutation x l : sort_insert x l ≡ₚ x :: l.
Proof.
  induction l as [|y l IH]; simpl; [done|].
  destruct (sort_le x y); [done|].
  rewrite IH. apply Permutation_swap.
Qed.

Lemma sort_opt_Permutation l : sort_opt l ≡ₚ l.
Proof.
  induction l as [|x l IH]; simpl; [done|].
  rewrite sort_insert_Permutation. by rewrite IH.
Qed.

Section FromEntries.
Context {V : Type}.

Lemma fromEntries_snoc (l : list (string * V)) k v :
  fromEntries (l ++ [(k, v)]) = <[k := v]> (fromEntries l).
Proof. unfold fromEntries. by rewrite fold_left_app. Qed.

(** An object filled from an array of keys holds, under a key, the value
    made at an index where the array has that key. *)
Lemma fromEntries_imap_Some (g : nat -> string -> V) (ks : list string) k v :
  fromEntries (imap (λ i s, (s, g i s)) ks) !! k = Some v ->
  exists i, ks !! i = Some k /\ v = g i k.
Proof.
  revert v. induction ks as [|s ks IH] using rev_ind; intros v.
  - unfold fromEntries. simpl. by rewrite lookup_empty.
  - rewrite imap_app. simpl. rewrite fromEntries_snoc.
    rewrite Nat.add_0_r.
    destruct (decide (s = k)) as [->|Hne].
    + rewrite lookup_insert_eq. intros [= <-].
      exists (length ks). split; [|done].
      by rewrite lookup_app_r, Nat.sub_diag by lia.
    + rewrite lookup_insert_ne by done. intros Hv.
      destruct (IH _ Hv) as (i & Hi & ->). exists i. split; [|done].
      by apply lookup_app_l_Some.
Qed.

Lemma fromEntries_imap_NoDup (g : nat -> string -> V) (ks : list string) i k :
  NoDup ks -> ks !! i = Some k ->
  fromEntries (imap (λ i s, (s, g i s)) ks) !! k = Some (g i k).
Proof.
  intros Hnd Hi.
  assert (is_Some (fromEntries (imap (λ i s, (s, g i s)) ks) !! k)) as [v Hv].
  { clear Hnd. revert i Hi.
    induction ks as [|s ks IH] using rev_ind; intros i Hi; [done|].
    rewrite imap_app. simpl. rewrite fromEntries_snoc.
    destruct (decide (s = k)) as [->|Hne].
    - rewrite lookup_insert_eq. eauto.
    - rewrite lookup_insert_ne by done.
      apply lookup_app_Some in Hi as [Hi|[_ Hi]]; [by eapply IH|].
      destruct (i - length ks)%nat; simplify_eq/=. }
  rewrite Hv. f_equal.
  destruct (fromEntries_imap_Some _ _ _ _ Hv) as (j & Hj & ->).
  by rewrite (NoDup_lookup _ _ _ _ Hnd Hi Hj).
Qed.

End FromEntries.

(** ** Flat arrays made of blocks of one length *)

Lemma concat_uniform_length {A} (n : nat) (ls : list (list A)) :
  Forall (λ l, length l = n) ls -> length (concat ls) = (length ls * n)%nat.
Proof.
  induction 1 as [|l ls Hl _ IH]; simpl; [done|].
  rewrite length_app, IH, Hl. lia.
Qed.

Lemma concat_uniform_lookup {A} (n : nat) (ls : list (list A)) i j l :
  Forall (λ l, length l = n) ls ->
  ls !! i = Some l -> (j < n)%nat ->
  concat ls !! (i * n + j)%nat = l !! j.
Proof.
  intros Hall. revert i. induction Hall as [|l0 ls Hl0 _ IH]; intros i Hi Hj.
  - done.
  - destruct i as [|i]; simpl in *.
    + injection Hi as ->. rewrite lookup_app_l by lia. done.
    + rewrite lookup_app_r by lia.
      replace (n + i * n + j - length l0)%nat with (i * n + j)%nat by lia.
      by apply IH.
Qed.

Lemma flat_map_uniform_lookup {A B} (n : nat) (f : A -> list B) (l : list A) i j x :
  (forall a, length (f a) = n) ->
  l !! i = Some x -> (j < n)%nat ->
  flat_map f l !! (i * n + j)%nat = f x !! j.
Proof.
  intros Hn. revert i. induction l as [|a l IH]; intros i Hi Hj; [done|].
  destruct i as [|i]; simpl in *.
  - injection Hi as ->. rewrite lookup_app_l by (rewrite Hn; lia). done.
  - rewrite lookup_app_r by (rewrite Hn; lia). rewrite Hn.
    replace (n + i * n + j - n)%nat with (i * n + j)%nat by lia.
    by apply IH.
Qed.

Lemma flat_map_uniform_length {A B} (n : nat) (f : A -> list B) (l : list A) :
  (forall a, length (f a) = n) -> length (flat_map f l) = (length l * n)%nat.
Proof.
  intros Hn. induction l as [|a l IH]; simpl; [done|].
  rewrite length_app, IH, Hn. lia.
Qed.

(** ** Numbers *)

Lemma min_loop_NaN l : forall lowest,
  Exists (λ x, isNaN x = true) l -> min_loop lowest l = NaN.
Proof.
  induction l as [|n l IH]; intros lowest Hex.
  - by apply Exists_nil in Hex.
  - simpl. destruct (isNaN n) eqn:Hn; [done|].
    apply Exists_cons in Hex as [Hex|Hex]; [congruence|].
    destruct (_ && _); [by apply IH|].
    destruct (SFltb _ _); by apply IH.
Qed.

Lemma max_loop_NaN l : forall highest,
  Exists (λ x, isNaN x = true) l -> max_loop highest l = NaN.
Proof.
  induction l as [|n l IH]; intros highest Hex.
  - by apply Exists_nil in Hex.
  - simpl. destruct (isNaN n) eqn:Hn; [done|].
    apply Exists_cons in Hex as [Hex|Hex]; [congruence|].
    destruct (_ && _); [by apply IH|].
    destruct (SFltb _ _); by apply IH.
Qed.

Lemma Math_min_NaN l : NaN ∈ l -> Math_min l = NaN.
Proof.
  intros H. apply min_loop_NaN, Exists_exists. by exists NaN.
Qed.

Lemma Math_max_NaN l : NaN ∈ l -> Math_max l = NaN.
Proof.
  intros H. apply max_loop_NaN, Exists_exists. by exists NaN.
Qed.

Lemma sub_NaN_r v : sub v NaN = NaN.
Proof. by destruct v as [[]|[]| |]. Qed.

Lemma div_NaN_l v : div NaN v = NaN.
Proof. done. Qed.

Lemma gt_NaN_l v : gt NaN v = false.
Proof. unfold gt, SFltb. by destruct v as [[]|[]| |[]]. Qed.

Lemma gt_NaN_r v : gt v NaN = false.
Proof. unfold gt, SFltb. by destruct v as [[]|[]| |[]]. Qed.

(** ** Division by one is exact

    The lemmas below follow [SFdiv] on a finite binary64 number and the
    number 1: the quotient of the mantissas is exact, and rounding gives
    the dividend back. *)

Lemma bounded_cases m e :
  bounded prec emax m e = true ->
  e <= 971 /\
  ((Z.pos (digits2_pos m) = 53 /\ -1074 < e) \/
   (Z.pos (digits2_pos m) <= 53 /\ e = -1074)).
Proof.
  unfold bounded, canonical_mantissa, fexp, emin, prec, emax.
  intros [Hc He]%andb_prop. apply Z.eqb_eq in Hc. apply Z.leb_le in He.
  lia.
Qed.

Lemma shr_fexp_exact m e :
  fexp prec emax (Z.pos (digits2_pos m) + e) = e ->
  shr_fexp prec emax (Z.pos m) e loc_Exact
  = ({| shr_m := Z.pos m; shr_r := false; shr_s := false |}, e).
Proof.
  intros H. unfold shr_fexp. cbn [Zdigits2 shr_record_of_loc].
  rewrite H, Z.sub_diag. reflexivity.
Qed.

Lemma round_exact s m e :
  bounded prec emax m e = true ->
  binary_round_aux prec emax s (Z.pos m) e loc_Exact = S754_finite s m e.
Proof.
  intros Hb. pose proof Hb as [Hc He]%andb_prop.
  apply Z.eqb_eq in Hc. 
  unfold binary_round_aux. rewrite (shr_fexp_exact m e Hc).
  cbn [shr_m loc_of_shr_record round_nearest_even].
  rewrite (shr_fexp_exact m e Hc). cbn [shr_m]. 
  unfold prec, emax in *. rewrite He. reflexivity.
Qed.

Lemma round_doubled s m e :
  bounded prec emax m e = true -> -1074 < e ->
  binary_round_aux prec emax s (Z.pos m~0) (e - 1) loc_Exact = S754_finite s m e.
Proof.
  intros Hb Hn. pose proof Hb as [Hc He]%andb_prop.
  apply Z.eqb_eq in Hc.
  destruct (bounded_cases m e Hb) as [_ [[Hd _]|[_ ?]]]; [|lia].
  unfold binary_round_aux.
  assert (shr_fexp prec emax (Z.pos m~0) (e - 1) loc_Exact
          = ({| shr_m := Z.pos m; shr_r := false; shr_s := false |}, e)) as ->.
  { unfold shr_fexp. cbn [Zdigits2 digits2_pos shr_record_of_loc].
    rewrite Pos2Z.inj_succ, Hd.
    replace (fexp prec emax (Z.succ 53 + (e - 1)) - (e - 1)) with 1
      by (unfold fexp, emin, prec, emax; lia).
    cbn [shr iter_pos shr_1 orb]. f_equal. lia. }
  cbn [shr_m loc_of_shr_record round_nearest_even].
  rewrite (shr_fexp_exact m e Hc). cbn [shr_m].
  unfold prec, emax in *. rewrite He. reflexivity.
Qed.

Lemma div_eucl_exact a b : 0 < b -> Z.div_eucl (a * b) b = (a, 0).
Proof.
  intros Hb. pose proof (Z.div_mul a b ltac:(lia)) as Hq.
  pose proof (Z.mod_mul a b ltac:(lia)) as Hr.
  unfold Z.div, Z.modulo in *. destruct (Z.div_eucl (a * b) b) as [q r].
  congruence.
Qed.

Lemma div_core m e :
  bounded prec emax m e = true ->
  SFdiv_core_binary prec emax (Z.pos m) e 4503599627370496 (-52)
  = if e =? -1074 then (Z.pos m, e, loc_Exact)
    else (Z.pos m~0, e - 1, loc_Exact).
Proof.
  intros Hb. destruct (bounded_cases m e Hb) as [He Hcases].
  unfold SFdiv_core_binary.
  replace (Zdigits2 4503599627370496) with 53 by reflexivity.
  cbn [Zdigits2].
  destruct (Z.eqb_spec e (-1074)) as [->|Hne].
  - replace (Z.min _ _) with (-1074)
      by (unfold fexp, emin, prec, emax; lia).
    replace (-1074 - -52 - -1074) with 52 by lia.
    rewrite Z.shiftl_mul_pow2 by lia.
    change (2 ^ 52) with 4503599627370496.
    rewrite (div_eucl_exact (Z.pos m) 4503599627370496) by lia. reflexivity.
  - replace (Z.min _ _) with (e - 1)
      by (unfold fexp, emin, prec, emax; lia).
    replace (e - -52 - (e - 1)) with 53 by lia.
    rewrite Z.shiftl_mul_pow2 by lia.
    replace (Z.pos m * 2 ^ 53) with (Z.pos m~0 * 4503599627370496) by lia.
    rewrite (div_eucl_exact (Z.pos m~0) 4503599627370496) by lia. reflexivity.
Qed.

Lemma div_finite_one s m e :
  bounded prec emax m e = true ->
  SFdiv prec emax (S754_finite s m e) num_1 = S754_finite s m e.
Proof.
  intros Hb. unfold SFdiv, num_1. rewrite (div_core m e Hb).
  rewrite xorb_false_r.
  destruct (Z.eqb_spec e (-1074)) as [->|Hne].
  - by apply round_exact.
  - apply round_doubled; [done|].
    destruct (bounded_cases m e Hb) as [_ [[_ ?]|[_ ?]]]; lia.
Qed.

(** A binary64 value: an element of [spec_float] whose mantissa and
    exponent are those of a double. *)
Lemma div_one v :
  valid_binary prec emax v = true -> isNaN v = false -> div v num_1 = v.
Proof.
  destruct v as [s|s| |s m e]; simpl; intros Hv Hn; try done.
  - by destruct s.
  - by destruct s.
  - by apply div_finite_one.
Qed.

Lemma sub_zero v : isNaN v = false -> sub v num_0 = v.
Proof. by destruct v as [[]|[]| |]. Qed.

(** ** [DataLoader]: parsing and pivot *)

Section DataLoaderPivot.
Import DataLoader.

Variable StringToNumber : string -> number.

Lemma parse_loop_sets di si oi ci body : forall data0 data symbolSet dateSet,
  fold_left (parse_row StringToNumber di si oi ci) body
    (data0, set_of (map symbol data0), set_of (map date data0))
    = (data, symbolSet, dateSet) ->
  symbolSet = set_of (map symbol data) /\ dateSet = set_of (map date data).
Proof.
  induction body as [|r body IH]; intros data0 data ss dd.
  - simpl. by intros [= <- <- <-].
  - cbn [fold_left]. unfold parse_row at 2.
    destruct (falsy_str _ || falsy_str _); [apply IH|].
    destruct (field r di) as [d|]; [|apply IH].
    destruct (field r si) as [s|]; [|apply IH].
    intros H. eapply (IH (data0 ++ [_])).
    rewrite !map_app. simpl. unfold set_of in *.
    rewrite !fold_left_app. simpl. exact H.
Qed.

Lemma parse_rows_sets headers body data symbolSet dateSet :
  parse_rows StringToNumber headers body = (data, symbolSet, dateSet) ->
  symbolSet = set_of (map symbol data) /\ dateSet = set_of (map date data).
Proof. apply (parse_loop_sets _ _ _ _ body []). Qed.

Lemma blank_shaped n m : shaped n m (blank n m).
Proof.
  unfold blank. split; [by rewrite length_replicate|].
  apply Forall_replicate. by rewrite length_replicate.
Qed.

Lemma pivot_step_shaped ds sidx n m M row M' :
  shaped n m M -> pivot_step ds sidx M row = Ok M' -> shaped n m M'.
Proof.
  intros [Hn Hm]. unfold pivot_step.
  destruct (indexOf ds (date row)) as [dIdx|]; [|done].
  destruct (M !! dIdx) as [day|] eqn:Hday; [|done].
  destruct (sidx !! symbol row) as [sIdx|]; intros [= <-]; [|by split].
  split; [by rewrite length_insert|].
  apply Forall_insert; [done|]. rewrite length_insert.
  by eapply (Forall_lookup_1 _ _ _ _ Hm).
Qed.

Lemma pivot_loop_shaped ds sidx n m data : forall M M',
  shaped n m M -> pivot_loop ds sidx M data = (Ok tt, M') -> shaped n m M'.
Proof.
  induction data as [|row data IH]; intros M M' HM; simpl.
  - by intros [= <-].
  - destruct (pivot_step ds sidx M row) as [M1|e] eqn:Hstep; [|done].
    apply IH. by eapply pivot_step_shaped.
Qed.

(** The pivot loop does not throw when every date of a record is on the
    date axis. *)
Lemma pivot_loop_total ds sidx m data : forall M,
  shaped (length ds) m M ->
  Forall (λ r, date r ∈ ds) data ->
  exists M', pivot_loop ds sidx M data = (Ok tt, M').
Proof.
  induction data as [|row data IH]; intros M HM Hd; simpl; [eauto|].
  apply Forall_cons in Hd as [Hrow Hd].
  assert (exists M1, pivot_step ds sidx M row = Ok M1) as [M1 HM1].
  { unfold pivot_step.
    destruct (indexOf_elem _ _ Hrow) as [dIdx HdIdx]. rewrite HdIdx.
    destruct (lookup_lt_is_Some_2 M dIdx) as [day ->].
    { destruct HM as [-> _]. by eapply indexOf_lt. }
    destruct (sidx !! symbol row); eauto. }
  rewrite HM1. apply IH; [|done]. by eapply pivot_step_shaped.
Qed.

(** What the pivot loop leaves in the cell of a date and a symbol. *)
Lemma pivot_loop_cell ds sidx n m d s dIdx sIdx data : forall M M',
  shaped n m M ->
  (forall s' i, sidx !! s' = Some i -> (i < m)%nat) ->
  (forall s', sidx !! s' = Some sIdx -> s' = s) ->
  indexOf ds d = Some dIdx ->
  sidx !! s = Some sIdx ->
  pivot_loop ds sidx M data = (Ok tt, M') ->
  cell_at M' dIdx sIdx =
    match last_record d s data with
    | Some r => Some (cell_of r)
    | None => cell_at M dIdx sIdx
    end.
Proof.
  intros M M' HM Hlt Hinj Hd Hs.
  revert M M' HM.
  induction data as [|row data IH]; intros M M' HM; simpl.
  - by intros [= <-].
  - destruct (pivot_step ds sidx M row) as [M1|e] eqn:Hstep; [|done].
    intros Hloop.
    rewrite (IH _ _ (pivot_step_shaped _ _ _ _ _ _ _ HM Hstep) Hloop).
    destruct (last_record d s data); [done|].
    clear IH Hloop. unfold pivot_step in Hstep.
    destruct (indexOf ds (date row)) as [dIdx'|] eqn:HdIdx'; [|done].
    destruct (M !! dIdx') as [day|] eqn:Hday; [|done].
    unfold is_record. case_bool_decide as Hrec.
    + destruct Hrec as [<- <-]. rewrite Hs in Hstep.
      assert (dIdx' = dIdx) as -> by congruence.
      injection Hstep as <-. unfold cell_at.
      rewrite list_lookup_insert_eq by (by eapply lookup_lt_Some). simpl.
      rewrite list_lookup_insert_eq; [done|].
      destruct HM as [_ Hm].
      rewrite (Forall_lookup_1 _ _ _ _ Hm Hday). by eapply Hlt.
    + destruct (sidx !! symbol row) as [sIdx'|] eqn:HsIdx';
        injection Hstep as <-; [|done].
      unfold cell_at.
      destruct (decide (dIdx' = dIdx)) as [->|Hned].
      * rewrite list_lookup_insert_eq by (by eapply lookup_lt_Some).
        rewrite Hday. simpl.
        rewrite list_lookup_insert_ne; [done|].
        intros ->. apply Hrec. split.
        -- apply indexOf_Some in HdIdx', Hd. congruence.
        -- by apply Hinj.
      * by rewrite list_lookup_insert_ne.
Qed.

Lemma index_object_Some syms s i :
  index_object syms !! s = Some i -> syms !! i = Some s.
Proof.
  intros H. unfold index_object in H.
  destruct (fromEntries_imap_Some (λ i _, i) _ _ _ H) as (j & Hj & ->).
  done.
Qed.

Lemma index_object_elem syms s :
  NoDup syms -> s ∈ syms -> is_Some (index_object syms !! s).
Proof.
  intros Hnd [i Hi]%list_elem_of_lookup_1. unfold index_object.
  rewrite (fromEntries_imap_NoDup (λ i _, i) _ _ _ Hnd Hi). eauto.
Qed.

End DataLoaderPivot.

(** ** [DataLoader]: normalisation *)

Section DataLoaderNormalize.
Import DataLoader.

Lemma _scale_missing mn mx : _scale NaN mn mx = num_half.
Proof. done. Qed.

Lemma _scale_degenerate v mn mx :
  strict_eq mx mn = true -> _scale v mn mx = num_half.
Proof. intros H. unfold _scale. rewrite H. by destruct (isNaN v). Qed.

Lemma _scale_poisoned v : isNaN v = false -> _scale v NaN NaN = NaN.
Proof.
  intros H. unfold _scale. rewrite H. simpl. by rewrite sub_NaN_r.
Qed.

Lemma _scale_NaN_stats v : _scale v NaN NaN = num_half \/ _scale v NaN NaN = NaN.
Proof.
  destruct (isNaN v) eqn:H.
  - left. by destruct v.
  - right. by apply _scale_poisoned.
Qed.

Lemma normalize_matrix_cell syms mn mx M d s :
  cell_at (normalize_matrix syms mn mx M) d s
  = normalize_cell syms mn mx s <$> cell_at M d s.
Proof.
  unfold cell_at, normalize_matrix. rewrite list_lookup_fmap.
  destruct (M !! d) as [day|]; simpl; [|done].
  by rewrite list_lookup_imap.
Qed.

Lemma normalize_matrix_shaped syms mn mx n m M :
  shaped n m M -> shaped n m (normalize_matrix syms mn mx M).
Proof.
  intros [Hn Hm]. split; unfold normalize_matrix.
  - by rewrite length_map.
  - apply Forall_fmap. eapply Forall_impl; [exact Hm|].
    intros day Hday. simpl. by rewrite length_imap.
Qed.

Lemma stats_lookup agg syms M s sym :
  NoDup syms -> syms !! s = Some sym ->
  stats agg syms M !! sym
  = Some {| open := agg (column open M s); close := agg (column close M s) |}.
Proof.
  intros Hnd Hs. unfold stats.
  by rewrite (fromEntries_imap_NoDup
                (λ i _, {| open := agg (column open M i);
                           close := agg (column close M i) |}) _ _ _ Hnd Hs).
Qed.

Lemma column_elem f M d s c :
  cell_at M d s = Some c -> f c ∈ column f M s.
Proof.
  unfold cell_at, column. intros H.
  destruct (M !! d) as [day|] eqn:Hd; simplify_eq/=.
  apply list_elem_of_omap. exists day. split.
  - by eapply list_elem_of_lookup_2.
  - by rewrite H.
Qed.

(** The normalised cell of a symbol, from its raw cell and the two
    statistics of its column. *)
Lemma normalized_cell syms M d s sym c :
  NoDup syms -> syms !! s = Some sym -> cell_at M d s = Some c ->
  cell_at (normalize_matrix syms (stats Math_min syms M) (stats Math_max syms M) M) d s
  = Some {| open := _scale (open c) (Math_min (column open M s))
                            (Math_max (column open M s));
            close := _scale (close c) (Math_min (column close M s))
                             (Math_max (column close M s)) |}.
Proof.
  intros Hnd Hs Hc. rewrite normalize_matrix_cell, Hc. simpl.
  unfold normalize_cell. rewrite Hs.
  by rewrite !(stats_lookup _ _ _ _ _ Hnd Hs).
Qed.

End DataLoaderNormalize.

(** ** [DataLoader]: the state after [loadCSV] *)

Section DataLoaderLoaded.
Import DataLoader.

Variable StringToNumber : string -> number.

Lemma date_axis_NoDup data : NoDup (date_axis data).
Proof. apply sort_NoDup, set_of_NoDup. Qed.

Lemma symbol_axis_NoDup data : NoDup (symbol_axis data).
Proof. apply sort_NoDup, set_of_NoDup. Qed.

Lemma date_axis_elem data r : r ∈ data -> date r ∈ date_axis data.
Proof.
  intros Hr. apply sort_elem, set_of_elem, list_elem_of_fmap. eauto.
Qed.

Lemma symbol_axis_elem data r : r ∈ data -> symbol r ∈ symbol_axis data.
Proof.
  intros Hr. apply sort_elem, set_of_elem, list_elem_of_fmap. eauto.
Qed.

(** The pivot of the parsed records never throws. *)
Lemma pivot_total data :
  exists M0,
    pivot (date_axis data) (symbol_axis data)
          (index_object (symbol_axis data)) data = (Ok tt, M0).
Proof.
  unfold pivot. eapply pivot_loop_total; [apply blank_shaped|].
  apply Forall_forall. apply date_axis_elem.
Qed.

Lemma pivot_shaped data M0 :
  pivot (date_axis data) (symbol_axis data)
        (index_object (symbol_axis data)) data = (Ok tt, M0) ->
  shaped (length (date_axis data)) (length (symbol_axis data)) M0.
Proof. apply pivot_loop_shaped, blank_shaped. Qed.

Lemma blank_cell n m d s :
  (d < n)%nat -> (s < m)%nat -> cell_at (blank n m) d s = Some missing_cell.
Proof.
  intros Hd Hs. unfold cell_at, blank.
  rewrite lookup_replicate_2 by done. simpl.
  by rewrite lookup_replicate_2.
Qed.

(** The raw cell of a date and a symbol: the last record of the pair, or
    the missing cell. *)
Lemma pivot_cell data M0 d s dIdx sIdx :
  pivot (date_axis data) (symbol_axis data)
        (index_object (symbol_axis data)) data = (Ok tt, M0) ->
  indexOf (date_axis data) d = Some dIdx ->
  index_object (symbol_axis data) !! s = Some sIdx ->
  cell_at M0 dIdx sIdx
  = Some (match last_record d s data with
          | Some r => cell_of r
          | None => missing_cell
          end).
Proof.
  intros Hp Hd Hs. unfold pivot in Hp.
  rewrite (pivot_loop_cell _ _ _ _ d s dIdx sIdx _ _ _
             (blank_shaped _ _)
             (λ s' i H, lookup_lt_Some _ _ _ (index_object_Some _ _ _ H))
             (λ s' H, eq_sym (Some_inj _ _
                (eq_trans (eq_sym (index_object_Some _ _ _ Hs))
                          (index_object_Some _ _ _ H))))
             Hd Hs Hp).
  destruct (last_record d s data); [done|].
  apply blank_cell.
  - by eapply indexOf_lt.
  - eapply lookup_lt_Some, index_object_Some, Hs.
Qed.

Lemma loadCSV_Done this csvText this' :
  loadCSV StringToNumber this csvText = Done this' ->
  let data := records StringToNumber csvText in
  exists M0,
    pivot (date_axis data) (symbol_axis data)
          (index_object (symbol_axis data)) data = (Ok tt, M0) /\
    this' = set_ready (_normalize
              (pivoted this (date_axis data) (symbol_axis data) M0)).
Proof.
  unfold loadCSV, records.
  destruct (map (split comma) (split newline (trim csvText)))
    as [|headers body]; [done|].
  destruct (negb _); [done|].
  destruct (parse_rows StringToNumber headers body)
    as [[data symbolSet] dateSet] eqn:Hparse.
  destruct (parse_rows_sets _ _ _ _ _ _ Hparse) as [-> ->].
  simpl. fold (date_axis data). fold (symbol_axis data).
  destruct (pivot _ _ _ data) as [[[]|e] M0] eqn:Hp; [|done].
  intros [= <-]. eauto.
Qed.

End DataLoaderLoaded.

(** ** [DataLoader]: the sample loop *)

Section DataLoaderSamples.
Import DataLoader.

Lemma cell_Ok M w s c :
  cell M w s = Ok c <-> 0 <= w /\ cell_at M (Z.to_nat w) s = Some c.
Proof.
  unfold cell, cell_at, at_Z. destruct (Z.ltb_spec w 0) as [Hw|Hw].
  - split; [done|]. intros [? _]. lia.
  - destruct (M !! Z.to_nat w) as [day|]; simpl.
    + destruct (day !! s); simpl; split; try done.
      * by intros [= <-].
      * by intros [_ [= <-]].
      * by intros [].
    + split; [done|]. by intros [].
Qed.

Lemma cell_total n m M w s :
  shaped n m M -> 0 <= w < Z.of_nat n -> (s < m)%nat ->
  exists c, cell M w s = Ok c.
Proof.
  intros [Hn Hm] Hw Hs.
  destruct (lookup_lt_is_Some_2 M (Z.to_nat w)) as [day Hday]; [lia|].
  destruct (lookup_lt_is_Some_2 day s) as [c Hc].
  { by rewrite (Forall_lookup_1 _ _ _ _ Hm Hday). }
  exists c. apply cell_Ok. split; [lia|].
  unfold cell_at. by rewrite Hday.
Qed.

Lemma dayVec_length M symbolN w v :
  dayVec M symbolN w = Ok v -> length v = (2 * symbolN)%nat.
Proof.
  unfold dayVec. destruct (mapM _ _) as [cells|e] eqn:Hc; [|done].
  intros [= <-]. apply mapM_Ok_length in Hc. rewrite length_seq in Hc.
  rewrite (flat_map_uniform_length 2) by done. lia.
Qed.

Lemma dayVec_total n m M w :
  shaped n m M -> 0 <= w < Z.of_nat n -> exists v, dayVec M m w = Ok v.
Proof.
  intros HM Hw. unfold dayVec.
  destruct (mapM_total (cell M w) (seq 0 m)) as [cells ->]; [|simpl; eauto].
  apply Forall_forall. intros s Hs%elem_of_seq.
  eapply cell_total; [done..|lia].
Qed.

Lemma xSeq_shape M symbolN windowLen d x :
  xSeq M symbolN windowLen d = Ok x ->
  length x = Z.to_nat windowLen /\
  Forall (λ v, length v = (2 * symbolN)%nat) x.
Proof.
  unfold xSeq. intros Hx. split.
  - apply mapM_Ok_length in Hx. by rewrite length_seqZ in Hx.
  - apply Forall_lookup. intros i v Hv.
    destruct (mapM_Ok_lookup _ _ _ _ _ Hx Hv) as (w & _ & Hw).
    by eapply dayVec_length.
Qed.

Lemma xSeq_total n m M windowLen d :
  shaped n m M -> windowLen <= d <= Z.of_nat n ->
  exists x, xSeq M m windowLen d = Ok x.
Proof.
  intros HM Hd. unfold xSeq. apply mapM_total, Forall_forall.
  intros w Hw%elem_of_seqZ. eapply dayVec_total; [done|lia].
Qed.

Lemma label_of_length M ahead d s l :
  label_of M ahead d s = Ok l -> length l = Z.to_nat ahead.
Proof.
  unfold label_of. destruct (cell M (d - 1) s) as [cD|e]; [|done]. simpl.
  intros Hl%mapM_Ok_length. by rewrite length_seqZ in Hl.
Qed.

(** The entry of the future day [t + 1] in the block of one symbol. *)
Lemma label_of_lookup M ahead d s l (t : nat) :
  label_of M ahead d s = Ok l -> (t < Z.to_nat ahead)%nat ->
  exists cD cF,
    cell M (d - 1) s = Ok cD /\
    cell M (d - 1 + (Z.of_nat t + 1)) s = Ok cF /\
    l !! t = Some (label_entry (close cF) (close cD)).
Proof.
  unfold label_of. destruct (cell M (d - 1) s) as [cD|e]; [|done]. simpl.
  intros Hl Ht.
  destruct (lookup_lt_is_Some_2 l t) as [v Hv].
  { apply mapM_Ok_length in Hl. rewrite length_seqZ in Hl. lia. }
  destruct (mapM_Ok_lookup _ _ _ _ _ Hl Hv) as (z & Hz & Hf).
  apply lookup_seqZ in Hz as [-> _].
  replace (1 + Z.of_nat t) with (Z.of_nat t + 1) in Hf by lia.
  destruct (cell M _ s) as [cF|e]; [|done]. simpl in Hf.
  injection Hf as <-. eauto.
Qed.

Lemma label_of_total n m M ahead d s :
  shaped n m M -> (s < m)%nat -> 1 <= d -> 0 <= ahead ->
  d + ahead <= Z.of_nat n ->
  exists l, label_of M ahead d s = Ok l.
Proof.
  intros HM Hs Hd H0 Ha. unfold label_of.
  destruct (cell_total _ _ M (d - 1) s HM) as [cD ->]; [lia|done|].
  simpl. apply mapM_total, Forall_forall.
  intros t Ht%elem_of_seqZ.
  destruct (cell_total _ _ M (d - 1 + t) s HM) as [cF ->]; [lia|done|].
  simpl. eauto.
Qed.

Lemma label_length M symbolN ahead d lab :
  label M symbolN ahead d = Ok lab ->
  length lab = (symbolN * Z.to_nat ahead)%nat.
Proof.
  unfold label. destruct (mapM _ _) as [ls|e] eqn:Hls; [|done].
  intros [= <-].
  rewrite (concat_uniform_length (Z.to_nat ahead)).
  - apply mapM_Ok_length in Hls. rewrite length_seq in Hls. by rewrite Hls.
  - apply Forall_lookup. intros i l Hl.
    destruct (mapM_Ok_lookup _ _ _ _ _ Hls Hl) as (s & _ & Hs).
    by eapply label_of_length.
Qed.

(** The label vector is symbol-major: the entry of the symbol [s] and of
    the future day [t + 1] is at the index [s * ahead + t]. *)
Lemma label_lookup M symbolN ahead d lab (s t : nat) :
  label M symbolN ahead d = Ok lab ->
  (s < symbolN)%nat -> (t < Z.to_nat ahead)%nat ->
  exists cD cF,
    cell M (d - 1) s = Ok cD /\
    cell M (d - 1 + (Z.of_nat t + 1)) s = Ok cF /\
    lab !! (s * Z.to_nat ahead + t)%nat
    = Some (label_entry (close cF) (close cD)).
Proof.
  unfold label. destruct (mapM _ _) as [ls|e] eqn:Hls; [|done].
  intros [= <-] Hs Ht.
  destruct (lookup_lt_is_Some_2 ls s) as [l Hl].
  { apply mapM_Ok_length in Hls. rewrite length_seq in Hls. lia. }
  destruct (mapM_Ok_lookup _ _ _ _ _ Hls Hl) as (s' & Hs' & Hlab).
  apply lookup_seq in Hs' as [-> _]. simpl in Hlab.
  destruct (label_of_lookup _ _ _ _ _ t Hlab Ht) as (cD & cF & HcD & HcF & Hlt).
  exists cD, cF. split_and!; [done..|].
  rewrite (concat_uniform_lookup (Z.to_nat ahead) ls s t l); [done| |done..].
  apply Forall_lookup. intros i l' Hl'.
  destruct (mapM_Ok_lookup _ _ _ _ _ Hls Hl') as (s'' & _ & Hs'').
  by eapply label_of_length.
Qed.

Lemma label_total n m M ahead d :
  shaped n m M -> 1 <= d -> 0 <= ahead -> d + ahead <= Z.of_nat n ->
  exists lab, label M m ahead d = Ok lab.
Proof.
  intros HM Hd H0 Ha. unfold label.
  destruct (mapM_total (label_of M ahead d) (seq 0 m)) as [ls ->];
    [|simpl; eauto].
  apply Forall_forall. intros s Hs%elem_of_seq.
  eapply label_of_total; [done|lia|done..].
Qed.

Lemma anchors_length datesLen windowLen ahead :
  length (anchors datesLen windowLen ahead)
  = Z.to_nat (Z.of_nat datesLen - windowLen - ahead).
Proof. unfold anchors. rewrite length_seqZ. f_equal. lia. Qed.

(** An anchor is a position with [windowLen] dates before it and [ahead]
    dates after it. *)
Lemma anchors_elem datesLen windowLen ahead d :
  d ∈ anchors datesLen windowLen ahead
  <-> windowLen <= d /\ d + ahead < Z.of_nat datesLen.
Proof. unfold anchors. rewrite elem_of_seqZ. lia. Qed.

Lemma samples_total this windowLen ahead M :
  dataMatrix this = Some M ->
  shaped (length (dates this)) (length (symbols this)) M ->
  1 <= windowLen -> 0 <= ahead ->
  exists Xy, samples this windowLen ahead = Ok Xy.
Proof.
  intros HM Hsh Hw Ha. unfold samples. rewrite HM. simpl.
  apply mapM_total, Forall_forall. intros d Hd%anchors_elem.
  unfold sample.
  destruct (xSeq_total _ _ M windowLen d Hsh) as [x ->]; [lia|].
  destruct (label_total _ _ M ahead d Hsh) as [lab ->]; [lia..|].
  simpl. eauto.
Qed.

(** The [k]-th sample is the sample of the anchor [windowLen + k]. *)
Lemma samples_lookup this windowLen ahead Xy k x lab :
  samples this windowLen ahead = Ok Xy -> Xy !! k = Some (x, lab) ->
  let M := default [] (dataMatrix this) in
  let d := windowLen + Z.of_nat k in
  d ∈ anchors (length (dates this)) windowLen ahead /\
  xSeq M (length (symbols this)) windowLen d = Ok x /\
  label M (length (symbols this)) ahead d = Ok lab.
Proof.
  intros HXy Hk. simpl.
  destruct (mapM_Ok_lookup _ _ _ _ _ HXy Hk) as (d & Hd & Hs).
  pose proof (list_elem_of_lookup_2 _ _ _ Hd) as Hin.
  unfold anchors in Hd. apply lookup_seqZ in Hd as [-> _].
  split; [done|]. unfold sample in Hs.
  destruct (xSeq _ _ _ _) as [x'|e]; [|done]. simpl in Hs.
  destruct (label _ _ _ _) as [lab'|e]; [|done]. simpl in Hs.
  by injection Hs as <- <-.
Qed.

End DataLoaderSamples.

(** ** The last record of a date and a symbol *)

Section LastRecord.
Import DataLoader.

Lemma last_record_None d s data :
  last_record d s data = None <->
  forall r, r ∈ data -> ~ (date r = d /\ symbol r = s).
Proof.
  induction data as [|r0 data IH]; simpl.
  - split; [|done]. intros _ r Hr. by apply elem_of_nil in Hr.
  - destruct (last_record d s data) as [r1|].
    + split; [done|]. intros H. exfalso.
      destruct IH as [_ IH]. discriminate IH.
      intros r Hr. apply H. by right.
    + unfold is_record. case_bool_decide as Hrec.
      * split; [done|]. intros H. destruct (H r0); [by left|done].
      * split; [|done]. intros _ r [->|Hr]%elem_of_cons; [done|].
        by apply IH.
Qed.

(** A record after which no record has the same date and symbol is the
    last record of its date and symbol. *)
Lemma last_record_at d s data (i : nat) r :
  data !! i = Some r -> date r = d -> symbol r = s ->
  (forall (j : nat) r', (i < j)%nat -> data !! j = Some r' ->
                        ~ (date r' = d /\ symbol r' = s)) ->
  last_record d s data = Some r.
Proof.
  revert i. induction data as [|r0 data IH]; intros i Hi Hd Hs Hlast; [done|].
  simpl. destruct i as [|i]; simpl in Hi.
  - injection Hi as ->.
    destruct (last_record d s data) as [r1|] eqn:H1.
    + exfalso.
      assert (last_record d s data <> None) as Hne by congruence.
      apply Hne, last_record_None. intros r' [j Hj]%list_elem_of_lookup_1.
      apply (Hlast (S j)); [lia|done].
    + unfold is_record. by rewrite bool_decide_eq_true_2.
  - rewrite (IH i Hi Hd Hs); [done|].
    intros j r' Hj Hr'. apply (Hlast (S j)); [lia|done].
Qed.

End LastRecord.

(** ** [DataLoader]: a column with a missing cell *)

Section DataLoaderMissing.
Import DataLoader.

(** When a cell of the column of a symbol is missing, both statistics of
    the column are [NaN], and every normalised close of the column is the
    fallback [0.5] or [NaN]. *)
Lemma poisoned_column syms M0 dIdx sIdx sym :
  NoDup syms -> syms !! sIdx = Some sym ->
  cell_at M0 dIdx sIdx = Some missing_cell ->
  let M := normalize_matrix syms (stats Math_min syms M0)
             (stats Math_max syms M0) M0 in
  cell_at M dIdx sIdx = Some {| open := num_half; close := num_half |} /\
  forall d c, cell_at M d sIdx = Some c ->
              close c = num_half \/ close c = NaN.
Proof.
  intros Hnd Hs Hmiss M.
  assert (Math_min (column close M0 sIdx) = NaN) as Hmin.
  { apply Math_min_NaN. apply (column_elem close _ _ _ _ Hmiss). }
  assert (Math_max (column close M0 sIdx) = NaN) as Hmax.
  { apply Math_max_NaN. apply (column_elem close _ _ _ _ Hmiss). }
  split.
  - unfold M. by rewrite (normalized_cell _ _ _ _ _ _ Hnd Hs Hmiss).
  - intros d c. unfold M.
    destruct (cell_at M0 d sIdx) as [c0|] eqn:Hc0.
    + rewrite (normalized_cell _ _ _ _ _ _ Hnd Hs Hc0). intros [= <-].
      simpl. rewrite Hmin, Hmax. apply _scale_NaN_stats.
    + by rewrite normalize_matrix_cell, Hc0.
Qed.

Lemma label_entry_half_l v :
  v = num_half \/ v = NaN -> label_entry num_half v = num_0.
Proof. by intros [-> | ->]. Qed.

Lemma label_entry_half_r v :
  v = num_half \/ v = NaN -> label_entry v num_half = num_0.
Proof. by intros [-> | ->]. Qed.

End DataLoaderMissing.
(** ** Objects filled by a loop *)

Section ObjFacts.
Context {V : Type} `{Obj.Members V}.

Lemma assigned_empty k : Obj.assigned (@Obj.empty V) k = None.
Proof. unfold Obj.assigned, Obj.empty. simpl. by destruct (decide _). Qed.

Lemma assigned_set (o : Obj.object V) k v k' :
  Obj.assigned (Obj.set o k v) k'
  = if decide (k = k') then Some v else Obj.assigned o k'.
Proof.
  unfold Obj.assigned, Obj.set.
  destruct (decide (k = "__proto__")) as [->|Hk]; simpl.
  - destruct (decide ("__proto__" = k')) as [<-|Hk'].
    + by rewrite decide_True.
    + by destruct (decide (k' = "__proto__")) as [->|].
  - destruct (decide (k = k')) as [<-|Hk'].
    + by rewrite decide_False, lookup_insert_eq.
    + destruct (decide (k' = "__proto__")); [done|].
      by rewrite lookup_insert_ne.
Qed.

(** A read gives the assigned object back, whatever the key. *)
Lemma get_assigned (o : Obj.object V) k v :
  Obj.assigned o k = Some v -> Obj.get o k = Obj.Stored v.
Proof. unfold Obj.get. by intros ->. Qed.

Lemma stored_get (o : Obj.object V) k :
  Obj.stored (Obj.get o k) = Obj.assigned o k.
Proof.
  unfold Obj.get. destruct (Obj.assigned o k); [done|].
  destruct (decide _); [done|]. destruct (_ ≫= _); [done|].
  by destruct (bool_decide _).
Qed.

Lemma get_Stored (o : Obj.object V) k v :
  Obj.get o k = Obj.Stored v <-> Obj.assigned o k = Some v.
Proof.
  split; [|apply get_assigned].
  intros Hg. by rewrite <- stored_get, Hg.
Qed.

(** Without an assigned object, a read under a key that the prototype
    chain does not have gives [undefined]. *)
Lemma get_Undefined (o : Obj.object V) k :
  Obj.assigned o k = None ->
  k <> "__proto__" -> k ∉ Obj.prototype_names ->
  (forall p, Obj.member (Obj.members p) k = None) ->
  Obj.get o k = Obj.Undefined.
Proof.
  intros Ha Hk Hn Hm. unfold Obj.get. rewrite Ha, decide_False by done.
  destruct (Obj.proto o) as [p|]; simpl; [rewrite Hm|];
    by rewrite bool_decide_eq_false_2.
Qed.

End ObjFacts.

Lemma get_primitive_Stored {V} (m : gmap string V) k v :
  k <> "__proto__" -> m !! k = Some v ->
  Obj.get_primitive m k = Obj.Stored v.
Proof. intros Hk Hm. unfold Obj.get_primitive. by rewrite decide_False, Hm. Qed.

Lemma set_primitive_lookup {V} (m : gmap string V) k v k' :
  Obj.set_primitive m k v !! k'
  = if decide (k = k' /\ k <> "__proto__") then Some v else m !! k'.
Proof.
  unfold Obj.set_primitive.
  destruct (decide (k = "__proto__")) as [->|Hk].
  - rewrite decide_False; [done|]. intros [_ ?]. done.
  - destruct (decide (k = k')) as [<-|Hne].
    + by rewrite decide_True, lookup_insert_eq.
    + rewrite decide_False by (intros [? _]; done).
      by rewrite lookup_insert_ne.
Qed.

Lemma ordinary_proto k : ordinary k -> k <> "__proto__".
Proof. intros Hk ->. apply Hk. unfold inherited_names. set_solver. Qed.

Lemma ordinary_prototype_names k : ordinary k -> k ∉ Obj.prototype_names.
Proof.
  intros Hk Hin. apply Hk. unfold inherited_names.
  apply elem_of_cons. right. apply elem_of_app. by left.
Qed.

Lemma ordinary_OC k (c : StockDataLoader.OC) :
  ordinary k -> Obj.member (Obj.members c) k = None.
Proof.
  intros Hk. unfold Obj.members, StockDataLoader.OC_members. simpl.
  destruct (decide ("Open" = k)) as [<-|_].
  { destruct Hk. unfold inherited_names, Obj.prototype_names. set_solver. }
  destruct (decide ("Close" = k)) as [<-|_]; [|done].
  destruct Hk. unfold inherited_names, Obj.prototype_names. set_solver.
Qed.

Lemma ordinary_Stats k (s : StockDataLoader.Stats) :
  ordinary k -> Obj.member (Obj.members s) k = None.
Proof.
  intros Hk. unfold Obj.members, StockDataLoader.Stats_members. simpl.
  repeat (destruct (decide (_ = k)) as [<-|_];
          [destruct Hk; unfold inherited_names, Obj.prototype_names;
           set_solver|]).
  done.
Qed.

(** The keys of an axis collide only between [undefined] and the text
    ["undefined"]. *)
Lemma own_key_no_undefined l x : None ∉ l -> x ∈ l -> own_key l x.
Proof.
  intros Hl Hx z Hz. destruct x as [a|], z as [b|]; simpl; try done.
  by intros ->.
Qed.

Lemma own_key_string l s : s <> "undefined" -> own_key l (Some s).
Proof.
  intros Hs [b|] _; simpl; [by intros ->|]. by intros <-.
Qed.

Section LastWrite.
Context {A V : Type} (k : A -> string) (step : A -> option V).

Lemma last_write_Some l key v :
  last_write k step l key = Some v ->
  exists x, x ∈ l /\ k x = key /\ step x = Some v.
Proof.
  induction l as [|x l IH]; simpl; [done|].
  destruct (last_write k step l key) as [v'|].
  - intros [= <-]. destruct IH as (x' & ? & ? & ?); [done|].
    exists x'. split; [by right|done].
  - destruct (decide (k x = key)); [|done].
    intros Hx. exists x. split; [by left|done].
Qed.

(** An element that shares its key with no other is the only one to
    write under it. *)
Lemma last_write_own l x :
  x ∈ l -> (forall z, z ∈ l -> k z = k x -> z = x) ->
  last_write k step l (k x) = step x.
Proof.
  induction l as [|y l IH]; simpl; intros Hx Hown.
  - by apply elem_of_nil in Hx.
  - destruct (last_write k step l (k x)) as [v|] eqn:Hl.
    + destruct (last_write_Some _ _ _ Hl) as (z & Hz & Hk & Hs).
      rewrite (Hown z) in Hs; [done|by right|done].
    + destruct (decide (k y = k x)) as [Heq|Hne].
      * by rewrite (Hown y) by (done || by left).
      * apply elem_of_cons in Hx as [->|Hx]; [done|].
        apply IH; [done|].
        intros z Hz. apply Hown. by right.
Qed.

Section Objects.
Context (g : Obj.object V -> A -> Obj.object V).
Hypothesis g_step : forall o x,
  g o x = match step x with Some v => Obj.set o (k x) v | None => o end.

Lemma fold_left_assigned l : forall o0 key,
  Obj.assigned (fold_left g l o0) key
  = match last_write k step l key with
    | Some v => Some v
    | None => Obj.assigned o0 key
    end.
Proof.
  induction l as [|x l IH]; intros o0 key; simpl; [done|].
  rewrite IH. destruct (last_write k step l key); [done|].
  rewrite g_step. destruct (step x) as [v|].
  - rewrite assigned_set. by destruct (decide (k x = key)).
  - by destruct (decide (k x = key)).
Qed.

End Objects.

Section Primitives.
Context (g : gmap string V -> A -> gmap string V).
Hypothesis g_step : forall m x,
  g m x = match step x with Some v => Obj.set_primitive m (k x) v | None => m end.


(** The key [__proto__] is never stored. *)
Lemma fold_left_set_primitive_proto l : forall m0,
  fold_left g l m0 !! "__proto__" = m0 !! "__proto__".
Proof.
  induction l as [|x l IH]; intros m0; simpl; [done|].
  rewrite IH, g_step. unfold Obj.set_primitive.
  destruct (step x) as [v|]; [|done].
  destruct (decide (k x = "__proto__")) as [|Hne]; [done|].
  by rewrite lookup_insert_ne.
Qed.

End Primitives.

End LastWrite.

Section LastWriteKey.
Context {A V : Type} (k : A -> string) (step : A -> option V).

(** When what is written depends on the key alone, every element of a
    key writes the same. *)
Lemma last_write_key l x :
  (forall y z, k y = k z -> step y = step z) ->
  x ∈ l -> last_write k step l (k x) = step x.
Proof.
  intros Hfun. induction l as [|y l IH]; simpl; intros Hx.
  - by apply elem_of_nil in Hx.
  - destruct (last_write k step l (k x)) as [v|] eqn:Hl.
    + destruct (last_write_Some _ _ _ _ _ Hl) as (z & _ & Hk & <-).
      by apply Hfun.
    + destruct (decide (k y = k x)) as [Heq|Hne]; [by apply Hfun|].
      apply elem_of_cons in Hx as [->|Hx]; [done|]. by apply IH.
Qed.

Lemma last_write_None l key :
  (forall x, x ∈ l -> k x = key -> step x = None) ->
  last_write k step l key = None.
Proof.
  intros Hnone.
  destruct (last_write k step l key) as [v|] eqn:Hl; [|done].
  destruct (last_write_Some _ _ _ _ _ Hl) as (z & Hz & Hk & Hs).
  by rewrite (Hnone z Hz Hk) in Hs.
Qed.

End LastWriteKey.

(** ** [StockDataLoader] *)

Section StockDataLoaderFacts.
Import StockDataLoader.

Variable parseFloat_str : string -> number.

Local Abbreviation found_cell := (found_cell parseFloat_str).

Lemma at2_key tbl date date' symbol symbol' :
  key date = key date' -> key symbol = key symbol' ->
  at2 tbl date symbol = at2 tbl date' symbol'.
Proof. unfold at2. by intros -> ->. Qed.

Lemma find_record_None raw date symbol :
  find_record raw date symbol = None <->
  forall record, record ∈ raw ->
    ~ (prop record Column.Date = date /\ prop record Column.Symbol = symbol).
Proof.
  unfold find_record. rewrite fmap_None, list_find_None, Forall_forall.
  done.
Qed.

(** *** The pivoted table *)

Lemma pivot_row_assigned raw syms date ks :
  Obj.assigned (fold_left (pivot_symbol parseFloat_str raw date) syms Obj.empty)
               ks
  = last_write key (λ symbol, found_cell <$> find_record raw date symbol)
               syms ks.
Proof.
  rewrite (fold_left_assigned key
             (λ symbol, found_cell <$> find_record raw date symbol)).
  - rewrite assigned_empty. by destruct (last_write _ _ _ _).
  - intros o x. unfold pivot_symbol. by destruct (find_record raw date x).
Qed.

Lemma pivot_assigned raw syms ds kd :
  Obj.assigned (pivot parseFloat_str raw syms ds) kd
  = last_write key
      (λ date, Some (fold_left (pivot_symbol parseFloat_str raw date) syms
                       Obj.empty))
      ds kd.
Proof.
  unfold pivot.
  rewrite (fold_left_assigned key
    (λ date, Some (fold_left (pivot_symbol parseFloat_str raw date) syms
                     Obj.empty))).
  - rewrite assigned_empty. by destruct (last_write _ _ _ _).
  - done.
Qed.

(** The loop assigns a row to every date before any read. *)
Lemma pivot_row_of_date raw syms ds date :
  date ∈ ds -> is_Some (Obj.assigned (pivot parseFloat_str raw syms ds)
                          (key date)).
Proof.
  intros Hd. rewrite pivot_assigned.
  destruct (last_write _ _ ds (key date)) eqn:Hl; [eauto|].
  induction ds as [|d ds IH]; [by apply elem_of_nil in Hd|].
  simpl in Hl. destruct (last_write _ _ ds (key date)); [done|].
  destruct (decide (key d = key date)); [done|].
  apply elem_of_cons in Hd as [->|Hd]; [done|]. by apply IH.
Qed.

(** A pivoted cell comes from a record found for a date and a symbol with
    the keys of the cell. *)
Lemma pivot_at2_Stored raw syms ds date symbol c :
  at2 (pivot parseFloat_str raw syms ds) date symbol = Obj.Stored c ->
  exists date' symbol' record,
    date' ∈ ds /\ symbol' ∈ syms /\
    key date' = key date /\ key symbol' = key symbol /\
    find_record raw date' symbol' = Some record /\ c = found_cell record.
Proof.
  unfold at2. rewrite pivot_assigned.
  destruct (last_write _ _ ds _) as [r|] eqn:Hrow; [|done].
  destruct (last_write_Some _ _ _ _ _ Hrow) as (date' & Hd & Hkd & Hr).
  injection Hr as <-. rewrite get_Stored, pivot_row_assigned. intros Hc.
  destruct (last_write_Some _ _ _ _ _ Hc) as (symbol' & Hs & Hks & Hf).
  destruct (find_record raw date' symbol') as [record|] eqn:Hfind; [|done].
  injection Hf as <-. exists date', symbol', record. done.
Qed.

(** For a date and a symbol that share their keys with no other, the
    object assigned to the cell is the one of the record that [find]
    returns. *)
Lemma pivot_at2 raw syms ds date symbol :
  date ∈ ds -> symbol ∈ syms -> own_key ds date -> own_key syms symbol ->
  exists r,
    Obj.assigned (pivot parseFloat_str raw syms ds) (key date) = Some r /\
    at2 (pivot parseFloat_str raw syms ds) date symbol
    = Obj.get r (key symbol) /\
    Obj.assigned r (key symbol) = found_cell <$> find_record raw date symbol.
Proof.
  intros Hd Hs Hdk Hsk. eexists. unfold at2. rewrite pivot_assigned.
  rewrite (last_write_own key _ ds date Hd Hdk). split; [done|].
  split; [done|]. rewrite pivot_row_assigned.
  by rewrite (last_write_own key _ syms symbol Hs Hsk).
Qed.

Lemma pivot_at2_found raw syms ds date symbol record :
  date ∈ ds -> symbol ∈ syms -> own_key ds date -> own_key syms symbol ->
  find_record raw date symbol = Some record ->
  at2 (pivot parseFloat_str raw syms ds) date symbol
  = Obj.Stored (found_cell record).
Proof.
  intros Hd Hs Hdk Hsk Hf.
  destruct (pivot_at2 raw syms ds date symbol Hd Hs Hdk Hsk)
    as (r & _ & -> & Hr).
  apply get_assigned. by rewrite Hr, Hf.
Qed.

Lemma pivot_at2_missing raw syms ds date symbol :
  date ∈ ds -> symbol ∈ syms -> own_key ds date -> own_key syms symbol ->
  ordinary (key symbol) ->
  find_record raw date symbol = None ->
  at2 (pivot parseFloat_str raw syms ds) date symbol = Obj.Undefined.
Proof.
  intros Hd Hs Hdk Hsk Hord Hf.
  destruct (pivot_at2 raw syms ds date symbol Hd Hs Hdk Hsk)
    as (r & _ & -> & Hr).
  apply get_Undefined.
  - by rewrite Hr, Hf.
  - by apply ordinary_proto.
  - by apply ordinary_prototype_names.
  - intros p. by apply ordinary_OC.
Qed.

(** *** The statistics *)

Lemma observed_key f pivoted ds symbol symbol' :
  key symbol = key symbol' ->
  observed f pivoted ds symbol = observed f pivoted ds symbol'.
Proof.
  intros Hk. unfold observed.
  induction ds as [|d ds IH]; csimpl; [done|].
  rewrite (at2_key pivoted d d symbol symbol' eq_refl Hk). by rewrite IH.
Qed.

Lemma stats_step_key pivoted ds symbol symbol' :
  key symbol = key symbol' ->
  stats_step pivoted ds symbol = stats_step pivoted ds symbol'.
Proof.
  intros Hk. unfold stats_step.
  by rewrite (observed_key Open _ _ _ _ Hk), (observed_key Close _ _ _ _ Hk).
Qed.

Lemma stockStats_assigned pivoted syms ds ks :
  Obj.assigned (stockStats_of pivoted syms ds) ks
  = last_write key (stats_step pivoted ds) syms ks.
Proof.
  unfold stockStats_of.
  rewrite (fold_left_assigned key (stats_step pivoted ds)).
  - rewrite assigned_empty. by destruct (last_write _ _ _ _).
  - intros o x. unfold stats_symbol, stats_step. cbv zeta.
    by destruct (_ && _).
Qed.

(** The statistics assigned under the key of a symbol of the axis are
    those of its own observations. *)
Lemma stockStats_of_symbol pivoted syms ds symbol :
  symbol ∈ syms ->
  Obj.assigned (stockStats_of pivoted syms ds) (key symbol)
  = stats_step pivoted ds symbol.
Proof.
  intros Hs. rewrite stockStats_assigned.
  apply last_write_key; [|done]. apply stats_step_key.
Qed.

(** *** The normalised table *)

Lemma normalize_step_key pivoted stockStats date date' symbol symbol' :
  key date = key date' -> key symbol = key symbol' ->
  normalize_step pivoted stockStats date symbol
  = normalize_step pivoted stockStats date' symbol'.
Proof.
  intros Hd Hs. unfold normalize_step.
  by rewrite (at2_key pivoted date date' symbol symbol' Hd Hs), Hs.
Qed.

Lemma normalize_row_assigned pivoted stockStats syms date ks :
  Obj.assigned
    (fold_left (normalize_symbol pivoted stockStats date) syms Obj.empty) ks
  = last_write key (normalize_step pivoted stockStats date) syms ks.
Proof.
  rewrite (fold_left_assigned key (normalize_step pivoted stockStats date)).
  - rewrite assigned_empty. by destruct (last_write _ _ _ _).
  - intros o x. unfold normalize_symbol, normalize_step. cbv zeta.
    by destruct (_ && _).
Qed.

Lemma normalize_row_key pivoted stockStats syms date date' :
  key date = key date' ->
  fold_left (normalize_symbol pivoted stockStats date) syms Obj.empty
  = fold_left (normalize_symbol pivoted stockStats date') syms Obj.empty.
Proof.
  intros Hk. generalize (@Obj.empty OC).
  induction syms as [|s syms IH]; intros o; simpl; [done|].
  rewrite IH. f_equal. unfold normalize_symbol.
  by rewrite (at2_key pivoted date date' s s Hk eq_refl).
Qed.

Lemma normalizeData_assigned pivoted syms ds kd :
  Obj.assigned (normalizeData pivoted syms ds) kd
  = last_write key
      (λ date, Some (fold_left
         (normalize_symbol pivoted (stockStats_of pivoted syms ds) date) syms
         Obj.empty)) ds kd.
Proof.
  unfold normalizeData.
  rewrite (fold_left_assigned key
    (λ date, Some (fold_left
       (normalize_symbol pivoted (stockStats_of pivoted syms ds) date) syms
       Obj.empty))) by done.
  rewrite assigned_empty. by destruct (last_write _ _ _ _).
Qed.

(** The row of a date of the axis and the object assigned for a symbol
    of the axis in the normalised table: key collisions do no harm,
    because what is written depends on the keys alone. *)
Lemma normalizeData_at2 pivoted syms ds date symbol :
  date ∈ ds -> symbol ∈ syms ->
  exists r,
    Obj.assigned (normalizeData pivoted syms ds) (key date) = Some r /\
    at2 (normalizeData pivoted syms ds) date symbol = Obj.get r (key symbol) /\
    Obj.assigned r (key symbol)
    = normalize_step pivoted (stockStats_of pivoted syms ds) date symbol.
Proof.
  intros Hd Hs. eexists. unfold at2. rewrite normalizeData_assigned.
  rewrite (last_write_key key _ ds date); [|
    intros d d' Hk; f_equal; by apply normalize_row_key|done].
  split; [done|]. split; [done|].
  rewrite normalize_row_assigned.
  apply last_write_key; [|done].
  intros s s' Hk. by apply normalize_step_key.
Qed.

(** A normalised cell is assigned only by the test [data &&
    stockStats[symbol]] of a date and a symbol with the keys of the
    cell. *)
Lemma normalizeData_at2_Stored pivoted syms ds date symbol c :
  at2 (normalizeData pivoted syms ds) date symbol = Obj.Stored c ->
  exists date' symbol',
    date' ∈ ds /\ symbol' ∈ syms /\
    key date' = key date /\ key symbol' = key symbol /\
    normalize_step pivoted (stockStats_of pivoted syms ds) date' symbol'
    = Some c.
Proof.
  unfold at2. rewrite normalizeData_assigned.
  destruct (last_write _ _ ds _) as [r|] eqn:Hrow; [|done].
  destruct (last_write_Some _ _ _ _ _ Hrow) as (date' & Hd & Hkd & Hr).
  injection Hr as <-. rewrite get_Stored, normalize_row_assigned. intros Hc.
  destruct (last_write_Some _ _ _ _ _ Hc) as (symbol' & Hs & Hks & Hf).
  exists date', symbol'. done.
Qed.

(** *** Shapes of the sequences and targets *)

Lemma starts_length ds :
  length (starts ds) = (length ds - sequenceLength - predictionHorizon)%nat.
Proof. unfold starts. by rewrite length_seq. Qed.

Lemma features_length g : length (features g) = 2%nat.
Proof. destruct g as [c|n| |]; simpl; [done| |done..]. by destruct (truthy n). Qed.

Lemma featureVector_length nd syms date :
  length (featureVector nd syms date) = (2 * length syms)%nat.
Proof.
  unfold featureVector. rewrite (flat_map_uniform_length 2); [lia|].
  intros symbol. apply features_length.
Qed.

Lemma sequence_shape nd syms ds i :
  length (sequence nd syms ds i) = sequenceLength /\
  Forall (λ v, length v = (2 * length syms)%nat) (sequence nd syms ds i).
Proof.
  unfold sequence. split.
  - by rewrite length_map, length_seq.
  - apply Forall_fmap, Forall_forall. intros j _. simpl.
    apply featureVector_length.
Qed.

Lemma target_length nd syms ds i :
  length (target nd syms ds i) = (predictionHorizon * length syms)%nat.
Proof.
  unfold target. rewrite (flat_map_uniform_length (length syms)).
  - by rewrite length_seq.
  - intros offset. by rewrite length_map.
Qed.


(** *** The current closes *)



(** *** The outcome of [parseCSV] *)

Lemma sequences_nil nd syms ds :
  sequences nd syms ds = [] <-> (length ds <= 15)%nat.
Proof.
  unfold sequences. rewrite <- length_zero_iff_nil, length_map, starts_length.
  unfold sequenceLength, predictionHorizon. lia.
Qed.

Lemma tensor3d_sequences nd syms ds :
  tf.tensor3d (sequences nd syms ds)
  = if decide (length ds <= 15)%nat
    then Throw (Error "tensor3d() requires shape to be provided when `values` are a flat array")
    else Ok (sequences nd syms ds).
Proof.
  destruct (decide (length ds <= 15)%nat) as [Hle|Hgt].
  - by rewrite (proj2 (sequences_nil nd syms ds) Hle).
  - unfold sequences, starts.
    destruct (length ds - sequenceLength - predictionHorizon)%nat eqn:Hn.
    { unfold sequenceLength, predictionHorizon in Hn. lia. }
    reflexivity.
Qed.

Lemma tensor2d_targets nd syms ds :
  (15 < length ds)%nat ->
  tf.tensor2d (targets nd syms ds) = Ok (targets nd syms ds).
Proof.
  intros Hgt. unfold targets, starts.
  destruct (length ds - sequenceLength - predictionHorizon)%nat eqn:Hn.
  { unfold sequenceLength, predictionHorizon in Hn. lia. }
  reflexivity.
Qed.

(** The fields that [parseCSV] assigns before the tensors are made. *)
Lemma parseCSV_loader this csvText :
  let raw := parse_records csvText in
  let syms := sort_opt (set_of (map (λ d, prop d Column.Symbol) raw)) in
  let ds := sort_opt (set_of (map (λ d, prop d Column.Date) raw)) in
  let S := loader_of (parseCSV parseFloat_str this csvText) in
  rawData S = raw /\ symbols S = syms /\ dates S = ds /\
  normalizedData S
  = normalizeData (pivot parseFloat_str raw syms ds) syms ds.
Proof.
  cbv zeta. unfold parseCSV, prepareData, createSequences.
  cbn [rawData normalizedData symbols dates X y X_train y_train X_test y_test].
  rewrite tensor3d_sequences.
  destruct (decide _) as [Hle|Hgt]; [done|].
  rewrite tensor2d_targets by lia. done.
Qed.

(** With at most [12 + 3] dates no sequence is built, [tf.tensor3d]
    throws, and the tensors and the four parts are left as they were. *)
Lemma parseCSV_Failed this csvText :
  let S := loader_of (parseCSV parseFloat_str this csvText) in
  (length (dates S) <= 15)%nat ->
  parseCSV parseFloat_str this csvText
  = Failed (Error "tensor3d() requires shape to be provided when `values` are a flat array") S /\
  X S = X this /\ y S = y this /\
  X_train S = X_train this /\ y_train S = y_train this /\
  X_test S = X_test this /\ y_test S = y_test this.
Proof.
  cbv zeta. unfold parseCSV, prepareData, createSequences.
  cbn [rawData normalizedData symbols dates X y X_train y_train X_test y_test].
  rewrite tensor3d_sequences.
  destruct (decide _) as [Hle|Hgt]; [done|].
  rewrite tensor2d_targets by lia.
  cbn [loader_of splitData set_X set_y X y dates]. intros Hle. lia.
Qed.

(** With more dates the tensors hold the two arrays, and [splitData]
    takes the first [splitIndex] samples for training. *)
Lemma parseCSV_Done this csvText :
  let S := loader_of (parseCSV parseFloat_str this csvText) in
  let Xs := sequences (normalizedData S) (symbols S) (dates S) in
  let ys := targets (normalizedData S) (symbols S) (dates S) in
  (15 < length (dates S))%nat ->
  parseCSV parseFloat_str this csvText = Done S /\
  X S = Some Xs /\ y S = Some ys /\
  X_train S = Some (take (splitIndex (length Xs)) Xs) /\
  y_train S = Some (take (splitIndex (length Xs)) ys) /\
  X_test S = Some (drop (splitIndex (length Xs)) Xs) /\
  y_test S = Some (drop (splitIndex (length Xs)) ys).
Proof.
  cbv zeta. unfold parseCSV, prepareData, createSequences.
  cbn [rawData normalizedData symbols dates X y X_train y_train X_test y_test].
  rewrite tensor3d_sequences.
  destruct (decide _) as [Hle|Hgt]; [cbn [loader_of dates]; lia|].
  rewrite tensor2d_targets by lia. done.
Qed.

End StockDataLoaderFacts.

Lemma parsed_eq csvText :
  loader_of (StockDataLoader.parseCSV digits_to_number
               StockDataLoader.constructor csvText)
  = parsed csvText.
Proof. reflexivity. Qed.

(** ** [DataLoader]: the dataset returned by [buildDataset] *)

Section DataLoaderDataset.
Import DataLoader.

Lemma slice_slice_from {A} (a : list A) i :
  slice a (Int 0) i ++ slice_from a i = a.
Proof.
  unfold slice, slice_from.
  replace (rel_index (length a) (Int 0)) with 0%nat.
  - rewrite drop_0, Nat.sub_0_r. apply take_drop.
  - simpl. lia.
Qed.

Lemma slice_nil {A} i j : slice (@nil A) i j = [].
Proof. unfold slice. by rewrite drop_nil, take_nil. Qed.

Lemma slice_from_nil {A} i : slice_from (@nil A) i = [].
Proof. unfold slice_from. by rewrite drop_nil. Qed.

(** A returned dataset holds the samples of the loop, in their order. *)
Lemma buildDataset_Ok this windowLen ahead testSplit ds :
  buildDataset this windowLen ahead testSplit = Ok ds ->
  exists Xy,
    samples this windowLen ahead = Ok Xy /\
    X_train ds ++ X_test ds = Xy.*1 /\
    y_train ds ++ y_test ds = Xy.*2.
Proof.
  unfold buildDataset. destruct (negb (ready this)); [done|].
  destruct (samples this windowLen ahead) as [Xy|e]; [|done]. simpl.
  intros [= <-]. exists Xy. simpl. by rewrite !slice_slice_from.
Qed.

Lemma buildDataset_total this windowLen ahead testSplit Xy :
  ready this = true -> samples this windowLen ahead = Ok Xy ->
  exists ds, buildDataset this windowLen ahead testSplit = Ok ds.
Proof.
  intros Hr HXy. unfold buildDataset. rewrite Hr, HXy. simpl. eauto.
Qed.

Variable StringToNumber : string -> number.

(** The fields of the loader after a successful [loadCSV]. *)
Lemma loadCSV_state this csvText this' :
  loadCSV StringToNumber this csvText = Done this' ->
  let data := records StringToNumber csvText in
  exists M0,
    pivot (date_axis data) (symbol_axis data)
          (index_object (symbol_axis data)) data = (Ok tt, M0) /\
    symbols this' = symbol_axis data /\
    symbolIndex this' = index_object (symbol_axis data) /\
    dates this' = date_axis data /\
    min this' = stats Math_min (symbol_axis data) M0 /\
    max this' = stats Math_max (symbol_axis data) M0 /\
    dataMatrix this'
      = Some (normalize_matrix (symbol_axis data) (min this') (max this') M0) /\
    ready this' = true.
Proof.
  intros H. destruct (loadCSV_Done _ _ _ _ H) as (M0 & Hp & ->).
  exists M0. by split_and!.
Qed.

Lemma loadCSV_shaped this csvText this' :
  loadCSV StringToNumber this csvText = Done this' ->
  exists M, dataMatrix this' = Some M /\
            shaped (length (dates this')) (length (symbols this')) M.
Proof.
  intros H.
  destruct (loadCSV_state _ _ _ H) as (M0 & Hp & -> & _ & -> & _ & _ & -> & _).
  eexists. split; [done|].
  by apply normalize_matrix_shaped, pivot_shaped.
Qed.

End DataLoaderDataset.

(** * The claims *)

(** C10. In [DataLoader] the labels are computed from the normalised
    closes. For a symbol whose close statistics are degenerate
    ([max[sym].close === min[sym].close]), every normalised close of the
    symbol is the fallback [0.5], and in every sample returned by
    [buildDataset] every label entry of the symbol is [0]. *)
Theorem C10_degenerate_close_labels_zero
    (StringToNumber : string -> number) this csvText this'
    (s : nat) sym lo hi windowLen ahead testSplit ds :
  DataLoader.loadCSV StringToNumber this csvText = DataLoader.Done this' ->
  DataLoader.symbols this' !! s = Some sym ->
  DataLoader.min this' !! sym = Some lo ->
  DataLoader.max this' !! sym = Some hi ->
  strict_eq (DataLoader.close hi) (DataLoader.close lo) = true ->
  DataLoader.buildDataset this' windowLen ahead testSplit = Ok ds ->
  (forall d c, cell_at (default [] (DataLoader.dataMatrix this')) d s = Some c ->
               DataLoader.close c = num_half) /\
  (forall lab (t : nat),
     lab ∈ DataLoader.y_train ds ++ DataLoader.y_test ds ->
     (t < Z.to_nat ahead)%nat ->
     lab !! (s * Z.to_nat ahead + t)%nat = Some num_0).
Proof.
  intros Hload Hs Hlo Hhi Heq Hds.
  destruct (loadCSV_state _ _ _ _ Hload)
    as (M0 & _ & Hsyms & _ & _ & _ & _ & HM & _).
  assert (forall d c,
    cell_at (default [] (DataLoader.dataMatrix this')) d s = Some c ->
    DataLoader.close c = num_half) as Hhalf.
  { intros d c. rewrite HM. simpl. rewrite normalize_matrix_cell.
    destruct (cell_at M0 d s) as [c0|]; [|done]. simpl. intros [= <-].
    unfold DataLoader.normalize_cell. rewrite <- Hsyms, Hs, Hlo, Hhi. simpl.
    by apply _scale_degenerate. }
  split; [exact Hhalf|].
  intros lab t Hlab Ht.
  destruct (buildDataset_Ok _ _ _ _ _ Hds) as (Xy & HXy & _ & Hy).
  rewrite Hy in Hlab. apply list_elem_of_fmap in Hlab as ([x lab'] & -> & Hin).
  apply list_elem_of_lookup_1 in Hin as [k Hk]. simpl.
  destruct (samples_lookup _ _ _ _ _ _ _ HXy Hk) as (_ & _ & Hl).
  destruct (label_lookup _ _ _ _ _ s t Hl) as (cD & cF & HcD & HcF & ->);
    [by eapply lookup_lt_Some|done|].
  apply cell_Ok in HcD as [_ HcD], HcF as [_ HcF].
  by rewrite (Hhalf _ _ HcD), (Hhalf _ _ HcF).
Qed.

(** The close of [B] is constant in [csv20_flat]: all its labels are [0]. *)
Lemma C10_witness :
  let this' := loaded Inputs.csv20_flat in
  let ds := dataset_of (DataLoader.buildDataset this' 12 3
                          DataLoader.default_testSplit) in
  DataLoader.loadCSV digits_to_number DataLoader.constructor Inputs.csv20_flat
    = DataLoader.Done this' /\
  DataLoader.buildDataset this' 12 3 DataLoader.default_testSplit = Ok ds /\
  (forall d c, cell_at (default [] (DataLoader.dataMatrix this')) d 1 = Some c ->
               DataLoader.close c = num_half) /\
  (forall lab (t : nat),
     lab ∈ DataLoader.y_train ds ++ DataLoader.y_test ds ->
     (t < 3)%nat -> lab !! (1 * 3 + t)%nat = Some num_0).
Proof.
  intros this' ds.
  assert (DataLoader.loadCSV digits_to_number DataLoader.constructor
            Inputs.csv20_flat = DataLoader.Done this') as Hload
    by (vm_compute; reflexivity).
  assert (DataLoader.buildDataset this' 12 3 DataLoader.default_testSplit
          = Ok ds) as Hds by (vm_compute; reflexivity).
  split; [exact Hload|]. split; [exact Hds|].
  refine (C10_degenerate_close_labels_zero digits_to_number
            DataLoader.constructor Inputs.csv20_flat this' 1 "B"
            (default DataLoader.missing_cell (DataLoader.min this' !! "B"))
            (default DataLoader.missing_cell (DataLoader.max this' !! "B"))
            12 3 DataLoader.default_testSplit ds Hload _ _ _ _ Hds);
    vm_compute; reflexivity.
Defined.

(** C1. After a successful [loadCSV], [buildDataset] with a window of at
    least one day and a non-negative horizon returns one sample per anchor
    [d] with [windowLen <= d] and [d + ahead < |dates|], that is
    [|dates| - windowLen - ahead] samples; each feature sequence has
    [windowLen] rows of [2 * |symbols|] numbers and each label vector has
    [|symbols| * ahead] entries. [StockDataLoader.parseCSV] builds
    [|dates| - 12 - 3] sequences of 12 rows of [2 * |symbols|] elements and
    as many targets of [3 * |symbols|] entries; when there is at least one,
    it completes and the two arrays are its [X] and [y]. *)
Theorem C1_sample_count_and_shapes
    (StringToNumber parseFloat_str : string -> number)
    this csvText this' windowLen ahead testSplit this0 csvText' :
  (DataLoader.loadCSV StringToNumber this csvText = DataLoader.Done this' ->
   1 <= windowLen -> 0 <= ahead ->
   let datesLen := length (DataLoader.dates this') in
   let symbolN := length (DataLoader.symbols this') in
   exists ds Xy,
     DataLoader.buildDataset this' windowLen ahead testSplit = Ok ds /\
     DataLoader.samples this' windowLen ahead = Ok Xy /\
     DataLoader.X_train ds ++ DataLoader.X_test ds = Xy.*1 /\
     DataLoader.y_train ds ++ DataLoader.y_test ds = Xy.*2 /\
     length Xy = Z.to_nat (Z.of_nat datesLen - windowLen - ahead) /\
     (forall d, d ∈ DataLoader.anchors datesLen windowLen ahead
                <-> windowLen <= d /\ d + ahead < Z.of_nat datesLen) /\
     (forall (k : nat) x lab, Xy !! k = Some (x, lab) ->
        windowLen + Z.of_nat k ∈ DataLoader.anchors datesLen windowLen ahead /\
        seq_shape (Z.to_nat windowLen) (2 * symbolN) x /\
        length lab = (symbolN * Z.to_nat ahead)%nat)) /\
  (let S := loader_of (StockDataLoader.parseCSV parseFloat_str this0 csvText') in
   let n := length (StockDataLoader.symbols S) in
   let Xs := StockDataLoader.sequences (StockDataLoader.normalizedData S)
               (StockDataLoader.symbols S) (StockDataLoader.dates S) in
   let ys := StockDataLoader.targets (StockDataLoader.normalizedData S)
               (StockDataLoader.symbols S) (StockDataLoader.dates S) in
   length Xs = (length (StockDataLoader.dates S) - 12 - 3)%nat /\
   length ys = (length (StockDataLoader.dates S) - 12 - 3)%nat /\
   Forall (seq_shape 12 (2 * n)) Xs /\
   Forall (λ tgt, length tgt = (3 * n)%nat) ys /\
   ((0 < length (StockDataLoader.dates S) - 12 - 3)%nat ->
    StockDataLoader.parseCSV parseFloat_str this0 csvText'
    = StockDataLoader.Done S /\
    StockDataLoader.X S = Some Xs /\ StockDataLoader.y S = Some ys)).
Proof.
  split.
  - intros Hload Hw Ha datesLen symbolN.
    destruct (loadCSV_shaped _ _ _ _ Hload) as (M & HM & Hsh).
    destruct (loadCSV_state _ _ _ _ Hload) as (_ & _ & _ & _ & _ & _ & _ & _ & Hr).
    destruct (samples_total _ _ _ _ HM Hsh Hw Ha) as [Xy HXy].
    destruct (buildDataset_total _ _ _ testSplit _ Hr HXy) as [ds Hds].
    destruct (buildDataset_Ok _ _ _ _ _ Hds) as (Xy' & HXy' & HX & Hy).
    assert (Xy' = Xy) as -> by congruence.
    exists ds, Xy. split_and!; try done.
    + pose proof (mapM_Ok_length _ _ _ HXy) as ->.
      apply anchors_length.
    + apply anchors_elem.
    + intros k x lab Hk.
      destruct (samples_lookup _ _ _ _ _ _ _ HXy Hk) as (Hd & Hx & Hl).
      split; [exact Hd|]. split.
      * by eapply xSeq_shape.
      * by eapply label_length.
  - cbv zeta. unfold StockDataLoader.sequences, StockDataLoader.targets.
    rewrite !length_map, !starts_length. split_and!; try done.
    + apply Forall_fmap, Forall_forall. intros i _.
      apply sequence_shape.
    + apply Forall_fmap, Forall_forall. intros i _. simpl.
      apply target_length.
    + intros Hn.
      destruct (parseCSV_Done parseFloat_str this0 csvText' ltac:(lia))
        as (HD & HX & Hy & _).
      done.
Qed.

(** Two symbols on 20 consecutive trading days, [windowLen = 12] and
    [horizon = 3]: 5 samples of shape 12 x 4 with labels of length 6, in
    both loaders. *)
Lemma C1_witness :
  let this' := loaded Inputs.csv20 in
  let S := parsed Inputs.csv20 in
  let Xs := StockDataLoader.sequences (StockDataLoader.normalizedData S)
              (StockDataLoader.symbols S) (StockDataLoader.dates S) in
  let ys := StockDataLoader.targets (StockDataLoader.normalizedData S)
              (StockDataLoader.symbols S) (StockDataLoader.dates S) in
  DataLoader.loadCSV digits_to_number DataLoader.constructor Inputs.csv20
    = DataLoader.Done this' /\
  (exists ds,
     DataLoader.buildDataset this' 12 3 DataLoader.default_testSplit = Ok ds /\
     length (DataLoader.X_train ds ++ DataLoader.X_test ds) = 5%nat /\
     length (DataLoader.y_train ds ++ DataLoader.y_test ds) = 5%nat /\
     Forall (seq_shape 12 4) (DataLoader.X_train ds ++ DataLoader.X_test ds) /\
     Forall (λ lab, length lab = 6%nat)
            (DataLoader.y_train ds ++ DataLoader.y_test ds)) /\
  length Xs = 5%nat /\
  length ys = 5%nat /\
  Forall (seq_shape 12 4) Xs /\
  Forall (λ tgt, length tgt = 6%nat) ys /\
  StockDataLoader.parseCSV digits_to_number StockDataLoader.constructor
    Inputs.csv20 = StockDataLoader.Done S /\
  StockDataLoader.X S = Some Xs /\ StockDataLoader.y S = Some ys.
Proof.
  intros this' S Xs ys.
  assert (DataLoader.loadCSV digits_to_number DataLoader.constructor
            Inputs.csv20 = DataLoader.Done this') as Hload
    by (vm_compute; reflexivity).
  assert (length (DataLoader.dates this') = 20%nat) as Hd
    by (vm_compute; reflexivity).
  assert (length (DataLoader.symbols this') = 2%nat) as Hs
    by (vm_compute; reflexivity).
  assert (length (StockDataLoader.symbols S) = 2%nat) as Hn
    by (vm_compute; reflexivity).
  assert (length (StockDataLoader.dates S) = 20%nat) as Hm
    by (vm_compute; reflexivity).
  pose proof (C1_sample_count_and_shapes digits_to_number digits_to_number
                DataLoader.constructor Inputs.csv20 this' 12 3
                DataLoader.default_testSplit StockDataLoader.constructor
                Inputs.csv20) as [HD HS].
  specialize (HD Hload ltac:(lia) ltac:(lia)).
  cbv zeta in HD, HS. rewrite !parsed_eq in HS. fold S in HS.
  fold Xs in HS. fold ys in HS.
  rewrite Hd, Hs in HD. rewrite Hn, Hm in HS.
  clearbody Xs ys. clearbody this' S.
  destruct HD as (ds & Xy & Hds & _ & HX & Hy & Hlen & _ & Hshape).
  destruct HS as (HS1 & HS2 & HS3 & HS4 & HS5).
  destruct (HS5 ltac:(lia)) as (HS6 & HS7 & HS8).
  split; [exact Hload|].
  split; [|split; [exact HS1|]; split; [exact HS2|]; split; [exact HS3|];
           split; [exact HS4|]; split; [exact HS6|]; split;
           [exact HS7|exact HS8]].
  exists ds. rewrite HX, Hy, !length_fmap.
  split; [exact Hds|]. split; [exact Hlen|]. split; [exact Hlen|]. split.
  - apply Forall_fmap, Forall_lookup. intros k [x lab] Hk.
    exact (proj1 (proj2 (Hshape _ _ _ Hk))).
  - apply Forall_fmap, Forall_lookup. intros k [x lab] Hk.
    exact (proj2 (proj2 (Hshape _ _ _ Hk))).
Defined.

(** C7, as the code has it. With fewer than [windowLen + ahead] dates the
    sample loop of a loaded [DataLoader] yields no sample, and
    [buildDataset] returns, for every split fraction, a dataset whose four
    arrays are empty: no error is raised. From fewer than [12 + 3] dates
    [StockDataLoader] builds no sequence and no target and does not reach
    [splitData]: [tf.tensor3d] throws its [Error] on the empty array, and
    the tensors and the four parts of the loader are left as they were. *)
Theorem C7_insufficient_data_empty_dataset
    (parseFloat_str : string -> number) this windowLen ahead testSplit
    this0 csvText' :
  (DataLoader.ready this = true ->
   Z.of_nat (length (DataLoader.dates this)) < windowLen + ahead ->
   DataLoader.samples this windowLen ahead = Ok [] /\
   DataLoader.buildDataset this windowLen ahead testSplit
   = Ok {| DataLoader.X_train := []; DataLoader.y_train := [];
           DataLoader.X_test := []; DataLoader.y_test := [];
           DataLoader.symbolNames := DataLoader.symbols this |}) /\
  (let S := loader_of (StockDataLoader.parseCSV parseFloat_str this0 csvText') in
   (length (StockDataLoader.dates S) < 12 + 3)%nat ->
   StockDataLoader.sequences (StockDataLoader.normalizedData S)
     (StockDataLoader.symbols S) (StockDataLoader.dates S) = [] /\
   StockDataLoader.targets (StockDataLoader.normalizedData S)
     (StockDataLoader.symbols S) (StockDataLoader.dates S) = [] /\
   StockDataLoader.parseCSV parseFloat_str this0 csvText'
   = StockDataLoader.Failed
       (Error "tensor3d() requires shape to be provided when `values` are a flat array")
       S /\
   StockDataLoader.X S = StockDataLoader.X this0 /\
   StockDataLoader.y S = StockDataLoader.y this0 /\
   StockDataLoader.X_train S = StockDataLoader.X_train this0 /\
   StockDataLoader.y_train S = StockDataLoader.y_train this0 /\
   StockDataLoader.X_test S = StockDataLoader.X_test this0 /\
   StockDataLoader.y_test S = StockDataLoader.y_test this0).
Proof.
  split.
  - intros Hr Hlen.
    assert (DataLoader.samples this windowLen ahead = Ok []) as Hs.
    { unfold DataLoader.samples, DataLoader.anchors.
      replace (seqZ _ _) with (@nil Z); [done|].
      symmetry. apply length_zero_iff_nil. rewrite length_seqZ. lia. }
    split; [exact Hs|].
    unfold DataLoader.buildDataset. rewrite Hr, Hs.
    cbv beta iota delta [negb bind]. cbn [fmap list_fmap length].
    by rewrite !slice_nil, !slice_from_nil.
  - cbv zeta. intros Hd.
    destruct (parseCSV_Failed parseFloat_str this0 csvText' ltac:(lia))
      as (HF & HX & Hy & H1 & H2 & H3 & H4).
    split_and!; try done.
    + apply sequences_nil. lia.
    + unfold StockDataLoader.targets, StockDataLoader.starts.
      replace (_ - StockDataLoader.sequenceLength
                 - StockDataLoader.predictionHorizon)%nat with 0%nat
        by (unfold StockDataLoader.sequenceLength,
              StockDataLoader.predictionHorizon; lia).
      done.
Qed.

(** Two symbols on 10 days, with the defaults 12 and 3. *)
Lemma C7_witness :
  let this := loaded Inputs.csv10 in
  let S := parsed Inputs.csv10 in
  DataLoader.ready this = true /\
  Z.of_nat (length (DataLoader.dates this)) < 12 + 3 /\
  DataLoader.buildDataset this 12 3 DataLoader.default_testSplit
  = Ok {| DataLoader.X_train := []; DataLoader.y_train := [];
          DataLoader.X_test := []; DataLoader.y_test := [];
          DataLoader.symbolNames := DataLoader.symbols this |} /\
  (length (StockDataLoader.dates S) < 12 + 3)%nat /\
  StockDataLoader.parseCSV digits_to_number StockDataLoader.constructor
    Inputs.csv10
  = StockDataLoader.Failed
      (Error "tensor3d() requires shape to be provided when `values` are a flat array")
      S /\
  StockDataLoader.X S = None /\ StockDataLoader.X_train S = None.
Proof.
  intros this S.
  assert (DataLoader.ready this = true) as Hr by (vm_compute; reflexivity).
  assert (Z.of_nat (length (DataLoader.dates this)) < 12 + 3) as Hlen
    by (vm_compute; reflexivity).
  assert (length (StockDataLoader.dates S) < 12 + 3)%nat as Hd
    by (vm_compute; lia).
  pose proof (C7_insufficient_data_empty_dataset digits_to_number this 12 3
                DataLoader.default_testSplit StockDataLoader.constructor
                Inputs.csv10) as [HD HS].
  cbv zeta in HS. rewrite !parsed_eq in HS. fold S in HS.
  clearbody this S.
  destruct (HD Hr Hlen) as [_ Hb].
  destruct (HS Hd) as (_ & _ & HF & HX & _ & HXt & _).
  split; [exact Hr|]. split; [exact Hlen|]. split; [exact Hb|].
  split; [exact Hd|]. split; [exact HF|]. split; [exact HX|exact HXt].
Defined.

(** C7 as stated fails: on 10 dates [buildDataset()] returns normally,
    with empty training and test arrays. *)
Lemma C7_counterexample :
  length (DataLoader.dates (loaded Inputs.csv10)) = 10%nat /\
  DataLoader.ready (loaded Inputs.csv10) = true /\
  DataLoader.buildDataset (loaded Inputs.csv10) DataLoader.default_windowLen
    DataLoader.default_ahead DataLoader.default_testSplit
  = Ok {| DataLoader.X_train := []; DataLoader.y_train := [];
          DataLoader.X_test := []; DataLoader.y_test := [];
          DataLoader.symbolNames := ["A"; "B"] |}.
Proof. vm_compute. done. Qed.

(** C6, as the code has it. When the header row lacks one of [Date],
    [Symbol], [Open], [Close], [DataLoader.loadCSV] throws an [Error]
    with the fixed message [missing_msg] and leaves the loader as it was:
    no record is parsed and nothing is pivoted. *)
Theorem C6_missing_column_error
    (StringToNumber : string -> number) this csvText h :
  h ∈ DataLoader.required -> h ∉ header_row csvText ->
  DataLoader.loadCSV StringToNumber this csvText
  = DataLoader.Failed (Error DataLoader.missing_msg) this.
Proof.
  intros Hreq Hh. unfold DataLoader.loadCSV, header_row in *.
  destruct (split newline (trim csvText)) as [|line lines] eqn:Hl.
  { by apply split_nonempty in Hl. }
  simpl in Hh.
  change (map (split comma) (line :: lines))
    with (split comma line :: map (split comma) lines).
  cbv beta iota.
  assert (forallb (includes (split comma line)) DataLoader.required = false)
    as ->; [|done].
  apply not_true_is_false. intros Hall.
  apply Hh, includes_elem.
  rewrite forallb_forall in Hall. apply Hall.
  by apply list_elem_of_In.
Qed.

Lemma C6_witness :
  ("Close" ∈ DataLoader.required) /\
  ("Close" ∉ header_row Inputs.csv_noclose) /\
  DataLoader.loadCSV digits_to_number DataLoader.constructor Inputs.csv_noclose
  = DataLoader.Failed (Error DataLoader.missing_msg) DataLoader.constructor.
Proof.
  assert ("Close" ∈ DataLoader.required) as Hreq.
  { unfold DataLoader.required. set_solver. }
  assert ("Close" ∉ header_row Inputs.csv_noclose) as Hh.
  { intros H%includes_elem. vm_compute in H. discriminate H. }
  split; [exact Hreq|]. split; [exact Hh|].
  exact (C6_missing_column_error digits_to_number DataLoader.constructor
           Inputs.csv_noclose "Close" Hreq Hh).
Defined.

(** C6 as stated fails: [StockDataLoader.parseCSV] does not check the
    header, and parses the two records of a file without a [Close]
    column. *)
Lemma C6_counterexample :
  includes (header_row Inputs.csv_noclose) "Close" = false /\
  length (StockDataLoader.rawData (parsed Inputs.csv_noclose)) = 2%nat.
Proof. vm_compute. done. Qed.

(** C8, as the code has it. In [DataLoader] the pivot writes the records
    in input order: the raw cell of a date and a symbol holds the open and
    close of the last record of the pair, and the cell of the loaded
    matrix is its normalisation. In [StockDataLoader] the pivot looks the
    pair up with [find]: for a date and a symbol that share their property
    keys with no other date and symbol of the file, the cell holds the
    values of the first record of the pair. *)
Theorem C8_duplicate_rows
    (StringToNumber parseFloat_str : string -> number)
    this csvText this' this0 csvText' :
  (DataLoader.loadCSV StringToNumber this csvText = DataLoader.Done this' ->
   forall (i : nat) r,
     records StringToNumber csvText !! i = Some r ->
     (forall (j : nat) r', (i < j)%nat ->
        records StringToNumber csvText !! j = Some r' ->
        ~ (DataLoader.date r' = DataLoader.date r /\
           DataLoader.symbol r' = DataLoader.symbol r)) ->
     exists dIdx sIdx M0,
       indexOf (DataLoader.dates this') (DataLoader.date r) = Some dIdx /\
       DataLoader.symbolIndex this' !! DataLoader.symbol r = Some sIdx /\
       DataLoader.pivot (DataLoader.dates this') (DataLoader.symbols this')
         (DataLoader.symbolIndex this') (records StringToNumber csvText)
       = (Ok tt, M0) /\
       cell_at M0 dIdx sIdx = Some (cell_of r) /\
       cell_at (default [] (DataLoader.dataMatrix this')) dIdx sIdx
       = Some (DataLoader.normalize_cell (DataLoader.symbols this')
                 (DataLoader.min this') (DataLoader.max this') sIdx
                 (cell_of r))) /\
  (let S := loader_of (StockDataLoader.parseCSV parseFloat_str this0 csvText') in
   let raw := StockDataLoader.rawData S in
   forall (i : nat) record,
     raw !! i = Some record ->
     (forall (j : nat) record', (j < i)%nat -> raw !! j = Some record' ->
        ~ (StockDataLoader.prop record' StockDataLoader.Column.Date
           = StockDataLoader.prop record StockDataLoader.Column.Date /\
           StockDataLoader.prop record' StockDataLoader.Column.Symbol
           = StockDataLoader.prop record StockDataLoader.Column.Symbol)) ->
     own_key (StockDataLoader.dates S)
       (StockDataLoader.prop record StockDataLoader.Column.Date) ->
     own_key (StockDataLoader.symbols S)
       (StockDataLoader.prop record StockDataLoader.Column.Symbol) ->
     StockDataLoader.at2
       (StockDataLoader.pivot parseFloat_str raw (StockDataLoader.symbols S)
          (StockDataLoader.dates S))
       (StockDataLoader.prop record StockDataLoader.Column.Date)
       (StockDataLoader.prop record StockDataLoader.Column.Symbol)
     = Obj.Stored (found_cell parseFloat_str record)).
Proof.
  split.
  - intros Hload i r Hi Hlast.
    destruct (loadCSV_state _ _ _ _ Hload)
      as (M0 & Hp & -> & -> & -> & _ & _ & -> & _).
    set (data := records StringToNumber csvText) in *.
    pose proof (list_elem_of_lookup_2 _ _ _ Hi) as Hr.
    destruct (indexOf_elem _ _ (date_axis_elem _ _ Hr)) as [dIdx HdIdx].
    destruct (index_object_elem _ _ (symbol_axis_NoDup data)
                (symbol_axis_elem _ _ Hr)) as [sIdx HsIdx].
    assert (cell_at M0 dIdx sIdx = Some (cell_of r)) as Hcell.
    { rewrite (pivot_cell _ _ _ _ _ _ Hp HdIdx HsIdx).
      by rewrite (last_record_at _ _ _ i r Hi eq_refl eq_refl Hlast). }
    exists dIdx, sIdx, M0. split_and!; try done.
    simpl. by rewrite normalize_matrix_cell, Hcell.
  - cbv zeta.
    destruct (parseCSV_loader parseFloat_str this0 csvText')
      as (-> & -> & -> & _).
    set (raw := StockDataLoader.parse_records csvText') in *.
    intros i record Hi Hfirst Hdk Hsk.
    apply pivot_at2_found; try done.
    + rewrite sort_opt_Permutation. apply set_of_elem, list_elem_of_fmap.
      exists record. split; [done|]. by eapply list_elem_of_lookup_2.
    + rewrite sort_opt_Permutation. apply set_of_elem, list_elem_of_fmap.
      exists record. split; [done|]. by eapply list_elem_of_lookup_2.
    + unfold StockDataLoader.find_record.
      assert (list_find
                (λ d, StockDataLoader.prop d StockDataLoader.Column.Date
                      = StockDataLoader.prop record StockDataLoader.Column.Date
                      /\ StockDataLoader.prop d StockDataLoader.Column.Symbol
                      = StockDataLoader.prop record
                          StockDataLoader.Column.Symbol) raw
              = Some (i, record)) as ->; [|done].
      apply list_find_Some. split_and!; try done.
      intros j record' Hj Hlt. by apply (Hfirst j).
Qed.

(** [csv_dup] has two records for [d1] and [A]: the raw cell of
    [DataLoader] holds the last one, the cell of [StockDataLoader] the
    first one. *)
Lemma C8_witness :
  let this' := loaded Inputs.csv_dup in
  let S := parsed Inputs.csv_dup in
  DataLoader.loadCSV digits_to_number DataLoader.constructor Inputs.csv_dup
    = DataLoader.Done this' /\
  (exists dIdx sIdx M0,
     indexOf (DataLoader.dates this') "d1" = Some dIdx /\
     DataLoader.symbolIndex this' !! "A" = Some sIdx /\
     DataLoader.pivot (DataLoader.dates this') (DataLoader.symbols this')
       (DataLoader.symbolIndex this') (records digits_to_number Inputs.csv_dup)
     = (Ok tt, M0) /\
     cell_at M0 dIdx sIdx
     = Some {| DataLoader.open := of_Z 30; DataLoader.close := of_Z 40 |}) /\
  StockDataLoader.at2
    (StockDataLoader.pivot digits_to_number (StockDataLoader.rawData S)
       (StockDataLoader.symbols S) (StockDataLoader.dates S))
    (Some "d1") (Some "A")
  = Obj.Stored
      {| StockDataLoader.Open := of_Z 10; StockDataLoader.Close := of_Z 20 |}.
Proof.
  intros this' S.
  assert (DataLoader.loadCSV digits_to_number DataLoader.constructor
            Inputs.csv_dup = DataLoader.Done this') as Hload
    by (vm_compute; reflexivity).
  assert (records digits_to_number Inputs.csv_dup !! 2%nat
          = Some {| DataLoader.date := "d1"; DataLoader.symbol := "A";
                    DataLoader.row_open := of_Z 30;
                    DataLoader.row_close := of_Z 40 |}) as Hrec
    by (vm_compute; reflexivity).
  assert (length (records digits_to_number Inputs.csv_dup) = 3%nat) as Hlen
    by (vm_compute; reflexivity).
  set (record := default ∅ (StockDataLoader.rawData S !! 0%nat)).
  assert (StockDataLoader.rawData S !! 0%nat = Some record) as Hr
    by (vm_compute; reflexivity).
  assert (StockDataLoader.prop record StockDataLoader.Column.Date = Some "d1")
    as Hd by (vm_compute; reflexivity).
  assert (StockDataLoader.prop record StockDataLoader.Column.Symbol = Some "A")
    as Hs by (vm_compute; reflexivity).
  assert (found_cell digits_to_number record
          = {| StockDataLoader.Open := of_Z 10;
               StockDataLoader.Close := of_Z 20 |}) as Hc
    by (vm_compute; reflexivity).
  pose proof (C8_duplicate_rows digits_to_number digits_to_number
                DataLoader.constructor Inputs.csv_dup this'
                StockDataLoader.constructor Inputs.csv_dup)
    as [HD HS].
  specialize (HD Hload).
  cbv zeta in HS. rewrite !parsed_eq in HS. fold S in HS.
  clearbody record. clearbody this' S.
  split; [exact Hload|]. split.
  - destruct (HD 2%nat _ Hrec)
      as (dIdx & sIdx & M0 & H1 & H2 & H3 & H4 & _).
    + intros j r' Hj Hr'. apply lookup_lt_Some in Hr'. lia.
    + exists dIdx, sIdx, M0. split; [exact H1|]. split; [exact H2|].
      split; [exact H3|exact H4].
  - rewrite <- Hd, <- Hs, <- Hc.
    apply (HS 0%nat record Hr).
    + intros j record' Hj. lia.
    + rewrite Hd. by apply own_key_string.
    + rewrite Hs. by apply own_key_string.
Defined.

(** C8 as stated fails: [StockDataLoader] keeps the first record of a
    duplicated date and symbol. The third record of [csv_dup] is the last
    one for [d1] and [A]; the pivoted cell holds the values of the first. *)
Lemma C8_counterexample :
  let S := parsed Inputs.csv_dup in
  (λ r, (StockDataLoader.prop r StockDataLoader.Column.Date,
         StockDataLoader.prop r StockDataLoader.Column.Symbol,
         StockDataLoader.prop r StockDataLoader.Column.Open,
         StockDataLoader.prop r StockDataLoader.Column.Close))
    <$> StockDataLoader.rawData S
  = [(Some "d1", Some "A", Some "10", Some "20");
     (Some "d2", Some "A", Some "11", Some "21");
     (Some "d1", Some "A", Some "30", Some "40")] /\
  StockDataLoader.at2
    (StockDataLoader.pivot digits_to_number (StockDataLoader.rawData S)
       (StockDataLoader.symbols S) (StockDataLoader.dates S))
    (Some "d1") (Some "A")
  = Obj.Stored
      {| StockDataLoader.Open := of_Z 10; StockDataLoader.Close := of_Z 20 |}.
Proof. vm_compute. done. Qed.




(** C4, as the code has it. For a date and a symbol of the axes without a
    record: in [DataLoader] the raw cell is the missing cell [NaN], its
    normalised open and close are [0.5], and every label that reads the
    cell is [0]; in [StockDataLoader], when the date and the symbol share
    their property keys with no other and the symbol is not a name under
    which the objects inherit a value, the pivoted and the normalised
    tables have no cell for the pair, its two features are padded with
    [0], and every target entry whose future date is this date is [0]. *)
Theorem C4_missing_cell
    (StringToNumber parseFloat_str : string -> number)
    this csvText this' d s dIdx sIdx this0 csvText' date symbol (k : nat) :
  (DataLoader.loadCSV StringToNumber this csvText = DataLoader.Done this' ->
   indexOf (DataLoader.dates this') d = Some dIdx ->
   DataLoader.symbolIndex this' !! s = Some sIdx ->
   (forall r, r ∈ records StringToNumber csvText ->
              ~ (DataLoader.date r = d /\ DataLoader.symbol r = s)) ->
   (exists M0,
      DataLoader.pivot (DataLoader.dates this') (DataLoader.symbols this')
        (DataLoader.symbolIndex this') (records StringToNumber csvText)
      = (Ok tt, M0) /\
      cell_at M0 dIdx sIdx = Some DataLoader.missing_cell) /\
   cell_at (default [] (DataLoader.dataMatrix this')) dIdx sIdx
   = Some {| DataLoader.open := num_half; DataLoader.close := num_half |} /\
   (forall windowLen ahead Xy (i t : nat) x lab,
      DataLoader.samples this' windowLen ahead = Ok Xy ->
      Xy !! i = Some (x, lab) -> (t < Z.to_nat ahead)%nat ->
      windowLen + Z.of_nat i - 1 = Z.of_nat dIdx \/
      windowLen + Z.of_nat i - 1 + (Z.of_nat t + 1) = Z.of_nat dIdx ->
      lab !! (sIdx * Z.to_nat ahead + t)%nat = Some num_0)) /\
  (let S := loader_of (StockDataLoader.parseCSV parseFloat_str this0 csvText') in
   date ∈ StockDataLoader.dates S ->
   StockDataLoader.symbols S !! k = Some symbol ->
   own_key (StockDataLoader.dates S) date ->
   own_key (StockDataLoader.symbols S) symbol ->
   ordinary (StockDataLoader.key symbol) ->
   (forall record, record ∈ StockDataLoader.rawData S ->
      ~ (StockDataLoader.prop record StockDataLoader.Column.Date = date /\
         StockDataLoader.prop record StockDataLoader.Column.Symbol = symbol)) ->
   let nd := StockDataLoader.normalizedData S in
   let syms := StockDataLoader.symbols S in
   StockDataLoader.at2
     (StockDataLoader.pivot parseFloat_str (StockDataLoader.rawData S) syms
        (StockDataLoader.dates S)) date symbol = Obj.Undefined /\
   StockDataLoader.at2 nd date symbol = Obj.Undefined /\
   StockDataLoader.featureVector nd syms date !! (k * 2)%nat
   = Some (Some num_0) /\
   StockDataLoader.featureVector nd syms date !! (k * 2 + 1)%nat
   = Some (Some num_0) /\
   (forall current, StockDataLoader.target_entry nd current date symbol = num_0)).
Proof.
  split.
  - intros Hload Hd Hs Habs.
    destruct (loadCSV_state _ _ _ _ Hload)
      as (M0 & Hp & Hsyms & Hidx & Hdates & Hmin & Hmax & HM & _).
    rewrite Hdates in Hd. rewrite Hidx in Hs.
    set (data := records StringToNumber csvText) in *.
    assert (cell_at M0 dIdx sIdx = Some DataLoader.missing_cell) as Hmiss.
    { rewrite (pivot_cell _ _ _ _ _ _ Hp Hd Hs).
      by rewrite (proj2 (last_record_None d s data) Habs). }
    destruct (poisoned_column (symbol_axis data) M0 dIdx sIdx s
                (symbol_axis_NoDup data) (index_object_Some _ _ _ Hs) Hmiss)
      as [Hhalf Hcol].
    rewrite HM, Hmin, Hmax, Hsyms, Hidx, Hdates. cbn [default from_option id].
    split_and!.
    + by exists M0.
    + exact Hhalf.
    + intros windowLen ahead Xy i t x lab HXy Hi Ht Hread.
      destruct (samples_lookup _ _ _ _ _ _ _ HXy Hi) as (_ & _ & Hl).
      cbv zeta in Hl. rewrite HM, Hmin, Hmax, Hsyms in Hl. cbn [default from_option id] in Hl.
      destruct (label_lookup _ _ _ _ _ sIdx t Hl) as (cD & cF & HcD & HcF & ->);
        [by eapply lookup_lt_Some, index_object_Some|done|].
      apply cell_Ok in HcD as [HD0 HcD], HcF as [HF0 HcF]. f_equal.
      destruct Hread as [Hread|Hread].
      * rewrite Hread, Nat2Z.id, Hhalf in HcD. injection HcD as <-.
        apply label_entry_half_r. by eapply Hcol.
      * rewrite Hread, Nat2Z.id, Hhalf in HcF. injection HcF as <-.
        apply label_entry_half_l. by eapply Hcol.
  - cbv zeta.
    destruct (parseCSV_loader parseFloat_str this0 csvText')
      as (-> & -> & -> & ->).
    set (raw := StockDataLoader.parse_records csvText').
    set (syms := sort_opt (set_of (map
      (λ d, StockDataLoader.prop d StockDataLoader.Column.Symbol) raw))).
    set (ds := sort_opt (set_of (map
      (λ d, StockDataLoader.prop d StockDataLoader.Column.Date) raw))).
    intros Hdate Hsym Hdk Hsk Hord Habs'.
    pose proof (list_elem_of_lookup_2 _ _ _ Hsym) as Hsymin.
    assert (StockDataLoader.at2 (StockDataLoader.pivot parseFloat_str raw syms ds)
              date symbol = Obj.Undefined) as Hpiv.
    { apply pivot_at2_missing; try done. by apply find_record_None. }
    assert (StockDataLoader.at2
              (StockDataLoader.normalizeData
                 (StockDataLoader.pivot parseFloat_str raw syms ds) syms ds)
              date symbol = Obj.Undefined) as Hnd.
    { destruct (normalizeData_at2
                  (StockDataLoader.pivot parseFloat_str raw syms ds)
                  syms ds date symbol Hdate Hsymin) as (r & _ & -> & Hr).
      apply get_Undefined.
      - rewrite Hr. unfold normalize_step. by rewrite Hpiv.
      - by apply ordinary_proto.
      - by apply ordinary_prototype_names.
      - intros p. by apply ordinary_OC. }
    split_and!; try done.
    + unfold StockDataLoader.featureVector.
      replace (k * 2)%nat with (k * 2 + 0)%nat by lia.
      rewrite (flat_map_uniform_lookup 2 _ _ k 0 symbol);
        [by rewrite Hnd|intros a; apply features_length|done|lia].
    + unfold StockDataLoader.featureVector.
      rewrite (flat_map_uniform_lookup 2 _ _ k 1 symbol);
        [by rewrite Hnd|intros a; apply features_length|done|lia].
    + intros current. unfold StockDataLoader.target_entry. by rewrite Hnd.
Qed.

(** In [csv20_gap] the symbol [B] has no record on [d12]. *)
Lemma C4_witness :
  let this' := loaded Inputs.csv20_gap in
  let S := parsed Inputs.csv20_gap in
  let nd := StockDataLoader.normalizedData S in
  DataLoader.loadCSV digits_to_number DataLoader.constructor Inputs.csv20_gap
    = DataLoader.Done this' /\
  indexOf (DataLoader.dates this') "d12" = Some 11%nat /\
  DataLoader.symbolIndex this' !! "B" = Some 1%nat /\
  last_record "d12" "B" (records digits_to_number Inputs.csv20_gap) = None /\
  StockDataLoader.find_record (StockDataLoader.rawData S)
    (Some "d12") (Some "B") = None /\
  ordinary "B" /\
  cell_at (default [] (DataLoader.dataMatrix this')) 11 1
  = Some {| DataLoader.open := num_half; DataLoader.close := num_half |} /\
  StockDataLoader.at2 nd (Some "d12") (Some "B") = Obj.Undefined /\
  StockDataLoader.featureVector nd (StockDataLoader.symbols S) (Some "d12")
    !! 2%nat = Some (Some num_0) /\
  StockDataLoader.featureVector nd (StockDataLoader.symbols S) (Some "d12")
    !! 3%nat = Some (Some num_0).
Proof.
  intros this' S nd.
  assert (DataLoader.loadCSV digits_to_number DataLoader.constructor
            Inputs.csv20_gap = DataLoader.Done this') as Hload
    by (vm_compute; reflexivity).
  assert (indexOf (DataLoader.dates this') "d12" = Some 11%nat) as Hd
    by (vm_compute; reflexivity).
  assert (DataLoader.symbolIndex this' !! "B" = Some 1%nat) as Hs
    by (vm_compute; reflexivity).
  assert (last_record "d12" "B" (records digits_to_number Inputs.csv20_gap)
          = None) as Hlast by (vm_compute; reflexivity).
  assert (StockDataLoader.find_record (StockDataLoader.rawData S)
            (Some "d12") (Some "B") = None) as Hfind
    by (vm_compute; reflexivity).
  assert (Some "d12" ∈ StockDataLoader.dates S) as Hdate
    by (apply (bool_decide_eq_true_1 (Some "d12" ∈ StockDataLoader.dates S));
        vm_compute; reflexivity).
  assert (StockDataLoader.symbols S !! 1%nat = Some (Some "B")) as Hsym
    by (vm_compute; reflexivity).
  assert (ordinary "B") as Hord
    by (apply (bool_decide_eq_true_1 ("B" ∉ inherited_names));
        vm_compute; reflexivity).
  pose proof (C4_missing_cell digits_to_number digits_to_number
                DataLoader.constructor Inputs.csv20_gap this' "d12" "B"
                11 1 StockDataLoader.constructor Inputs.csv20_gap
                (Some "d12") (Some "B") 1)
    as [HD HS].
  specialize (HD Hload Hd Hs (proj1 (last_record_None _ _ _) Hlast)).
  cbv zeta in HS. rewrite !parsed_eq in HS. fold S in HS. fold nd in HS.
  clearbody nd. clearbody this' S.
  destruct HD as (_ & Hcell & _).
  destruct (HS Hdate Hsym (own_key_string _ "d12" ltac:(done))
              (own_key_string _ "B" ltac:(done)) Hord
              (proj1 (find_record_None _ _ _) Hfind))
    as (_ & Hnd & Hf0 & Hf1 & _).
  split; [exact Hload|]. split; [exact Hd|]. split; [exact Hs|].
  split; [exact Hlast|]. split; [exact Hfind|]. split; [exact Hord|].
  split; [exact Hcell|].
  split; [exact Hnd|]. split; [exact Hf0|exact Hf1].
Defined.

(** C4 as stated fails in [StockDataLoader]: on the day [d12] of
    [csv20_gap] the two features of the missing cell of [B] are [0], not
    [0.5]; and the targets of [B] for the second and third future days of
    the first sample, which compare with the missing close of [d12], are 1. *)
Lemma C4_counterexample :
  let S := parsed Inputs.csv20_gap in
  StockDataLoader.find_record (StockDataLoader.rawData S)
    (Some "d12") (Some "B") = None /\
  StockDataLoader.date_at (StockDataLoader.dates S) 11 = Some "d12" /\
  drop 2 <$> (StockDataLoader.X S ≫= λ Xs, Xs !! 0%nat ≫= λ x, x !! 11%nat)
  = Some [Some num_0; Some num_0] /\
  num_0 <> num_half /\
  (StockDataLoader.y S ≫= λ ys, ys !! 0%nat)
  = Some [num_0; num_0; num_1; num_1; num_0; num_1].
Proof. vm_compute. split_and!; done. Qed.

(** C3, at two inputs where the code departs from it. In [csv_gap] the
    symbol [B] has the closes 7 and 9 and no record on [d2]:
    [DataLoader] takes [Math.min] and [Math.max] over the column with the
    [NaN] of the missing cell, and all four statistics of [B] are [NaN].
    In [csv_zero] the closes of [A] are 0, 5 and 7: the [filter(Boolean)]
    of [StockDataLoader] drops the observation 0, and [closeMin] is 5. *)
Theorem C3_statistics_at_failing_inputs :
  (let this' := loaded Inputs.csv_gap in
   DataLoader.row_close <$>
     filter (λ r, DataLoader.symbol r = "B")
            (records digits_to_number Inputs.csv_gap)
   = [of_Z 7; of_Z 9] /\
   DataLoader.min this' !! "B"
   = Some {| DataLoader.open := NaN; DataLoader.close := NaN |} /\
   DataLoader.max this' !! "B"
   = Some {| DataLoader.open := NaN; DataLoader.close := NaN |}) /\
  (let S := parsed Inputs.csv_zero in
   let pivoted :=
     StockDataLoader.pivot digits_to_number (StockDataLoader.rawData S)
       (StockDataLoader.symbols S) (StockDataLoader.dates S) in
   (λ d, StockDataLoader.Close
           <$> Obj.stored (StockDataLoader.at2 pivoted d (Some "A")))
     <$> StockDataLoader.dates S
   = [Some num_0; Some (of_Z 5); Some (of_Z 7)] /\
   StockDataLoader.observed StockDataLoader.Close pivoted
     (StockDataLoader.dates S) (Some "A") = [of_Z 5; of_Z 7] /\
   StockDataLoader.closeMin
     <$> Obj.stored
           (Obj.get (StockDataLoader.stockStats_of pivoted
                       (StockDataLoader.symbols S) (StockDataLoader.dates S))
                    "A")
   = Some (of_Z 5)).
Proof. vm_compute. split_and!; reflexivity. Qed.

(** C5 holds in [DataLoader]: with [max === min], [_scale] returns [0.5]
    for every value, without dividing. *)
Lemma DataLoader_degenerate_range v mn mx :
  strict_eq mx mn = true -> DataLoader._scale v mn mx = num_half.
Proof. apply _scale_degenerate. Qed.

(** C5, at an input where [StockDataLoader] departs from it. The close of
    [B] is 45 on every day of [csv20_flat]: [closeMin] and [closeMax] are
    both 45, [normalizeData] divides [0] by the zero range, the normalised
    close of [B] is [NaN], and [NaN] is the feature of the first
    sequence; [DataLoader] gives [0.5] on the same file. *)
Theorem C5_degenerate_range_at_failing_input :
  let S := parsed Inputs.csv20_flat in
  let pivoted :=
    StockDataLoader.pivot digits_to_number (StockDataLoader.rawData S)
      (StockDataLoader.symbols S) (StockDataLoader.dates S) in
  let ds := dataset_of (DataLoader.buildDataset (loaded Inputs.csv20_flat)
                          12 3 DataLoader.default_testSplit) in
  (λ st, (StockDataLoader.closeMin st, StockDataLoader.closeMax st))
    <$> Obj.stored
          (Obj.get (StockDataLoader.stockStats_of pivoted
                      (StockDataLoader.symbols S) (StockDataLoader.dates S))
                   "B")
  = Some (of_Z 45, of_Z 45) /\
  StockDataLoader.Close
    <$> Obj.stored (StockDataLoader.at2 (StockDataLoader.normalizedData S)
                      (Some "d01") (Some "B"))
  = Some NaN /\
  (StockDataLoader.X S ≫= λ Xs,
     Xs !! 0%nat ≫= λ x, x !! 0%nat ≫= λ v, v !! 3%nat)
  = Some (Some NaN) /\
  ((DataLoader.X_train ds ++ DataLoader.X_test ds) !! 0%nat
     ≫= λ x, x !! 0%nat ≫= λ v, v !! 3%nat)
  = Some num_half.
Proof. vm_compute. split_and!; reflexivity. Qed.

(** C9, as the code has it. With the statistics [min = 0] and [max = 1],
    those of a normalised column, [_scale] returns every binary64 value
    other than [NaN] exactly as given; and a matrix whose symbol has these
    statistics keeps the cells of that symbol when it is rescaled. *)
Theorem C9_rescale_unit_range v syms mn mx M (d s : nat) sym c :
  valid_binary prec emax v = true -> isNaN v = false ->
  syms !! s = Some sym ->
  mn !! sym = Some {| DataLoader.open := num_0; DataLoader.close := num_0 |} ->
  mx !! sym = Some {| DataLoader.open := num_1; DataLoader.close := num_1 |} ->
  cell_at M d s = Some c ->
  valid_binary prec emax (DataLoader.open c) = true ->
  valid_binary prec emax (DataLoader.close c) = true ->
  isNaN (DataLoader.open c) = false -> isNaN (DataLoader.close c) = false ->
  DataLoader._scale v num_0 num_1 = v /\
  cell_at (DataLoader.normalize_matrix syms mn mx M) d s = Some c.
Proof.
  intros Hv Hn Hs Hmn Hmx Hc Hvo Hvc Hno Hnc.
  assert (forall w, valid_binary prec emax w = true -> isNaN w = false ->
                    DataLoader._scale w num_0 num_1 = w) as Hscale.
  { intros w Hw Hnw. unfold DataLoader._scale. rewrite Hnw.
    change (strict_eq num_1 num_0) with false. cbv iota.
    rewrite (sub_zero w Hnw). change (sub num_1 num_0) with num_1.
    by apply div_one. }
  split; [by apply Hscale|].
  rewrite normalize_matrix_cell, Hc. simpl.
  unfold DataLoader.normalize_cell. rewrite Hs, Hmn, Hmx. simpl.
  rewrite !Hscale by done. by destruct c.
Qed.

Lemma C9_witness :
  let quarter := DataLoader._scale (of_Z 15) (of_Z 10) (of_Z 30) in
  let c := {| DataLoader.open := quarter; DataLoader.close := num_1 |} in
  let unit0 := {| DataLoader.open := num_0; DataLoader.close := num_0 |} in
  let unit1 := {| DataLoader.open := num_1; DataLoader.close := num_1 |} in
  DataLoader._scale quarter num_0 num_1 = quarter /\
  cell_at (DataLoader.normalize_matrix ["A"] {["A" := unit0]} {["A" := unit1]}
             [[c]]) 0 0 = Some c.
Proof.
  intros quarter c unit0 unit1.
  apply (C9_rescale_unit_range quarter ["A"] {["A" := unit0]}
           {["A" := unit1]} [[c]] 0 0 "A" c);
    vm_compute; reflexivity.
Defined.

(** C9 as stated fails: with the statistics [min = 10] and [max = 30] the
    value 15 is rescaled to [0.25], a computed ratio; rescaled again with
    the same statistics it becomes negative, more than [0.5] away. *)
Lemma C9_counterexample :
  let v' := DataLoader._scale (of_Z 15) (of_Z 10) (of_Z 30) in
  let v'' := DataLoader._scale v' (of_Z 10) (of_Z 30) in
  v' = div (of_Z 1) (of_Z 4) /\
  isNaN (of_Z 15) = false /\ strict_eq (of_Z 30) (of_Z 10) = false /\
  gt num_0 v'' = true /\
  gt (sub v' v'') num_half = true.
Proof. vm_compute. split_and!; reflexivity. Qed.

(** * Further properties of the loaders and of the readers *)

(** ** The order of [sort()] *)

Lemma ascii_compare_Lt_trans a b c :
  Ascii.compare a b = Lt -> Ascii.compare b c = Lt -> Ascii.compare a c = Lt.
Proof.
  unfold Ascii.compare. rewrite !N.compare_lt_iff. lia.
Qed.

Lemma string_compare_Lt_trans a : forall b c,
  String.compare a b = Lt -> String.compare b c = Lt -> String.compare a c = Lt.
Proof.
  induction a as [|x a IH]; intros [|y b] [|z c]; simpl; try done.
  destruct (Ascii.compare x y) eqn:Hxy; try done.
  - apply Ascii.compare_eq_iff in Hxy as ->.
    destruct (Ascii.compare y z); try done. apply IH.
  - intros _. destruct (Ascii.compare y z) eqn:Hyz; try done.
    + apply Ascii.compare_eq_iff in Hyz as <-. by rewrite Hxy.
    + by rewrite (ascii_compare_Lt_trans _ _ _ Hxy Hyz).
Qed.

Lemma string_leb_trans a b c :
  String.leb a b = true -> String.leb b c = true -> String.leb a c = true.
Proof.
  unfold String.leb.
  destruct (String.compare a b) eqn:Hab; try done;
    destruct (String.compare b c) eqn:Hbc; try done; intros _ _.
  - apply String.compare_eq_iff in Hab as ->. by rewrite Hbc.
  - apply String.compare_eq_iff in Hab as ->. by rewrite Hbc.
  - apply String.compare_eq_iff in Hbc as <-. by rewrite Hab.
  - by rewrite (string_compare_Lt_trans _ _ _ Hab Hbc).
Qed.

Lemma string_ltb_leb a b :
  String.ltb a b = true <-> String.leb a b = true /\ a <> b.
Proof.
  unfold String.ltb, String.leb.
  destruct (String.compare a b) eqn:Hab; split; try done.
  - intros [_ Hne]. by apply String.compare_eq_iff in Hab.
  - intros _. split; [done|]. intros ->.
    pose proof (String.compare_antisym b b) as H. by rewrite Hab in H.
  - by intros [].
Qed.

Lemma sort_le_total x y : sort_le x y = true \/ sort_le y x = true.
Proof.
  destruct x as [a|], y as [b|]; simpl; auto. apply String.leb_total.
Qed.

Lemma sort_le_trans x y z :
  sort_le x y = true -> sort_le y z = true -> sort_le x z = true.
Proof.
  destruct x as [a|], y as [b|], z as [c|]; simpl; try done.
  apply string_leb_trans.
Qed.

Lemma sort_lt_le x y : sort_lt x y = true <-> sort_le x y = true /\ x <> y.
Proof.
  destruct x as [a|], y as [b|]; simpl.
  - rewrite string_ltb_leb. split; intros [? ?]; (split; [done|congruence]).
  - done.
  - split; [done|]. by intros [].
  - split; [done|]. by intros [].
Qed.

(** *** Insertion into an ascending list *)

Section Insertion.
Context {A : Type} (le : A -> A -> bool) (ins : A -> list A -> list A).
Hypothesis le_total : forall x y, le x y = true \/ le y x = true.
Hypothesis le_trans : forall x y z,
  le x y = true -> le y z = true -> le x z = true.
Hypothesis ins_nil : forall x, ins x [] = [x].
Hypothesis ins_cons : forall x y l,
  ins x (y :: l) = if le x y then x :: y :: l else y :: ins x l.

Lemma ascending_cons (lt : A -> A -> bool) x l :
  ascending lt (x :: l) <->
  Forall (λ y, lt x y = true) l /\ ascending lt l.
Proof.
  split.
  - intros H. split.
    + apply Forall_lookup. intros j y Hy.
      apply (H 0%nat (S j) x y); [lia|done..].
    + intros i j a b Hij Ha Hb. apply (H (S i) (S j)); [lia|done..].
  - intros [Hx Hl] i j a b Hij Ha Hb.
    destruct j as [|j]; [lia|]. destruct i as [|i]; simpl in *.
    + injection Ha as <-. by eapply (Forall_lookup_1 _ _ _ _ Hx).
    + apply (Hl i j); [lia|done..].
Qed.

Lemma ins_elem x l z : z ∈ ins x l <-> z = x \/ z ∈ l.
Proof.
  induction l as [|y l IH].
  - rewrite ins_nil, list_elem_of_singleton, elem_of_nil. tauto.
  - rewrite ins_cons. destruct (le x y).
    + by rewrite elem_of_cons.
    + rewrite !elem_of_cons, IH. tauto.
Qed.

Lemma ins_ascending x l : ascending le l -> ascending le (ins x l).
Proof.
  induction l as [|y l IH]; intros Hl.
  - rewrite ins_nil. intros i j a b Hij Ha Hb.
    destruct i, j; simpl in *; done || lia.
  - rewrite ins_cons. apply ascending_cons in Hl as [Hy Hl].
    destruct (le x y) eqn:Hxy.
    + apply ascending_cons. split.
      * constructor; [done|]. eapply Forall_impl; [exact Hy|].
        intros z Hz. simpl in *. by eapply le_trans.
      * by apply ascending_cons.
    + apply ascending_cons. split; [|by apply IH].
      apply Forall_forall. intros z [->|Hz]%ins_elem.
      * destruct (le_total x y); congruence.
      * by eapply (proj1 (Forall_forall _ _) Hy).
Qed.

End Insertion.

Lemma ascending_strict {A} (le lt : A -> A -> bool) (l : list A) :
  (forall x y, lt x y = true <-> le x y = true /\ x <> y) ->
  NoDup l -> ascending le l -> ascending lt l.
Proof.
  intros Hlt Hnd Hl i j a b Hij Ha Hb. apply Hlt. split.
  - by eapply Hl.
  - intros ->. pose proof (NoDup_lookup _ _ _ _ Hnd Ha Hb). lia.
Qed.

Lemma ascending_nil {A} (lt : A -> A -> bool) : ascending lt [].
Proof. intros i j a b _ Ha. done. Qed.

Lemma sort_ascending l : ascending String.leb (sort l).
Proof.
  induction l as [|x l IH]; [apply ascending_nil|]. simpl.
  by apply (ins_ascending String.leb str_insert String.leb_total
              string_leb_trans).
Qed.

Lemma sort_opt_ascending l : ascending sort_le (sort_opt l).
Proof.
  induction l as [|x l IH]; [apply ascending_nil|]. simpl.
  by apply (ins_ascending sort_le sort_insert sort_le_total sort_le_trans).
Qed.

Lemma indexOf_NoDup a (i : nat) x :
  NoDup a -> a !! i = Some x -> indexOf a x = Some i.
Proof.
  intros Hnd Hi.
  destruct (indexOf_elem a x) as [j Hj]; [by eapply list_elem_of_lookup_2|].
  rewrite Hj. f_equal. apply indexOf_Some in Hj.
  by eapply NoDup_lookup.
Qed.

(** ** [DataLoader.loadCSV]: its outcomes *)

Section LoadCSVOutcome.
Import DataLoader.

Variable StringToNumber : string -> number.

Lemma header_row_rows csvText :
  exists body,
    map (split comma) (split newline (trim csvText))
    = header_row csvText :: body.
Proof.
  unfold header_row.
  destruct (split newline (trim csvText)) as [|line lines] eqn:Hl.
  - by apply split_nonempty in Hl.
  - simpl. eauto.
Qed.

Lemma required_all headers :
  forallb (includes headers) required = true <->
  forall h, h ∈ required -> h ∈ headers.
Proof.
  rewrite forallb_forall. split.
  - intros H h Hh. apply includes_elem, H. by apply list_elem_of_In.
  - intros H h Hh. apply includes_elem, H. by apply list_elem_of_In.
Qed.

(** With the four columns in the header, [loadCSV] completes, and the
    loader it leaves is [loaded_state]. *)
Lemma loadCSV_complete this csvText :
  (forall h, h ∈ required -> h ∈ header_row csvText) ->
  loadCSV StringToNumber this csvText
  = Done (loaded_state StringToNumber csvText).
Proof.
  intros Hreq. unfold loadCSV, loaded_state, records.
  destruct (header_row_rows csvText) as [body ->].
  rewrite (proj2 (required_all _) Hreq). cbn [negb].
  destruct (parse_rows StringToNumber (header_row csvText) body)
    as [[data symbolSet] dateSet] eqn:Hparse.
  destruct (parse_rows_sets _ _ _ _ _ _ Hparse) as [-> ->].
  cbn [fst]. fold (date_axis data). fold (symbol_axis data).
  destruct (pivot_total data) as [M0 ->]. done.
Qed.

Lemma loadCSV_incomplete this csvText :
  ~ (forall h, h ∈ required -> h ∈ header_row csvText) ->
  loadCSV StringToNumber this csvText = Failed (Error missing_msg) this.
Proof.
  intros Hreq. unfold loadCSV.
  destruct (header_row_rows csvText) as [body ->].
  destruct (forallb _ required) eqn:Hall; [|done].
  destruct Hreq. by apply required_all.
Qed.

(** X1. [loadCSV] has two outcomes on every text: it completes, exactly
    when the header row has the four required columns, or it throws the
    [Error] of the missing columns and leaves the loader as it was. No
    read of the parsing, pivot and normalisation loops is out of range. *)
Theorem loadCSV_outcomes this csvText :
  ((exists this', loadCSV StringToNumber this csvText = Done this')
   <-> forall h, h ∈ required -> h ∈ header_row csvText) /\
  (forall e this', loadCSV StringToNumber this csvText = Failed e this' ->
                   e = Error missing_msg /\ this' = this).
Proof.
  destruct (decide (forallb (includes (header_row csvText)) required = true))
    as [Hall|Hall].
  - pose proof (proj1 (required_all _) Hall) as Hreq.
    rewrite (loadCSV_complete this csvText Hreq). split.
    + split; [done|eauto].
    + done.
  - assert (~ (forall h, h ∈ required -> h ∈ header_row csvText)) as Hn
      by (by rewrite <- required_all).
    rewrite (loadCSV_incomplete this csvText Hn). split.
    + split; [by intros [? ?]|done].
    + by intros e this' [= <- <-].
Qed.

End LoadCSVOutcome.

(** ** [DataLoader]: what a completed [loadCSV] leaves *)

Section LoadedLoader.
Import DataLoader.

Variable StringToNumber : string -> number.

Lemma loadCSV_Done_state this csvText this' :
  loadCSV StringToNumber this csvText = Done this' ->
  (forall h, h ∈ required -> h ∈ header_row csvText) /\
  this' = loaded_state StringToNumber csvText.
Proof.
  intros H.
  assert (forall h, h ∈ required -> h ∈ header_row csvText) as Hreq.
  { apply (proj1 (loadCSV_outcomes StringToNumber this csvText)). eauto. }
  split; [done|]. rewrite (loadCSV_complete _ _ _ Hreq) in H. congruence.
Qed.

(** X2. A completed [loadCSV] replaces the whole state of the loader: the
    loader it leaves does not depend on what the loader held before. *)
Theorem loadCSV_replaces_state this1 this2 csvText this' :
  loadCSV StringToNumber this1 csvText = Done this' ->
  loadCSV StringToNumber this2 csvText = Done this'.
Proof.
  intros [Hreq ->]%loadCSV_Done_state. by apply loadCSV_complete.
Qed.

Lemma parse_loop_nonempty di si oi ci body : forall data0 data symbolSet dateSet ss dd,
  Forall (λ r, date r <> "" /\ symbol r <> "") data0 ->
  fold_left (parse_row StringToNumber di si oi ci) body (data0, ss, dd)
    = (data, symbolSet, dateSet) ->
  Forall (λ r, date r <> "" /\ symbol r <> "") data.
Proof.
  induction body as [|r body IH]; intros data0 data symbolSet dateSet ss dd H0.
  - simpl. by intros [= <- _ _].
  - cbn [fold_left]. unfold parse_row at 2.
    destruct (field r di) as [[|c d]|]; simpl; try by apply IH.
    destruct (field r si) as [[|c' s]|]; simpl; try by apply IH.
    apply IH. apply Forall_app. split; [done|].
    by repeat constructor.
Qed.

(** Every kept record has a date and a symbol. *)
Lemma records_nonempty csvText r :
  r ∈ records StringToNumber csvText -> date r <> "" /\ symbol r <> "".
Proof.
  unfold records.
  destruct (map _ _) as [|headers body]; [by intros ?%elem_of_nil|].
  unfold parse_rows.
  destruct (fold_left _ body _) as [[data symbolSet] dateSet] eqn:Hparse.
  simpl. intros Hr.
  apply parse_loop_nonempty in Hparse; [|constructor].
  by apply (proj1 (Forall_forall _ _) Hparse).
Qed.

Lemma symbol_axis_elem_iff data s :
  s ∈ symbol_axis data <-> exists r, r ∈ data /\ symbol r = s.
Proof.
  unfold symbol_axis. rewrite sort_elem, set_of_elem, list_elem_of_fmap.
  split; intros (r & ? & ?); by exists r.
Qed.

Lemma date_axis_elem_iff data d :
  d ∈ date_axis data <-> exists r, r ∈ data /\ date r = d.
Proof.
  unfold date_axis. rewrite sort_elem, set_of_elem, list_elem_of_fmap.
  split; intros (r & ? & ?); by exists r.
Qed.

Lemma axis_ascending l : ascending String.ltb (sort (set_of l)).
Proof.
  apply (ascending_strict String.leb).
  - apply string_ltb_leb.
  - apply sort_NoDup, set_of_NoDup.
  - apply sort_ascending.
Qed.

(** X3. After a completed [loadCSV] the arrays [symbols] and [dates] are
    strictly ascending in the order of code units, hence without
    duplicates; they hold exactly the symbols and the dates of the kept
    records, and never the empty string. *)
Theorem loadCSV_axes this csvText this' :
  loadCSV StringToNumber this csvText = Done this' ->
  ascending String.ltb (symbols this') /\
  ascending String.ltb (dates this') /\
  (forall s, s ∈ symbols this'
             <-> exists r, r ∈ records StringToNumber csvText /\ symbol r = s) /\
  (forall d, d ∈ dates this'
             <-> exists r, r ∈ records StringToNumber csvText /\ date r = d) /\
  ("" ∉ symbols this') /\ ("" ∉ dates this').
Proof.
  intros [_ ->]%loadCSV_Done_state. cbn [loaded_state symbols dates
    set_ready _normalize pivoted].
  split_and!.
  - apply axis_ascending.
  - apply axis_ascending.
  - apply symbol_axis_elem_iff.
  - apply date_axis_elem_iff.
  - intros (r & Hr & Hs)%symbol_axis_elem_iff.
    by destruct (records_nonempty _ _ Hr).
  - intros (r & Hr & Hd)%date_axis_elem_iff.
    by destruct (records_nonempty _ _ Hr).
Qed.

(** X4. After a completed [loadCSV] the index object and the arrays
    agree: [symbolIndex[s] = i] exactly when [symbols[i] = s], and
    [dates.indexOf(d) = i] exactly when [dates[i] = d]; and the matrix is
    dense, with one row per date and one cell per symbol in every row. *)
Theorem loadCSV_indices this csvText this' :
  loadCSV StringToNumber this csvText = Done this' ->
  (forall (i : nat) s,
     symbolIndex this' !! s = Some i <-> symbols this' !! i = Some s) /\
  (forall (i : nat) d,
     indexOf (dates this') d = Some i <-> dates this' !! i = Some d) /\
  exists M, dataMatrix this' = Some M /\
            shaped (length (dates this')) (length (symbols this')) M.
Proof.
  intros Hload. pose proof (loadCSV_shaped _ _ _ _ Hload) as Hsh.
  apply loadCSV_Done_state in Hload as [_ ->].
  split_and!; [| |exact Hsh].
  - intros i s. cbn [loaded_state symbols symbolIndex set_ready _normalize
      pivoted]. split.
    + apply index_object_Some.
    + intros Hi. unfold index_object.
      by rewrite (fromEntries_imap_NoDup (λ i _, i) _ _ _
                    (symbol_axis_NoDup _) Hi).
  - intros i d. cbn [loaded_state dates set_ready _normalize pivoted]. split.
    + apply indexOf_Some.
    + apply indexOf_NoDup, date_axis_NoDup.
Qed.

(** X5. A file whose header is complete and none of whose rows is kept
    (every row lacks its date or its symbol, or there is no row) loads as
    an empty loader, and [buildDataset] then returns the empty dataset
    for every window and horizon of non-negative sum. *)
Theorem loadCSV_no_record this csvText :
  (forall h, h ∈ required -> h ∈ header_row csvText) ->
  records StringToNumber csvText = [] ->
  loadCSV StringToNumber this csvText = Done empty_loader /\
  forall windowLen ahead testSplit,
    0 <= windowLen + ahead ->
    buildDataset empty_loader windowLen ahead testSplit = Ok (empty_dataset []).
Proof.
  intros Hreq Hrec. split.
  - rewrite (loadCSV_complete _ _ _ Hreq). unfold loaded_state.
    by rewrite Hrec.
  - intros windowLen ahead testSplit Hsum.
    unfold buildDataset, samples, anchors. cbn [ready empty_loader negb dates
      symbols length].
    replace (seqZ _ _) with (@nil Z).
    + cbn [mapM bind]. cbn [fmap list_fmap length].
      by rewrite !slice_nil, !slice_from_nil.
    + symmetry. apply length_zero_iff_nil. rewrite length_seqZ. lia.
Qed.

End LoadedLoader.

(** ** [DataLoader.buildDataset]: features, labels and split *)

Section BuildDataset.
Import DataLoader.

Lemma dayVec_lookup M symbolN w v (s : nat) :
  dayVec M symbolN w = Ok v -> (s < symbolN)%nat ->
  exists c, cell M w s = Ok c /\
            v !! (s * 2)%nat = Some (open c) /\
            v !! (s * 2 + 1)%nat = Some (close c).
Proof.
  unfold dayVec. destruct (mapM _ _) as [cells|e] eqn:Hc; [|done].
  intros [= <-] Hs.
  destruct (lookup_lt_is_Some_2 cells s) as [c Hcs].
  { apply mapM_Ok_length in Hc. rewrite length_seq in Hc. lia. }
  destruct (mapM_Ok_lookup _ _ _ _ _ Hc Hcs) as (s' & Hs' & Hcell).
  apply lookup_seq in Hs' as [-> _]. exists c. split; [done|]. split.
  - replace (s * 2)%nat with (s * 2 + 0)%nat by lia.
    by rewrite (flat_map_uniform_lookup 2 _ _ s 0 c) by (done || lia).
  - by rewrite (flat_map_uniform_lookup 2 _ _ s 1 c) by (done || lia).
Qed.

(** X6. In the [k]-th sample of the sample loop, the row [j] of the
    feature sequence is the day [k + j] of the matrix, and it holds, for
    the symbol of index [s], the open at index [2s] and the close at index
    [2s + 1]. *)
Theorem buildDataset_features this windowLen ahead Xy (k j s : nat) x lab :
  samples this windowLen ahead = Ok Xy ->
  Xy !! k = Some (x, lab) ->
  (j < Z.to_nat windowLen)%nat -> (s < length (symbols this))%nat ->
  exists row c,
    x !! j = Some row /\
    cell (default [] (dataMatrix this)) (Z.of_nat k + Z.of_nat j) s = Ok c /\
    row !! (s * 2)%nat = Some (open c) /\
    row !! (s * 2 + 1)%nat = Some (close c).
Proof.
  intros HXy Hk Hj Hs.
  destruct (samples_lookup _ _ _ _ _ _ _ HXy Hk) as (_ & Hx & _).
  cbv zeta in Hx. unfold xSeq in Hx.
  destruct (lookup_lt_is_Some_2 x j) as [row Hrow].
  { apply mapM_Ok_length in Hx. rewrite length_seqZ in Hx. lia. }
  destruct (mapM_Ok_lookup _ _ _ _ _ Hx Hrow) as (w & Hw & Hday).
  apply lookup_seqZ in Hw as [-> _].
  replace (windowLen + Z.of_nat k - windowLen + Z.of_nat j)
    with (Z.of_nat k + Z.of_nat j) in Hday by lia.
  destruct (dayVec_lookup _ _ _ _ s Hday Hs) as (c & Hc & Ho & Hcl).
  by exists row, c.
Qed.

Lemma label_entry_binary closeF closeD : binary (label_entry closeF closeD).
Proof. unfold binary, label_entry. destruct (gt _ _); auto. Qed.

Lemma label_binary M symbolN ahead d lab :
  label M symbolN ahead d = Ok lab -> Forall binary lab.
Proof.
  unfold label. destruct (mapM _ _) as [ls|e] eqn:Hls; [|done].
  intros [= <-]. apply Forall_concat, Forall_lookup. intros s l Hl.
  destruct (mapM_Ok_lookup _ _ _ _ _ Hls Hl) as (s' & _ & Hlab).
  unfold label_of in Hlab.
  destruct (cell M (d - 1) s') as [cD|e]; [|done]. simpl in Hlab.
  apply Forall_lookup. intros t v Hv.
  destruct (mapM_Ok_lookup _ _ _ _ _ Hlab Hv) as (z & _ & Hz).
  destruct (cell M _ s') as [cF|e]; [|done]. simpl in Hz.
  injection Hz as <-. apply label_entry_binary.
Qed.

Lemma target_entry_binary nd current futureDate symbol :
  binary (StockDataLoader.target_entry nd current futureDate symbol).
Proof.
  unfold binary, StockDataLoader.target_entry.
  destruct (StockDataLoader.at2 _ _ _); auto.
  destruct (Obj.get_primitive _ _); auto; destruct (gt _ _); auto.
Qed.

(** X7. Every entry of every label vector is the number 0 or the number
    1, also where the compared closes are [NaN] or missing: in the
    datasets of [DataLoader.buildDataset] and in the targets of
    [StockDataLoader.createSequences]. *)
Theorem labels_binary this windowLen ahead testSplit nd syms ds' i :
  (forall ds, buildDataset this windowLen ahead testSplit = Ok ds ->
              Forall (Forall binary) (y_train ds ++ y_test ds)) /\
  Forall binary (StockDataLoader.target nd syms ds' i).
Proof.
  split.
  - intros ds (Xy & HXy & _ & ->)%buildDataset_Ok.
    apply Forall_fmap, Forall_lookup. intros k [x lab] Hk. simpl.
    destruct (samples_lookup _ _ _ _ _ _ _ HXy Hk) as (_ & _ & Hl).
    by eapply label_binary.
  - unfold StockDataLoader.target. apply Forall_flat_map, Forall_forall.
    intros offset _. apply Forall_fmap, Forall_forall. intros symbol _.
    apply target_entry_binary.
Qed.

Lemma slice_length {A B} (a : list A) (b : list B) i j :
  length a = length b -> length (slice a i j) = length (slice b i j).
Proof.
  intros H. unfold slice. rewrite !length_take, !length_drop, H. done.
Qed.

Lemma slice_from_length {A B} (a : list A) (b : list B) i :
  length a = length b -> length (slice_from a i) = length (slice_from b i).
Proof.
  intros H. unfold slice_from. rewrite !length_drop, H. done.
Qed.

(** X8. For every split fraction, also a negative one, one above 1 or
    [NaN], the dataset returned by [buildDataset] is a chronological
    split: the training samples followed by the test samples are the
    samples of the loop in their order, none lost or repeated, and the
    feature and label parts have the same lengths. *)
Theorem buildDataset_split this windowLen ahead testSplit ds :
  buildDataset this windowLen ahead testSplit = Ok ds ->
  exists Xy,
    samples this windowLen ahead = Ok Xy /\
    X_train ds ++ X_test ds = Xy.*1 /\
    y_train ds ++ y_test ds = Xy.*2 /\
    length (X_train ds) = length (y_train ds) /\
    length (X_test ds) = length (y_test ds) /\
    symbolNames ds = symbols this.
Proof.
  intros Hds. destruct (buildDataset_Ok _ _ _ _ _ Hds) as (Xy & HXy & HX & Hy).
  exists Xy. split_and!; try done.
  all: unfold buildDataset in Hds; destruct (negb (ready this)); [done|];
    rewrite HXy in Hds; cbn [bind] in Hds; injection Hds as <-; cbn.
  - apply slice_length. by rewrite !length_fmap.
  - apply slice_from_length. by rewrite !length_fmap.
  - done.
Qed.

End BuildDataset.

Section DefaultSplit.
Import DataLoader.

Lemma buildDataset_value this windowLen ahead testSplit Xy :
  ready this = true -> samples this windowLen ahead = Ok Xy ->
  let splitIdx :=
    floor_index (mul (of_Z (Z.of_nat (length Xy.*1))) (sub num_1 testSplit)) in
  buildDataset this windowLen ahead testSplit
  = Ok {| X_train := slice Xy.*1 (Int 0) splitIdx;
          y_train := slice Xy.*2 (Int 0) splitIdx;
          X_test := slice_from Xy.*1 splitIdx;
          y_test := slice_from Xy.*2 splitIdx;
          symbolNames := symbols this |}.
Proof.
  intros Hr HXy. unfold buildDataset. rewrite Hr, HXy. reflexivity.
Qed.

Lemma buildDataset_ready this windowLen ahead testSplit ds :
  buildDataset this windowLen ahead testSplit = Ok ds -> ready this = true.
Proof. unfold buildDataset. by destruct (ready this). Qed.

Lemma split_ok_upto : forallb split_ok (seqZ 0 10001) = true.
Proof. vm_compute. reflexivity. Qed.

Lemma split_ok_le n : 0 <= n <= 10000 -> split_ok n = true.
Proof.
  intros Hn. pose proof split_ok_upto as H.
  rewrite forallb_forall in H. apply H.
  apply list_elem_of_In, elem_of_seqZ. lia.
Qed.

Lemma default_split_index (n : nat) :
  Z.of_nat n <= 10000 ->
  floor_index (mul (of_Z (Z.of_nat n)) (sub num_1 default_testSplit))
  = Int (4 * Z.of_nat n / 5) /\
  StockDataLoader.splitIndex n = Z.to_nat (4 * Z.of_nat n / 5).
Proof.
  intros Hn. pose proof (split_ok_le (Z.of_nat n) ltac:(lia)) as H.
  unfold split_ok in H. unfold StockDataLoader.splitIndex.
  destruct (floor_index (mul (of_Z (Z.of_nat n)) (sub num_1 default_testSplit)))
    as [z| |]; [|done..].
  destruct (floor_index (mul (of_Z (Z.of_nat n)) StockDataLoader.trainTestSplit))
    as [z'| |]; [|done..].
  apply andb_prop in H as [->%Z.eqb_eq ->%Z.eqb_eq]. done.
Qed.

(** X9. With the default split the rounding of the floating-point
    product does not move the split index: for up to 10000 samples the
    training part of [DataLoader.buildDataset] ([1 - 0.2]) and the one of
    [StockDataLoader.splitData] ([0.8]) both have [floor(4n/5)] samples,
    and the test part has the rest; so it is after every [parseCSV]
    that completes. *)
Theorem default_split_sizes (parseFloat_str : string -> number)
    this windowLen ahead ds S0 Xs ys this0 csvText :
  (buildDataset this windowLen ahead default_testSplit = Ok ds ->
   let n := length (X_train ds ++ X_test ds) in
   Z.of_nat n <= 10000 ->
   length (X_train ds) = (4 * n / 5)%nat /\
   length (X_test ds) = (n - 4 * n / 5)%nat) /\
  (StockDataLoader.X S0 = Some Xs -> StockDataLoader.y S0 = Some ys ->
   let n := length Xs in
   Z.of_nat n <= 10000 ->
   exists S,
     StockDataLoader.splitData S0 = StockDataLoader.Done S /\
     length <$> StockDataLoader.X_train S = Some (4 * n / 5)%nat /\
     length <$> StockDataLoader.X_test S = Some (n - 4 * n / 5)%nat) /\
  (let S := loader_of (StockDataLoader.parseCSV parseFloat_str this0 csvText) in
   StockDataLoader.parseCSV parseFloat_str this0 csvText
   = StockDataLoader.Done S ->
   exists Xs,
     StockDataLoader.X S = Some Xs /\
     let n := length Xs in
     (Z.of_nat n <= 10000 ->
      length <$> StockDataLoader.X_train S = Some (4 * n / 5)%nat /\
      length <$> StockDataLoader.X_test S = Some (n - 4 * n / 5)%nat)).
Proof.
  assert (forall n : nat, Z.to_nat (4 * Z.of_nat n / 5) = (4 * n / 5)%nat)
    as Hdiv.
  { intros n. rewrite <- (Nat2Z.id (4 * n / 5)). f_equal.
    rewrite Nat2Z.inj_div, Nat2Z.inj_mul. done. }
  split.
  - intros Hds n Hn.
    destruct (buildDataset_Ok _ _ _ _ _ Hds) as (Xy & HXy & HX & _).
    assert (n = length Xy) as Hlen
      by (unfold n; by rewrite HX, length_fmap).
    rewrite (buildDataset_value _ _ _ _ _
               (buildDataset_ready _ _ _ _ _ Hds) HXy) in Hds.
    cbv zeta in Hds.
    assert (forall a b : Dataset, Ok a = Ok b -> a = b) as Hinj
      by (intros a b H0; congruence).
    apply Hinj in Hds. rewrite <- Hds.
    cbv beta iota delta [X_train X_test]. rewrite length_fmap, <- Hlen.
    rewrite (proj1 (default_split_index n Hn)).
    unfold slice, slice_from, rel_index.
    rewrite !length_fmap, <- Hlen.
    assert (0 <= 4 * Z.of_nat n / 5 <= Z.of_nat n) as Hb.
    { split; [apply Z.div_pos; lia|].
      apply Z.div_le_upper_bound; lia. }
    destruct (Z.ltb_spec (4 * Z.of_nat n / 5) 0) as [?|_]; [lia|].
    destruct (Z.ltb_spec 0 0) as [?|_]; [lia|].
    rewrite Z.min_l by lia. rewrite Z.min_l by lia.
    rewrite length_take, !length_drop, !length_fmap, <- Hlen, Hdiv.
    change (Z.to_nat 0) with 0%nat.
    assert (4 * n / 5 <= n)%nat
      by (apply Nat.Div0.div_le_upper_bound; lia).
    lia.
  - split.
    + intros HX Hy n Hn. subst n.
      unfold StockDataLoader.splitData. rewrite HX, Hy.
      eexists. split; [done|].
      cbn [StockDataLoader.X_train StockDataLoader.X_test fmap option_fmap
           option_map].
      rewrite (proj2 (default_split_index (length Xs) Hn)), Hdiv.
      rewrite length_take, length_drop.
      assert (4 * length Xs / 5 <= length Xs)%nat
        by (apply Nat.Div0.div_le_upper_bound; lia).
      split; f_equal; lia.
    + cbv zeta. intros HDone.
      destruct (decide (length (StockDataLoader.dates
                  (loader_of (StockDataLoader.parseCSV parseFloat_str this0
                                csvText))) <= 15)%nat) as [Hle|Hgt].
      { destruct (parseCSV_Failed parseFloat_str this0 csvText Hle)
          as (HF & _). congruence. }
      destruct (parseCSV_Done parseFloat_str this0 csvText ltac:(lia))
        as (_ & HX & _ & HXt & _ & HXe & _).
      eexists. split; [exact HX|]. cbv zeta. intros Hn.
      rewrite HXt, HXe. cbn [fmap option_fmap option_map].
      rewrite (proj2 (default_split_index _ Hn)), Hdiv.
      rewrite length_take, length_drop.
      set (m := length (StockDataLoader.sequences _ _ _)).
      assert (4 * m / 5 <= m)%nat
        by (apply Nat.Div0.div_le_upper_bound; lia).
      split; f_equal; lia.
Qed.

(** X10. A window of no day is not supported: on a loaded file with at
    least one symbol and more dates than the horizon,
    [buildDataset(0, ahead)] reads [this.dataMatrix[-1]] for the label of
    the first sample and throws a [TypeError]. *)
Theorem buildDataset_empty_window
    (StringToNumber : string -> number) this csvText this' ahead testSplit :
  loadCSV StringToNumber this csvText = Done this' ->
  symbols this' <> [] ->
  0 <= ahead < Z.of_nat (length (dates this')) ->
  exists msg, buildDataset this' 0 ahead testSplit = Throw (TypeError msg).
Proof.
  intros Hload Hsym Ha.
  destruct (loadCSV_state _ _ _ _ Hload) as (_ & _ & _ & _ & _ & _ & _ & _ & Hr).
  unfold buildDataset, samples, anchors. rewrite Hr. cbn [negb].
  rewrite seqZ_cons by lia. cbn [mapM].
  assert (exists msg, sample (default [] (dataMatrix this'))
            (length (symbols this')) 0 ahead 0 = Throw (TypeError msg))
    as [msg ->]; [|by exists msg].
  unfold sample, xSeq. cbn [seqZ]. rewrite seqZ_nil by lia. cbn [mapM bind].
  unfold label. destruct (symbols this') as [|s0 syms]; [done|].
  cbn [length seq mapM]. unfold label_of at 1.
  unfold cell at 1. unfold at_Z. cbn. eauto.
Qed.

End DefaultSplit.

(** ** [StockDataLoader]: records, axes and features *)

Section StockDataLoaderMore.
Import StockDataLoader.

Lemma make_entry_snoc headers h values :
  make_entry (headers ++ [h]) values
  = Obj.set_primitive (make_entry headers values) h (values !! length headers).
Proof.
  unfold make_entry. rewrite imap_app, fold_left_app. simpl.
  by rewrite Nat.add_0_r.
Qed.

Lemma make_entry_absent headers values h :
  h ∉ headers -> make_entry headers values !! h = None.
Proof.
  induction headers as [|h0 headers IH] using rev_ind; intros Hh; [done|].
  rewrite make_entry_snoc. rewrite elem_of_app, list_elem_of_singleton in Hh.
  unfold Obj.set_primitive. destruct (decide (h0 = "__proto__")).
  - apply IH. tauto.
  - rewrite lookup_insert_ne by (intros ->; tauto). apply IH. tauto.
Qed.

(** The assignment to [entry["__proto__"]] creates no property. *)
Lemma make_entry_proto headers values :
  make_entry headers values !! "__proto__" = None.
Proof.
  induction headers as [|h0 headers IH] using rev_ind; [done|].
  rewrite make_entry_snoc. unfold Obj.set_primitive.
  destruct (decide (h0 = "__proto__")); [done|].
  by rewrite lookup_insert_ne.
Qed.

(** The property of a header holds the field of the last column with
    that header. *)
Lemma make_entry_lookup headers values (i : nat) h :
  h <> "__proto__" ->
  headers !! i = Some h ->
  (forall j : nat, (i < j)%nat -> headers !! j <> Some h) ->
  make_entry headers values !! h = Some (values !! i).
Proof.
  intros Hp.
  induction headers as [|h0 headers IH] using rev_ind; intros Hi Hlast; [done|].
  rewrite make_entry_snoc. unfold Obj.set_primitive.
  destruct (decide (i = length headers)) as [->|Hne].
  - rewrite lookup_app_r, Nat.sub_diag in Hi by lia. injection Hi as ->.
    by rewrite decide_False, lookup_insert_eq.
  - assert (i < length headers)%nat as Hlt.
    { apply lookup_lt_Some in Hi. rewrite length_app in Hi. simpl in Hi. lia. }
    rewrite lookup_app_l in Hi by done.
    assert (h0 <> h) as Hne0.
    { intros ->. apply (Hlast (length headers) Hlt).
      by rewrite lookup_app_r, Nat.sub_diag by lia. }
    assert (make_entry headers values !! h = Some (values !! i)) as Hrec.
    { apply IH; [done|]. intros j Hj Hjh. apply (Hlast j Hj).
      by apply lookup_app_l_Some. }
    destruct (decide (h0 = "__proto__")); [done|].
    by rewrite lookup_insert_ne.
Qed.

Lemma Column_name_proto c : Column.name c <> "__proto__".
Proof. by destruct c. Qed.

Variable parseFloat_str : string -> number.

(** X11. [parseCSV] makes one record of every line after the header. A
    record has, for a header other than [__proto__], an own property
    that holds the trimmed field of the same column of the line:
    [undefined] when the line is too short, and the field of the last
    column when the header occurs twice. It has no own property for a
    name that is no header, and none named [__proto__]. The reads
    [d.Date], [d.Symbol], [record.Open] and [record.Close] give the field
    of the column of that name, and [undefined] without such a column. *)
Theorem parseCSV_records this0 csvText (k i : nat) line h c :
  let lines := split newline (trim csvText) in
  let headers := map trim (split comma (default "" (head lines))) in
  let fields := map trim (split comma line) in
  let raw := rawData (loader_of (parseCSV parseFloat_str this0 csvText)) in
  length raw = (length lines - 1)%nat /\
  (lines !! S k = Some line ->
   exists record,
     raw !! k = Some record /\
     (h <> "__proto__" -> headers !! i = Some h ->
      (forall j : nat, (i < j)%nat -> headers !! j <> Some h) ->
      record !! h = Some (fields !! i)) /\
     (h ∉ headers -> record !! h = None) /\
     record !! "__proto__" = None /\
     (headers !! i = Some (Column.name c) ->
      (forall j : nat, (i < j)%nat -> headers !! j <> Some (Column.name c)) ->
      prop record c = fields !! i) /\
     (Column.name c ∉ headers -> prop record c = None)).
Proof.
  cbv zeta.
  destruct (parseCSV_loader parseFloat_str this0 csvText) as (-> & _).
  unfold parse_records.
  destruct (split newline (trim csvText)) as [|line0 lines] eqn:Hl.
  { by apply split_nonempty in Hl. }
  cbn [head tail default from_option id]. split.
  - rewrite length_map. simpl. lia.
  - intros Hline. simpl in Hline. eexists. split.
    + by rewrite list_lookup_fmap, Hline.
    + split_and!.
      * intros Hp Hi Hlast. by apply make_entry_lookup.
      * intros Hh. by apply make_entry_absent.
      * apply make_entry_proto.
      * intros Hi Hlast. unfold prop.
        by rewrite (make_entry_lookup _ _ i _ (Column_name_proto c) Hi Hlast).
      * intros Hh. unfold prop. by rewrite make_entry_absent.
Qed.

Lemma opt_axis_ascending (l : list (option string)) :
  ascending sort_lt (sort_opt (set_of l)).
Proof.
  apply (ascending_strict sort_le).
  - apply sort_lt_le.
  - rewrite sort_opt_Permutation. apply set_of_NoDup.
  - apply sort_opt_ascending.
Qed.

(** X12. The arrays [symbols] and [dates] of [StockDataLoader] are
    strictly ascending in the order of the default [sort()], strings by
    code units and [undefined] last, hence without duplicates, and they
    hold exactly the [Symbol] and [Date] values of the records, the
    [undefined] of a record without the field included; so it is whether
    [parseCSV] completes or throws. *)
Theorem parseCSV_axes this0 csvText :
  let S := loader_of (parseCSV parseFloat_str this0 csvText) in
  ascending sort_lt (symbols S) /\
  ascending sort_lt (dates S) /\
  (forall s, s ∈ symbols S
             <-> exists record,
                   record ∈ rawData S /\ prop record Column.Symbol = s) /\
  (forall d, d ∈ dates S
             <-> exists record,
                   record ∈ rawData S /\ prop record Column.Date = d).
Proof.
  cbv zeta.
  destruct (parseCSV_loader parseFloat_str this0 csvText)
    as (-> & -> & -> & _).
  split_and!.
  - apply opt_axis_ascending.
  - apply opt_axis_ascending.
  - intros s. rewrite sort_opt_Permutation, set_of_elem, list_elem_of_fmap.
    split; intros (r & ? & ?); by exists r.
  - intros d. rewrite sort_opt_Permutation, set_of_elem, list_elem_of_fmap.
    split; intros (r & ? & ?); by exists r.
Qed.

(** X13. In a sequence of [createSequences] the row [j] of the sample [i]
    is the date [i + j], and for the symbol of index [s] it holds at the
    indices [2s] and [2s + 1] the normalised open and close of the cell
    that the read of the normalised table gives, two zeros when the read
    gives [undefined] or another falsy value, and twice [undefined] when
    it gives a truthy value that is no cell. *)
Theorem createSequences_features nd syms ds (i j s : nat) symbol :
  (j < sequenceLength)%nat -> syms !! s = Some symbol ->
  exists row,
    sequence nd syms ds i !! j = Some row /\
    let stockData := at2 nd (date_at ds (i + j)) symbol in
    (forall c, stockData = Obj.Stored c ->
       row !! (s * 2)%nat = Some (Some (Open c)) /\
       row !! (s * 2 + 1)%nat = Some (Some (Close c))) /\
    (Obj.truthy_got stockData = false ->
       row !! (s * 2)%nat = Some (Some num_0) /\
       row !! (s * 2 + 1)%nat = Some (Some num_0)) /\
    (Obj.stored stockData = None -> Obj.truthy_got stockData = true ->
       row !! (s * 2)%nat = Some None /\
       row !! (s * 2 + 1)%nat = Some None).
Proof.
  intros Hj Hs. unfold sequence. eexists. split.
  - rewrite list_lookup_fmap, lookup_seq_lt by done. simpl. reflexivity.
  - cbv zeta.
    assert (featureVector nd syms (date_at ds (i + j)) !! (s * 2)%nat
            = features (at2 nd (date_at ds (i + j)) symbol) !! 0%nat) as ->.
    { unfold featureVector. replace (s * 2)%nat with (s * 2 + 0)%nat by lia.
      rewrite (flat_map_uniform_lookup 2 _ _ s 0 symbol);
        [done|intros a; apply features_length|done|lia]. }
    assert (featureVector nd syms (date_at ds (i + j)) !! (s * 2 + 1)%nat
            = features (at2 nd (date_at ds (i + j)) symbol) !! 1%nat) as ->.
    { unfold featureVector.
      rewrite (flat_map_uniform_lookup 2 _ _ s 1 symbol);
        [done|intros a; apply features_length|done|lia]. }
    destruct (at2 nd (date_at ds (i + j)) symbol) as [c|n| |]; simpl.
    + split_and!; [by intros c' [= <-]|done|done].
    + destruct (truthy n); split_and!; done.
    + split_and!; done.
    + split_and!; done.
Qed.

(** X14. A symbol all of whose opens, or all of whose closes, are missing,
    [NaN] or zero gets no statistics; when its name is not one under
    which the objects inherit a value, it has no normalised cell on any
    date of the file: all its features are the padding 0 and all its
    target entries are 0. *)
Theorem no_statistics_no_cell this0 csvText (s : nat) symbol :
  let S := loader_of (parseCSV parseFloat_str this0 csvText) in
  let pivoted := pivot parseFloat_str (rawData S) (symbols S) (dates S) in
  let nd := normalizedData S in
  symbols S !! s = Some symbol ->
  ordinary (key symbol) ->
  observed Open pivoted (dates S) symbol = [] \/
  observed Close pivoted (dates S) symbol = [] ->
  Obj.get (stockStats_of pivoted (symbols S) (dates S)) (key symbol)
  = Obj.Undefined /\
  forall date,
    date ∈ dates S ->
    at2 nd date symbol = Obj.Undefined /\
    featureVector nd (symbols S) date !! (s * 2)%nat = Some (Some num_0) /\
    featureVector nd (symbols S) date !! (s * 2 + 1)%nat
    = Some (Some num_0) /\
    (forall current, target_entry nd current date symbol = num_0).
Proof.
  cbv zeta.
  destruct (parseCSV_loader parseFloat_str this0 csvText)
    as (-> & -> & -> & ->).
  set (raw := parse_records csvText).
  set (syms := sort_opt (set_of (map (λ d, prop d Column.Symbol) raw))).
  set (ds := sort_opt (set_of (map (λ d, prop d Column.Date) raw))).
  set (pivoted := pivot parseFloat_str raw syms ds).
  intros Hs Hord Hobs.
  pose proof (list_elem_of_lookup_2 _ _ _ Hs) as Hsin.
  assert (Obj.get (stockStats_of pivoted syms ds) (key symbol)
          = Obj.Undefined) as Hstats.
  { apply get_Undefined.
    - rewrite stockStats_of_symbol by done. unfold stats_step. cbv zeta.
      destruct Hobs as [->| ->]; simpl; [done|].
      by rewrite andb_false_r.
    - by apply ordinary_proto.
    - by apply ordinary_prototype_names.
    - intros p. by apply ordinary_Stats. }
  split; [exact Hstats|]. intros date _.
  assert (at2 (normalizeData pivoted syms ds) date symbol = Obj.Undefined)
    as Hnd.
  { unfold at2. rewrite normalizeData_assigned.
    destruct (last_write _ _ ds _) as [r|] eqn:Hrow; [|done].
    destruct (last_write_Some _ _ _ _ _ Hrow) as (date' & Hd & Hkd & Hr).
    injection Hr as <-. apply get_Undefined.
    - rewrite normalize_row_assigned. apply last_write_None.
      intros symbol' _ Hk. unfold normalize_step. cbv zeta.
      by rewrite Hk, Hstats, andb_false_r.
    - by apply ordinary_proto.
    - by apply ordinary_prototype_names.
    - intros p. by apply ordinary_OC. }
  split; [done|]. split_and!.
  - unfold featureVector.
    replace (s * 2)%nat with (s * 2 + 0)%nat by lia.
    rewrite (flat_map_uniform_lookup 2 _ _ s 0 symbol);
      [by rewrite Hnd|intros a; apply features_length|done|lia].
  - unfold featureVector.
    rewrite (flat_map_uniform_lookup 2 _ _ s 1 symbol);
      [by rewrite Hnd|intros a; apply features_length|done|lia].
  - intros current. unfold target_entry. by rewrite Hnd.
Qed.

End StockDataLoaderMore.

(** ** The accuracy readers *)

(** *** The sign of a difference *)

Lemma binary_round_aux_sign s m e l :
  sign_or_NaN s (binary_round_aux prec emax s m e l).
Proof.
  unfold binary_round_aux.
  destruct (shr_fexp prec emax m e l) as [mrs' e'].
  destruct (shr_fexp prec emax _ e' loc_Exact) as [mrs'' e''].
  destruct (shr_m mrs''); [done| |done].
  by destruct (e'' <=? emax - prec).
Qed.

Lemma binary_round_sign s m e :
  sign_or_NaN s (binary_round prec emax s m e).
Proof.
  unfold binary_round. destruct (shl_align m e _).
  apply binary_round_aux_sign.
Qed.

Lemma gt_zero_sign v :
  gt v num_0 = true -> sign_or_NaN false v /\ v <> S754_zero false /\ isNaN v = false.
Proof. unfold gt, SFltb. by destruct v as [[]|[]| |[]]. Qed.

Lemma sign_true_not_gt v : sign_or_NaN true v -> gt v num_0 = false.
Proof. unfold gt, SFltb. destruct v as [[]|[]| |[]]; simpl; done. Qed.

Lemma gt_sub_asym_finite sa ma ea sb mb eb :
  gt (sub (S754_finite sa ma ea) (S754_finite sb mb eb)) num_0 = true ->
  gt (sub (S754_finite sb mb eb) (S754_finite sa ma ea)) num_0 = false.
Proof.
  unfold sub, SFsub. rewrite (Z.min_comm eb ea).
  set (A := cond_Zopp sa _). set (B := cond_Zopp sb _).
  intros H. apply gt_zero_sign in H as (Hs & Hz & Hn).
  unfold binary_normalize in *.
  destruct (A - B) as [|p|p] eqn:HAB.
  - done.
  - replace (B - A) with (Z.neg p) by lia.
    apply sign_true_not_gt, binary_round_sign.
  - pose proof (binary_round_sign true p (Z.min ea eb)) as Hs'.
    destruct (binary_round prec emax true p (Z.min ea eb)); simpl in *;
      congruence.
Qed.

(** [a - b > 0] and [b - a > 0] never hold together. *)
Lemma gt_sub_asym a b :
  gt (sub a b) num_0 = true -> gt (sub b a) num_0 = false.
Proof.
  destruct a as [sa|sa| |sa ma ea], b as [sb|sb| |sb mb eb];
    try apply gt_sub_asym_finite;
    try (destruct sa); try (destruct sb); by cbv.
Qed.

(** *** The two counters *)

Section Counters.
Context (tr : list (list number)) (e : error).
Context (f : list number -> list number -> nat * nat -> nat * nat).
Hypothesis f_total : forall p r a, (f p r a).2 = (a.2 + 3)%nat.
Hypothesis f_correct : forall p r a, ((f p r a).1 <= a.1 + 3)%nat.

Let step (acc : nat * nat) (p : nat * list number) : result (nat * nat) :=
  match tr !! p.1 with
  | None => Throw e
  | Some trueRow => Ok (f p.2 trueRow acc)
  end.

Lemma count_rows_Ok preds (k : nat) acc :
  (k + length preds <= length tr)%nat ->
  exists c, foldM step (imap (λ i r, ((k + i)%nat, r)) preds) acc = Ok c /\
            c.2 = (acc.2 + 3 * length preds)%nat /\
            (c.1 <= acc.1 + 3 * length preds)%nat.
Proof.
  revert k acc. induction preds as [|p preds IH]; intros k acc Hk.
  - exists acc. simpl. split; [done|]. lia.
  - simpl in Hk. cbn [imap foldM]. unfold step at 1. cbn [fst snd].
    rewrite Nat.add_0_r.
    destruct (lookup_lt_is_Some_2 tr k ltac:(lia)) as [row ->].
    cbn [bind].
    rewrite (imap_ext _ (λ i r, ((S k + i)%nat, r)))
      by (intros; simpl; f_equal; lia).
    destruct (IH (S k) (f p row acc) ltac:(lia)) as (c & -> & Ht & Hc).
    exists c. split; [done|]. rewrite f_total in Ht.
    pose proof (f_correct p row acc). simpl. lia.
Qed.

Lemma count_rows_Throw preds (k : nat) acc :
  (length tr < k + length preds)%nat -> preds <> [] ->
  foldM step (imap (λ i r, ((k + i)%nat, r)) preds) acc = Throw e.
Proof.
  revert k acc. induction preds as [|p preds IH]; intros k acc Hk Hne; [done|].
  simpl in Hk. cbn [imap foldM]. unfold step at 1. cbn [fst snd].
  rewrite Nat.add_0_r.
  destruct (tr !! k) as [row|] eqn:Hrow; [|done]. cbn [bind].
  rewrite (imap_ext _ (λ i r, ((S k + i)%nat, r)))
    by (intros; simpl; f_equal; lia).
  apply lookup_lt_Some in Hrow.
  apply IH; [lia|]. intros ->. simpl in Hk. lia.
Qed.

End Counters.

Lemma GRUModel_count_stock y_pred y_true s :
  (y_pred = [] \/ (length y_pred <= length y_true)%nat ->
   exists c : nat,
     GRUModel.count_stock y_pred y_true s = Ok (c, (3 * length y_pred)%nat) /\
     (c <= 3 * length y_pred)%nat) /\
  (y_pred <> [] -> (length y_true < length y_pred)%nat ->
   GRUModel.count_stock y_pred y_true s
   = Throw (TypeError "y_true[i] is undefined")).
Proof.
  unfold GRUModel.count_stock.
  rewrite (imap_ext _ (λ i r, ((0 + i)%nat, r))) by done.
  assert (forall p r a, (GRUModel.count_sample s p r a).2 = (a.2 + 3)%nat) as Ht.
  { intros p r [c t]. unfold GRUModel.count_sample. simpl. lia. }
  assert (forall p r a,
            ((GRUModel.count_sample s p r a).1 <= a.1 + 3)%nat) as Hc.
  { intros p r [c t]. unfold GRUModel.count_sample. simpl.
    repeat destruct (GRUModel.is_correct _ _ _); lia. }
  split.
  - intros Hlen.
    assert (0 + length y_pred <= length y_true)%nat as Hle.
    { destruct Hlen as [->|?]; simpl; lia. }
    destruct (count_rows_Ok y_true (TypeError "y_true[i] is undefined")
                (GRUModel.count_sample s) Ht Hc y_pred 0%nat (0%nat, 0%nat) Hle)
      as ([c t] & -> & Ht' & Hc'). simpl in *. subst t. eauto.
  - intros Hne Hlt.
    by apply (count_rows_Throw y_true _ (GRUModel.count_sample s)).
Qed.

Lemma GRUStockPredictor_count_stock predArray trueArray n stockIdx :
  (predArray = [] \/ (length predArray <= length trueArray)%nat ->
   exists c : nat,
     GRUStockPredictor.count_stock predArray trueArray n stockIdx
     = Ok (c, (3 * length predArray)%nat) /\
     (c <= 3 * length predArray)%nat) /\
  (predArray <> [] -> (length trueArray < length predArray)%nat ->
   GRUStockPredictor.count_stock predArray trueArray n stockIdx
   = Throw (TypeError "trueArray[sampleIdx] is undefined")).
Proof.
  unfold GRUStockPredictor.count_stock.
  rewrite (imap_ext _ (λ i r, ((0 + i)%nat, r))) by done.
  assert (forall p r a,
            (GRUStockPredictor.count_sample n stockIdx p r a).2
            = (a.2 + 3)%nat) as Ht.
  { intros p r [c t]. unfold GRUStockPredictor.count_sample. simpl. lia. }
  assert (forall p r a,
            ((GRUStockPredictor.count_sample n stockIdx p r a).1
             <= a.1 + 3)%nat) as Hc.
  { intros p r [c t]. unfold GRUStockPredictor.count_sample. simpl.
    repeat destruct (GRUStockPredictor.is_correct _ _ _); lia. }
  split.
  - intros Hlen.
    assert (0 + length predArray <= length trueArray)%nat as Hle.
    { destruct Hlen as [->|?]; simpl; lia. }
    destruct (count_rows_Ok trueArray
                (TypeError "trueArray[sampleIdx] is undefined")
                (GRUStockPredictor.count_sample n stockIdx) Ht Hc
                predArray 0%nat (0%nat, 0%nat) Hle)
      as ([c t] & -> & Ht' & Hc'). simpl in *. subst t. eauto.
  - intros Hne Hlt.
    by apply (count_rows_Throw trueArray _
                (GRUStockPredictor.count_sample n stockIdx)).
Qed.

(** *** Loops over the symbols *)

Lemma foldM_app {A B} (f : B -> A -> result B) l1 l2 b :
  foldM f (l1 ++ l2) b = bind (foldM f l1 b) (foldM f l2).
Proof.
  revert b. induction l1 as [|x l1 IH]; intros b; simpl; [done|].
  destruct (f b x); simpl; [apply IH|done].
Qed.

Lemma foldM_invariant {A B} (f : B -> A -> result B)
    (P : list A -> B -> Prop) l b0 :
  P [] b0 ->
  (forall l1 x b b', f b x = Ok b' -> P l1 b -> P (l1 ++ [x]) b') ->
  forall b', foldM f l b0 = Ok b' -> P l b'.
Proof.
  intros H0 Hstep. induction l as [|x l IH] using rev_ind; simpl.
  - by intros b' [= <-].
  - intros b'. rewrite foldM_app.
    destruct (foldM f l b0) as [b|] eqn:Hb; [|done]. simpl.
    destruct (f b x) as [b''|] eqn:Hf; [|done]. intros [= <-].
    eapply Hstep; [done|]. by apply IH.
Qed.

Lemma foldM_total {A B} (f : B -> A -> result B) l b :
  (forall b x, x ∈ l -> exists b', f b x = Ok b') ->
  exists b', foldM f l b = Ok b'.
Proof.
  revert b. induction l as [|x l IH]; intros b Hf; simpl; [eauto|].
  destruct (Hf b x) as [b' ->]; [by left|]. simpl.
  apply IH. intros b0 y Hy. apply Hf. by right.
Qed.

Lemma elem_of_imap_pair {A} (l : list A) (p : nat * A) :
  p ∈ imap (λ i s, (i, s)) l <-> l !! p.1 = Some p.2.
Proof.
  destruct p as [i s]. rewrite list_elem_of_lookup. simpl. split.
  - intros [j Hj]. rewrite list_lookup_imap in Hj.
    destruct (l !! j) eqn:Hl; [|done]. simpl in Hj. by injection Hj as -> ->.
  - intros Hl. exists i. by rewrite list_lookup_imap, Hl.
Qed.

(** *** [GRUModel.accuracyByStock] *)

Section AccuracyByStock.
Import GRUModel.

Lemma insert_acc_Permutation x l : insert_acc x l ≡ₚ x :: l.
Proof.
  induction l as [|z l IH]; simpl; [done|].
  destruct (gt _ _); [|done]. rewrite IH. apply Permutation_swap.
Qed.

Lemma sort_acc_Permutation l : foldr insert_acc [] l ≡ₚ l.
Proof.
  induction l as [|x l IH]; simpl; [done|].
  by rewrite insert_acc_Permutation, IH.
Qed.

Lemma by_accuracy_cons a l :
  by_accuracy (a :: l) <->
  match l with
  | [] => True
  | b :: _ => gt (sub (acc b) (acc a)) num_0 = false
  end /\ by_accuracy l.
Proof.
  split.
  - intros H. split.
    + destruct l as [|b l]; [done|]. by apply (H 0%nat).
    + intros i x y Hx Hy. by apply (H (S i)).
  - intros [Hh Hl] [|i] x y Hx Hy; simpl in *.
    + injection Hx as <-. destruct l as [|b l]; [done|].
      simpl in Hy. by injection Hy as <-.
    + by apply (Hl i).
Qed.

Lemma insert_acc_by_accuracy x l :
  by_accuracy l -> by_accuracy (insert_acc x l).
Proof.
  induction l as [|z l IH]; intros Hl; simpl.
  - by apply by_accuracy_cons.
  - destruct (gt (sub (acc z) (acc x)) num_0) eqn:Hzx.
    + apply by_accuracy_cons in Hl as [Hh Hl].
      apply by_accuracy_cons. split; [|by apply IH].
      destruct l as [|b l]; simpl.
      * by apply gt_sub_asym.
      * destruct (gt (sub (acc b) (acc x)) num_0); [done|].
        by apply gt_sub_asym.
    + apply by_accuracy_cons. by split.
Qed.

Lemma sort_acc_by_accuracy l : by_accuracy (foldr insert_acc [] l).
Proof.
  induction l as [|x l IH]; simpl.
  - by intros i a b Ha.
  - by apply insert_acc_by_accuracy.
Qed.

Lemma byStock_Ok y_pred y_true names l :
  byStock y_pred y_true names = Ok l ->
  symbol <$> l = names /\
  (forall x, x ∈ l ->
     exists c : nat,
       (c <= 3 * length y_pred)%nat /\
       acc x = div (of_Z (Z.of_nat c))
                   (of_Z (Z.of_nat (3 * length y_pred)))).
Proof.
  unfold byStock. intros Hl. split.
  - apply list_eq. intros i. rewrite list_lookup_fmap.
    destruct (l !! i) as [x|] eqn:Hx; simpl.
    + destruct (mapM_Ok_lookup _ _ _ _ _ Hl Hx) as ([j s] & Hj & Hf).
      rewrite list_lookup_imap in Hj.
      destruct (names !! i) as [s'|]; [|done]. simpl in Hj.
      injection Hj as <- <-. simpl in Hf.
      destruct (count_stock y_pred y_true i); [|done]. simpl in Hf.
      by injection Hf as <-.
    + apply mapM_Ok_length in Hl. rewrite length_imap in Hl.
      apply lookup_ge_None in Hx. symmetry. apply lookup_ge_None. lia.
  - intros x [i Hx]%list_elem_of_lookup.
    destruct (mapM_Ok_lookup _ _ _ _ _ Hl Hx) as ([j s] & Hj & Hf).
    simpl in Hf.
    destruct (count_stock y_pred y_true j) as [c|] eqn:Hc; [|done].
    simpl in Hf. injection Hf as <-. simpl.
    destruct (decide (y_pred <> [] /\ (length y_true < length y_pred)%nat))
      as [[Hne Hlt]|Hle].
    + by rewrite (proj2 (GRUModel_count_stock y_pred y_true j) Hne Hlt) in Hc.
    + destruct (proj1 (GRUModel_count_stock y_pred y_true j)) as (c' & Hc' & ?).
      { destruct y_pred; [by left|right]. 
        destruct (decide (length (l0 :: y_pred) <= length y_true)%nat);
          [done|]. destruct Hle. split; [done|lia]. }
      rewrite Hc' in Hc. injection Hc as <-. exists c'. by split.
Qed.

(** X15. [accuracyByStock] returns a result exactly when no symbol is
    asked for or [y_true] has a row for every row of [y_pred]. The result
    then holds each symbol name once, and every accuracy is a quotient
    [c / (3 n)] with [c <= 3 n] for the [n] rows of [y_pred]. *)
Theorem accuracyByStock_entries y_pred y_true symbolNames :
  ((exists l, accuracyByStock y_pred y_true symbolNames = Ok l)
   <-> symbolNames = [] \/ (length y_pred <= length y_true)%nat) /\
  (forall l,
     accuracyByStock y_pred y_true symbolNames = Ok l ->
     symbol <$> l ≡ₚ symbolNames /\
     (forall x, x ∈ l ->
        exists c : nat,
          (c <= 3 * length y_pred)%nat /\
          acc x = div (of_Z (Z.of_nat c))
                      (of_Z (Z.of_nat (3 * length y_pred))))).
Proof.
  unfold accuracyByStock. split.
  - split.
    + intros [l Hl].
      destruct symbolNames as [|s names]; [by left|right].
      destruct (decide (length y_pred <= length y_true)%nat) as [|Hgt];
        [done|exfalso].
      unfold byStock in Hl. cbn [imap mapM fst] in Hl.
      rewrite (proj2 (GRUModel_count_stock y_pred y_true 0)) in Hl;
        [done| |lia].
      intros ->. simpl in Hgt. lia.
    + intros Hcond.
      assert (exists l, byStock y_pred y_true symbolNames = Ok l) as [l ->].
      { destruct Hcond as [->|Hle]; [by exists []|].
        apply mapM_total, Forall_forall. intros [i s] _. simpl.
        destruct (proj1 (GRUModel_count_stock y_pred y_true i))
          as (c & -> & _); [by right|]. simpl. eauto. }
      simpl. eauto.
  - intros l.
    destruct (byStock y_pred y_true symbolNames) as [l0|] eqn:Hl0; [|done].
    simpl. intros [= <-].
    destruct (byStock_Ok _ _ _ _ Hl0) as [Hnames Hacc]. split.
    + by rewrite sort_acc_Permutation, Hnames.
    + intros x Hx. apply Hacc. by rewrite <- (sort_acc_Permutation l0).
Qed.

(** X16. The result of [accuracyByStock] is in the order of its
    comparator [b.acc - a.acc]: no entry is followed by an entry whose
    accuracy minus its own is greater than zero. *)
Theorem accuracyByStock_sorted y_pred y_true symbolNames l :
  accuracyByStock y_pred y_true symbolNames = Ok l -> by_accuracy l.
Proof.
  unfold accuracyByStock.
  destruct (byStock y_pred y_true symbolNames) as [l0|]; [|done].
  simpl. intros [= <-]. apply sort_acc_by_accuracy.
Qed.

End AccuracyByStock.

(** *** [GRUStockPredictor.calculateStockAccuracies] *)

Section CalculateStockAccuracies.
Import GRUStockPredictor.

(** X17. [calculateStockAccuracies] returns a result exactly when no
    symbol is asked for or [trueArray] has a row for every row of
    [predArray]. The result has an own property for the key of every
    symbol except [__proto__], for which the assignment of a number
    creates none, and for no other key; every accuracy is a quotient
    [c / (3 n)] with [c <= 3 n] for the [n] rows of [predArray], or 0 when
    [n] is 0. *)
Theorem calculateStockAccuracies_entries predArray trueArray symbols :
  ((exists m, calculateStockAccuracies predArray trueArray symbols = Ok m)
   <-> symbols = [] \/ (length predArray <= length trueArray)%nat) /\
  (forall m,
     calculateStockAccuracies predArray trueArray symbols = Ok m ->
     (forall k, is_Some (m !! k)
                <-> k <> "__proto__" /\
                    exists symbol, symbol ∈ symbols /\
                                   StockDataLoader.key symbol = k) /\
     (forall k v, m !! k = Some v ->
        exists c : nat,
          (c <= 3 * length predArray)%nat /\
          v = if (0 <? 3 * length predArray)%nat
              then div (of_Z (Z.of_nat c))
                       (of_Z (Z.of_nat (3 * length predArray)))
              else num_0)).
Proof.
  unfold calculateStockAccuracies. split.
  - split.
    + intros [m Hm].
      destruct symbols as [|s symbols]; [by left|right].
      destruct (decide (length predArray <= length trueArray)%nat) as [|Hgt];
        [done|exfalso].
      cbn [imap foldM fst] in Hm.
      rewrite (proj2 (GRUStockPredictor_count_stock predArray trueArray
                        (length (s :: symbols)) 0)) in Hm; [done| |lia].
      intros ->. simpl in Hgt. lia.
    + intros [->|Hle]; [by exists ∅|].
      apply foldM_total. intros m [i s] _. cbn [fst snd].
      destruct (proj1 (GRUStockPredictor_count_stock predArray trueArray
                         (length symbols) i)) as (c & -> & _); [by right|].
      simpl. eauto.
  - intros m Hm.
    pose (P := λ (l1 : list (nat * option string)) (m : gmap string number),
      (forall k, is_Some (m !! k)
                 <-> k <> "__proto__" /\
                     exists p, p ∈ l1 /\ StockDataLoader.key p.2 = k) /\
      (forall k v, m !! k = Some v ->
         exists c : nat,
           (c <= 3 * length predArray)%nat /\
           v = if (0 <? 3 * length predArray)%nat
               then div (of_Z (Z.of_nat c))
                        (of_Z (Z.of_nat (3 * length predArray)))
               else num_0)).
    assert (P (imap (λ i s, (i, s)) symbols) m) as [Hdom Hval];
      [refine (foldM_invariant _ P _ _ _ _ m Hm); subst P; cbv beta
      |split; [|done]].
    + split.
      * intros k. rewrite lookup_empty, is_Some_alt.
        split; [done|]. intros (_ & p & Hp & _). by apply elem_of_nil in Hp.
      * intros k v. by rewrite lookup_empty.
    + clear Hm m. intros l1 [i s] m m' Hstep [Hdom Hval].
      cbn [fst snd] in Hstep.
      destruct (count_stock predArray trueArray (length symbols) i)
        as [c|] eqn:Hc; [|done].
      simpl in Hstep. injection Hstep as <-. split.
      * intros k. rewrite set_primitive_lookup.
        destruct (decide (StockDataLoader.key s = k /\
                          StockDataLoader.key s <> "__proto__"))
          as [[<- Hp]|Hne].
        -- split; [|by eauto].
           intros _. split; [done|]. exists (i, s). split; [|done].
           apply elem_of_app. right. by apply list_elem_of_singleton.
        -- rewrite Hdom. split.
           ++ intros (Hk & p & Hp & Hkp). split; [done|].
              exists p. split; [|done]. apply elem_of_app. by left.
           ++ intros (Hk & p & [Hp|Hp]%elem_of_app & Hkp); [by eauto|].
              apply list_elem_of_singleton in Hp. subst p. simpl in Hkp.
              destruct Hne. split; [done|]. by rewrite Hkp.
      * intros k v. rewrite set_primitive_lookup.
        destruct (decide (StockDataLoader.key s = k /\
                          StockDataLoader.key s <> "__proto__"))
          as [[<- Hp]|Hne]; [|apply Hval].
        intros [= <-].
        destruct (decide (predArray <> [] /\
                          (length trueArray < length predArray)%nat))
          as [[Hne Hlt]|Hle].
        -- by rewrite (proj2 (GRUStockPredictor_count_stock predArray
                                trueArray (length symbols) i) Hne Hlt) in Hc.
        -- destruct (proj1 (GRUStockPredictor_count_stock predArray
                              trueArray (length symbols) i))
             as (c' & Hc' & ?).
           { destruct predArray as [|r predArray]; [by left|right].
             destruct (decide (length (r :: predArray)
                               <= length trueArray)%nat); [done|].
             destruct Hle. split; [done|lia]. }
           rewrite Hc' in Hc. injection Hc as <-. exists c'.
           split; [done|]. reflexivity.
    + intros k. rewrite Hdom. split.
      * intros (Hk & [i s] & Hp%elem_of_imap_pair & Hkp). simpl in *.
        split; [done|].
        exists s. split; [by eapply list_elem_of_lookup_2|done].
      * intros (Hk & s & [i Hi]%list_elem_of_lookup & Hkp). split; [done|].
        exists (i, s). split; [by apply elem_of_imap_pair|done].
Qed.

End CalculateStockAccuracies.

(** X18. With no test sample the two readers differ: [accuracyByStock]
    gives every symbol the accuracy [NaN], the result of [0/0], and keeps
    the symbols in their order; [calculateStockAccuracies] gives every
    symbol the accuracy 0, and no entry to a symbol of key [__proto__]. *)
Theorem accuracy_of_no_sample y_true (symbolNames : list string)
    (symbols : list (option string)) :
  GRUModel.accuracyByStock [] y_true symbolNames
  = Ok ((λ s, {| GRUModel.symbol := s; GRUModel.acc := NaN |}) <$> symbolNames) /\
  exists m,
    GRUStockPredictor.calculateStockAccuracies [] y_true symbols = Ok m /\
    (forall symbol, symbol ∈ symbols ->
                    StockDataLoader.key symbol <> "__proto__" ->
                    m !! StockDataLoader.key symbol = Some num_0) /\
    m !! "__proto__" = None /\
    (forall k v, m !! k = Some v -> v = num_0).
Proof.
  split.
  - unfold GRUModel.accuracyByStock.
    assert (GRUModel.byStock [] y_true symbolNames
            = Ok ((λ s, {| GRUModel.symbol := s; GRUModel.acc := NaN |})
                    <$> symbolNames)) as ->.
    { unfold GRUModel.byStock.
      rewrite (imap_ext _ (λ i s, ((0 + i)%nat, s))) by done.
      generalize 0%nat. induction symbolNames as [|s names IH]; intros k;
        [done|].
      cbn [imap mapM]. unfold GRUModel.count_stock at 1. cbn [imap foldM bind].
      rewrite (imap_ext _ (λ i s, ((S k + i)%nat, s)))
        by (intros; simpl; f_equal; lia).
      by rewrite IH. }
    cbn [bind]. f_equal.
    induction symbolNames as [|s names IH]; [done|].
    cbn [fmap list_fmap foldr] in *. rewrite IH.
    by destruct names.
  - unfold GRUStockPredictor.calculateStockAccuracies.
    set (f := λ (accuracies : gmap string number) (p : nat * option string),
                bind (GRUStockPredictor.count_stock [] y_true (length symbols) p.1)
                     (λ c, Ok (Obj.set_primitive accuracies
                                 (StockDataLoader.key p.2)
                                 (GRUStockPredictor.accuracy c)))).
    assert (forall m p,
              f m p = Ok (Obj.set_primitive m (StockDataLoader.key p.2) num_0))
      as Hf by done.
    destruct (foldM_total f (imap (λ i s, (i, s)) symbols) ∅) as [m Hm].
    { intros m p _. rewrite Hf. eauto. }
    exists m. split; [done|].
    pose (P := λ (l1 : list (nat * option string)) (m : gmap string number),
      (forall p, p ∈ l1 -> StockDataLoader.key p.2 <> "__proto__" ->
                 m !! StockDataLoader.key p.2 = Some num_0) /\
      m !! "__proto__" = None /\
      (forall k v, m !! k = Some v -> v = num_0)).
    assert (P (imap (λ i s, (i, s)) symbols) m) as (Hdom & Hproto & Hval);
      [refine (foldM_invariant f P _ _ _ _ m Hm); subst P; cbv beta
      |split; [|done]].
    + split; [by intros p Hp%elem_of_nil|]. split; [done|].
      intros k v. by rewrite lookup_empty.
    + intros l1 p m0 m' Hstep (Hdom & Hproto & Hval). rewrite Hf in Hstep.
      injection Hstep as <-. split_and!.
      * intros q Hq Hk. rewrite set_primitive_lookup.
        destruct (decide (_ /\ _)); [done|].
        apply elem_of_app in Hq as [Hq|Hq]; [by apply Hdom|].
        apply list_elem_of_singleton in Hq as ->. tauto.
      * rewrite set_primitive_lookup.
        by destruct (decide (_ /\ _)) as [[-> ?]|].
      * intros k v. rewrite set_primitive_lookup.
        destruct (decide (_ /\ _)); [by intros [= <-]|apply Hval].
    + intros symbol [i Hi]%list_elem_of_lookup Hk.
      apply (Hdom (i, symbol)); [|done]. by apply elem_of_imap_pair.
Qed.

(** ** The further properties at concrete inputs *)

Lemma loadCSV_replaces_state_witness :
  let this' := loaded Inputs.csv20 in
  let this2 := loaded Inputs.csv10 in
  DataLoader.loadCSV digits_to_number DataLoader.constructor Inputs.csv20
    = DataLoader.Done this' /\
  DataLoader.loadCSV digits_to_number this2 Inputs.csv20
    = DataLoader.Done this'.
Proof.
  intros this' this2.
  assert (DataLoader.loadCSV digits_to_number DataLoader.constructor
            Inputs.csv20 = DataLoader.Done this') as Hload
    by (vm_compute; reflexivity).
  clearbody this' this2.
  split; [exact Hload|].
  exact (loadCSV_replaces_state digits_to_number DataLoader.constructor this2
           Inputs.csv20 this' Hload).
Defined.

Lemma loadCSV_axes_witness :
  let this' := loaded Inputs.csv20 in
  DataLoader.loadCSV digits_to_number DataLoader.constructor Inputs.csv20
    = DataLoader.Done this' /\
  DataLoader.symbols this' = ["A"; "B"] /\
  ascending String.ltb (DataLoader.symbols this') /\
  ascending String.ltb (DataLoader.dates this') /\
  ("" ∉ DataLoader.symbols this') /\ ("" ∉ DataLoader.dates this').
Proof.
  intros this'.
  assert (DataLoader.loadCSV digits_to_number DataLoader.constructor
            Inputs.csv20 = DataLoader.Done this') as Hload
    by (vm_compute; reflexivity).
  assert (DataLoader.symbols this' = ["A"; "B"]) as Hsyms
    by (vm_compute; reflexivity).
  clearbody this'.
  destruct (loadCSV_axes digits_to_number DataLoader.constructor
              Inputs.csv20 this' Hload) as (Hs & Hd & _ & _ & Hes & Hed).
  split; [exact Hload|]. split; [exact Hsyms|]. split; [exact Hs|].
  split; [exact Hd|]. split; [exact Hes|exact Hed].
Defined.

Lemma loadCSV_indices_witness :
  let this' := loaded Inputs.csv20 in
  DataLoader.loadCSV digits_to_number DataLoader.constructor Inputs.csv20
    = DataLoader.Done this' /\
  DataLoader.symbolIndex this' !! "B" = Some 1%nat /\
  DataLoader.symbols this' !! 1%nat = Some "B" /\
  indexOf (DataLoader.dates this') "d07" = Some 6%nat /\
  exists M, DataLoader.dataMatrix this' = Some M /\ shaped 20 2 M.
Proof.
  intros this'.
  assert (DataLoader.loadCSV digits_to_number DataLoader.constructor
            Inputs.csv20 = DataLoader.Done this') as Hload
    by (vm_compute; reflexivity).
  assert (DataLoader.symbolIndex this' !! "B" = Some 1%nat) as Hidx
    by (vm_compute; reflexivity).
  assert (DataLoader.dates this' !! 6%nat = Some "d07") as Hdate
    by (vm_compute; reflexivity).
  assert (length (DataLoader.dates this') = 20%nat) as Hd
    by (vm_compute; reflexivity).
  assert (length (DataLoader.symbols this') = 2%nat) as Hs
    by (vm_compute; reflexivity).
  clearbody this'.
  destruct (loadCSV_indices digits_to_number DataLoader.constructor
              Inputs.csv20 this' Hload) as (Hsym & Hdat & M & HM & Hshape).
  rewrite Hd, Hs in Hshape.
  split; [exact Hload|]. split; [exact Hidx|].
  split; [exact (proj1 (Hsym _ _) Hidx)|].
  split; [exact (proj2 (Hdat _ _) Hdate)|].
  exists M. split; [exact HM|exact Hshape].
Defined.

Lemma loadCSV_no_record_witness :
  (forall h, h ∈ DataLoader.required
             -> h ∈ header_row MoreInputs.csv_no_record) /\
  records digits_to_number MoreInputs.csv_no_record = [] /\
  DataLoader.loadCSV digits_to_number DataLoader.constructor
    MoreInputs.csv_no_record = DataLoader.Done empty_loader /\
  DataLoader.buildDataset empty_loader 12 3 DataLoader.default_testSplit
  = Ok (empty_dataset []).
Proof.
  assert (header_row MoreInputs.csv_no_record = DataLoader.required) as Hh
    by (vm_compute; reflexivity).
  assert (forall h, h ∈ DataLoader.required
                    -> h ∈ header_row MoreInputs.csv_no_record) as Hreq
    by (intros h Hin; rewrite Hh; exact Hin).
  assert (records digits_to_number MoreInputs.csv_no_record = []) as Hrec
    by (vm_compute; reflexivity).
  destruct (loadCSV_no_record digits_to_number DataLoader.constructor
              MoreInputs.csv_no_record Hreq Hrec) as [Hload Hds].
  split; [exact Hreq|]. split; [exact Hrec|]. split; [exact Hload|].
  apply Hds. lia.
Defined.

Lemma buildDataset_features_witness :
  let this' := loaded Inputs.csv20 in
  let Xy := samples_of (DataLoader.samples this' 12 3) in
  let x := (default ([], []) (Xy !! 1%nat)).1 in
  let lab := (default ([], []) (Xy !! 1%nat)).2 in
  DataLoader.samples this' 12 3 = Ok Xy /\
  Xy !! 1%nat = Some (x, lab) /\
  exists row c,
    x !! 2%nat = Some row /\
    DataLoader.cell (default [] (DataLoader.dataMatrix this')) 3 1 = Ok c /\
    row !! 2%nat = Some (DataLoader.open c) /\
    row !! 3%nat = Some (DataLoader.close c).
Proof.
  intros this' Xy x lab.
  assert (DataLoader.samples this' 12 3 = Ok Xy) as HXy
    by (vm_compute; reflexivity).
  assert (Xy !! 1%nat = Some (x, lab)) as Hk by (vm_compute; reflexivity).
  assert (length (DataLoader.symbols this') = 2%nat) as Hs
    by (vm_compute; reflexivity).
  clearbody this' Xy x lab.
  split; [exact HXy|]. split; [exact Hk|].
  apply (buildDataset_features this' 12 3 Xy 1 2 1 x lab HXy Hk); [lia|].
  rewrite Hs. lia.
Defined.

Lemma buildDataset_split_witness :
  let this' := loaded Inputs.csv20 in
  let ds := dataset_of (DataLoader.buildDataset this' 12 3 NaN) in
  DataLoader.buildDataset this' 12 3 NaN = Ok ds /\
  exists Xy,
    DataLoader.samples this' 12 3 = Ok Xy /\
    DataLoader.X_train ds ++ DataLoader.X_test ds = Xy.*1 /\
    DataLoader.y_train ds ++ DataLoader.y_test ds = Xy.*2 /\
    length (DataLoader.X_train ds) = length (DataLoader.y_train ds) /\
    length (DataLoader.X_test ds) = length (DataLoader.y_test ds) /\
    DataLoader.symbolNames ds = DataLoader.symbols this'.
Proof.
  intros this' ds.
  assert (DataLoader.buildDataset this' 12 3 NaN = Ok ds) as Hds
    by (vm_compute; reflexivity).
  clearbody this' ds.
  split; [exact Hds|].
  exact (buildDataset_split this' 12 3 NaN ds Hds).
Defined.

Lemma default_split_sizes_witness :
  let this' := loaded Inputs.csv20 in
  let ds := dataset_of (DataLoader.buildDataset this' 12 3
                          DataLoader.default_testSplit) in
  let S := parsed Inputs.csv20 in
  let Xs := default [] (StockDataLoader.X S) in
  let ys := default [] (StockDataLoader.y S) in
  DataLoader.buildDataset this' 12 3 DataLoader.default_testSplit = Ok ds /\
  length (DataLoader.X_train ds ++ DataLoader.X_test ds) = 5%nat /\
  length (DataLoader.X_train ds) = 4%nat /\
  length (DataLoader.X_test ds) = 1%nat /\
  StockDataLoader.parseCSV digits_to_number StockDataLoader.constructor
    Inputs.csv20 = StockDataLoader.Done S /\
  StockDataLoader.X S = Some Xs /\ StockDataLoader.y S = Some ys /\
  length Xs = 5%nat /\
  length <$> StockDataLoader.X_train S = Some 4%nat /\
  length <$> StockDataLoader.X_test S = Some 1%nat /\
  exists S',
    StockDataLoader.splitData S = StockDataLoader.Done S' /\
    length <$> StockDataLoader.X_train S' = Some 4%nat /\
    length <$> StockDataLoader.X_test S' = Some 1%nat.
Proof.
  intros this' ds S Xs ys.
  assert (DataLoader.buildDataset this' 12 3 DataLoader.default_testSplit
          = Ok ds) as Hds by (vm_compute; reflexivity).
  assert (length (DataLoader.X_train ds ++ DataLoader.X_test ds) = 5%nat)
    as Hn by (vm_compute; reflexivity).
  assert (StockDataLoader.parseCSV digits_to_number StockDataLoader.constructor
            Inputs.csv20 = StockDataLoader.Done S) as HDone
    by (vm_compute; reflexivity).
  assert (StockDataLoader.X S = Some Xs) as HX by (vm_compute; reflexivity).
  assert (StockDataLoader.y S = Some ys) as Hy by (vm_compute; reflexivity).
  assert (length Xs = 5%nat) as Hm by (vm_compute; reflexivity).
  pose proof (default_split_sizes digits_to_number this' 12 3 ds S Xs ys
                StockDataLoader.constructor Inputs.csv20)
    as (HD & HS & HP).
  specialize (HD Hds). specialize (HS HX Hy).
  cbv zeta in HD, HS, HP. rewrite !parsed_eq in HP. fold S in HP.
  rewrite Hn in HD. rewrite Hm in HS.
  clearbody Xs ys. clearbody this' ds S.
  destruct (HD ltac:(lia)) as [HD1 HD2].
  destruct (HS ltac:(lia)) as (S' & HS0 & HS1 & HS2).
  destruct (HP HDone) as (Xs' & HX' & HP').
  rewrite HX in HX'. injection HX' as <-. rewrite Hm in HP'.
  destruct (HP' ltac:(lia)) as [HP1 HP2].
  split; [exact Hds|]. split; [exact Hn|]. split; [exact HD1|].
  split; [exact HD2|]. split; [exact HDone|]. split; [exact HX|].
  split; [exact Hy|]. split; [exact Hm|]. split; [exact HP1|].
  split; [exact HP2|].
  exists S'. split; [exact HS0|]. split; [exact HS1|exact HS2].
Defined.

Lemma buildDataset_empty_window_witness :
  let this' := loaded Inputs.csv20 in
  DataLoader.loadCSV digits_to_number DataLoader.constructor Inputs.csv20
    = DataLoader.Done this' /\
  DataLoader.symbols this' <> [] /\
  0 <= 3 < Z.of_nat (length (DataLoader.dates this')) /\
  exists msg,
    DataLoader.buildDataset this' 0 3 DataLoader.default_testSplit
    = Throw (TypeError msg).
Proof.
  intros this'.
  assert (DataLoader.loadCSV digits_to_number DataLoader.constructor
            Inputs.csv20 = DataLoader.Done this') as Hload
    by (vm_compute; reflexivity).
  assert (DataLoader.symbols this' = ["A"; "B"]) as Hsyms
    by (vm_compute; reflexivity).
  assert (length (DataLoader.dates this') = 20%nat) as Hd
    by (vm_compute; reflexivity).
  clearbody this'.
  assert (DataLoader.symbols this' <> []) as Hne
    by (rewrite Hsyms; discriminate).
  assert (0 <= 3 < Z.of_nat (length (DataLoader.dates this'))) as Hah
    by (rewrite Hd; lia).
  split; [exact Hload|]. split; [exact Hne|]. split; [exact Hah|].
  exact (buildDataset_empty_window digits_to_number DataLoader.constructor
           Inputs.csv20 this' 3 DataLoader.default_testSplit Hload Hne Hah).
Defined.

Lemma parseCSV_records_witness :
  let raw := StockDataLoader.rawData (parsed MoreInputs.csv_dup_header) in
  length raw = 2%nat /\
  exists record,
    raw !! 0%nat = Some record /\
    record !! "Open" = Some (Some "12") /\
    StockDataLoader.prop record StockDataLoader.Column.Open = Some "12" /\
    record !! "Volume" = None /\
    record !! "__proto__" = None.
Proof.
  intros raw.
  pose proof (parseCSV_records digits_to_number StockDataLoader.constructor
                MoreInputs.csv_dup_header
                0 4 "d1,A,10,11,12" "Open" StockDataLoader.Column.Open) as H4.
  pose proof (parseCSV_records digits_to_number StockDataLoader.constructor
                MoreInputs.csv_dup_header
                0 4 "d1,A,10,11,12" "Volume" StockDataLoader.Column.Open)
    as HV.
  cbv zeta in H4, HV. rewrite !parsed_eq in H4, HV. fold raw in H4, HV.
  replace (split newline (trim MoreInputs.csv_dup_header))
    with ["Date,Symbol,Open,Close,Open"; "d1,A,10,11,12"; "d2,A"] in H4, HV
    by (vm_compute; reflexivity).
  replace (map trim (split comma
             (default "" (head ["Date,Symbol,Open,Close,Open";
                                "d1,A,10,11,12"; "d2,A"]))))
    with ["Date"; "Symbol"; "Open"; "Close"; "Open"] in H4, HV
    by (vm_compute; reflexivity).
  replace (map trim (split comma "d1,A,10,11,12"))
    with ["d1"; "A"; "10"; "11"; "12"] in H4, HV
    by (vm_compute; reflexivity).
  clearbody raw.
  destruct H4 as [Hlen H4]. destruct HV as [_ HV].
  destruct (H4 eq_refl) as (record & Hrec & Hown & _ & Hproto & Hopen & _).
  destruct (HV eq_refl) as (record' & Hrec' & _ & Hvol & _).
  rewrite Hrec in Hrec'. injection Hrec' as <-.
  assert (forall j : nat, (4 < j)%nat ->
            ["Date"; "Symbol"; "Open"; "Close"; "Open"] !! j <> Some "Open")
    as Hlast.
  { intros j Hj. do 5 (destruct j as [|j]; [lia|]). discriminate. }
  split; [exact Hlen|]. exists record. split; [exact Hrec|]. split_and!.
  - apply Hown; [discriminate|reflexivity|exact Hlast].
  - apply Hopen; [reflexivity|exact Hlast].
  - apply Hvol. intros Hin.
    repeat (apply elem_of_cons in Hin as [Hin|Hin]; [discriminate|]).
    by apply elem_of_nil in Hin.
  - exact Hproto.
Defined.

Lemma createSequences_features_witness :
  let S := parsed Inputs.csv_gap in
  let nd := StockDataLoader.normalizedData S in
  let syms := StockDataLoader.symbols S in
  let ds := StockDataLoader.dates S in
  syms !! 1%nat = Some (Some "B") /\
  StockDataLoader.at2 nd (StockDataLoader.date_at ds 1) (Some "B")
  = Obj.Undefined /\
  exists row,
    StockDataLoader.sequence nd syms ds 0 !! 1%nat = Some row /\
    row !! 2%nat = Some (Some num_0) /\ row !! 3%nat = Some (Some num_0).
Proof.
  intros S nd syms ds.
  assert (syms !! 1%nat = Some (Some "B")) as Hs by (vm_compute; reflexivity).
  assert (StockDataLoader.at2 nd (StockDataLoader.date_at ds 1) (Some "B")
          = Obj.Undefined) as Hnone by (vm_compute; reflexivity).
  clearbody S nd syms ds.
  destruct (createSequences_features nd syms ds 0 1 1 (Some "B"))
    as (row & Hrow & _ & Hzero & _);
    [unfold StockDataLoader.sequenceLength; lia|exact Hs|].
  change (0 + 1)%nat with 1%nat in Hzero. rewrite Hnone in Hzero.
  destruct (Hzero eq_refl) as [Ho Hc].
  split; [exact Hs|]. split; [exact Hnone|].
  exists row. split; [exact Hrow|]. split; [exact Ho|exact Hc].
Defined.

Lemma no_statistics_no_cell_witness :
  let S := parsed MoreInputs.csv_zero_close in
  let pivoted := StockDataLoader.pivot digits_to_number
                   (StockDataLoader.rawData S) (StockDataLoader.symbols S)
                   (StockDataLoader.dates S) in
  let nd := StockDataLoader.normalizedData S in
  StockDataLoader.symbols S = [Some "A"; Some "B"] /\
  ordinary "B" /\
  StockDataLoader.observed StockDataLoader.Close pivoted
    (StockDataLoader.dates S) (Some "B") = [] /\
  forall date,
    date ∈ StockDataLoader.dates S ->
    StockDataLoader.at2 nd date (Some "B") = Obj.Undefined /\
    StockDataLoader.featureVector nd (StockDataLoader.symbols S) date !! 2%nat
    = Some (Some num_0) /\
    StockDataLoader.featureVector nd (StockDataLoader.symbols S) date !! 3%nat
    = Some (Some num_0) /\
    (forall current,
       StockDataLoader.target_entry nd current date (Some "B") = num_0).
Proof.
  intros S pivoted nd.
  assert (StockDataLoader.symbols S = [Some "A"; Some "B"]) as Hsyms
    by (vm_compute; reflexivity).
  assert (StockDataLoader.observed StockDataLoader.Close pivoted
            (StockDataLoader.dates S) (Some "B") = []) as Hobs
    by (vm_compute; reflexivity).
  assert (ordinary "B") as Hord
    by (apply (bool_decide_eq_true_1 ("B" ∉ inherited_names));
        vm_compute; reflexivity).
  pose proof (no_statistics_no_cell digits_to_number
                StockDataLoader.constructor
                MoreInputs.csv_zero_close 1 (Some "B")) as H.
  cbv zeta in H. rewrite !parsed_eq in H.
  fold S in H. fold pivoted in H. fold nd in H.
  clearbody S pivoted nd.
  split; [exact Hsyms|]. split; [exact Hord|]. split; [exact Hobs|].
  apply H.
  - rewrite Hsyms. reflexivity.
  - exact Hord.
  - right. exact Hobs.
Defined.

Lemma accuracyByStock_sorted_witness :
  let l := [ {| GRUModel.symbol := "B"; GRUModel.acc := num_1 |};
             {| GRUModel.symbol := "A"; GRUModel.acc := num_0 |} ] in
  GRUModel.accuracyByStock MoreInputs.y_pred_1 MoreInputs.y_true_1 ["A"; "B"]
  = Ok l /\
  by_accuracy l.
Proof.
  intros l.
  assert (GRUModel.accuracyByStock MoreInputs.y_pred_1 MoreInputs.y_true_1
            ["A"; "B"] = Ok l) as Hl by (vm_compute; reflexivity).
  split; [exact Hl|].
  exact (accuracyByStock_sorted MoreInputs.y_pred_1 MoreInputs.y_true_1
           ["A"; "B"] l Hl).
Defined.
